(** * lib/model.js : the model base class of the datasource juggler

    A shallow embedding of [ModelBaseClass]: the initialisation pipeline
    ([_initProperties]), the change tracker ([propertyChanged], [reset]),
    the serialiser ([toObject], [toJSON], [fromObject]), the static
    [getPropertyType] and the small accessors ([getDataSource],
    [setStrict], [toString]), followed by the properties that hold of
    them.

    JavaScript objects live in a store of cells addressed by location;
    a value is a primitive or a reference into that store, so that
    reference identity ([!==]) and aliasing are those of the program.
    The cells are plain objects, arrays, functions and list containers,
    and their members are their own keys.

    What the embedding leaves out: numbers are the integers and [NaN]
    (no fractions, no rounding); primitive values have no members
    (the length of a string is not modelled).  Three kinds of names are
    kept apart, and called reserved.  A bag holds the own keys of an
    object: [k in o] and [o[k]] are those of the source for the names
    that are not inherited from [Object.prototype] (the lookups of the
    registry made by [getPropertyType] and [reset] are modelled in
    full, with [lookup]).  The hidden fields of an instance ([__data],
    [__strict], ...) are fields of a record, and its methods are
    functions of the embedding: an assignment [self[k] = v] is that of
    the source for the names [k] other than theirs.  The properties of
    the construction are stated for inputs without such keys. *)

From Stdlib Require Import String List ZArith Bool Lia.
Import ListNotations.
Open Scope string_scope.
Open Scope list_scope.

(* ================================================================== *)
(** ** Property bags: the own enumerable keys of an object, in order   *)
(* ================================================================== *)

Module Bag.
Section Defs.
Context {V : Type}.

Definition t := list (string * V).

(** [o.hasOwnProperty(k)] together with the stored value. *)
Fixpoint get (o : t) (k : string) : option V :=
  match o with
  | [] => None
  | (k', v) :: o' => if String.eqb k' k then Some v else get o' k
  end.

Definition has (o : t) (k : string) : bool :=
  match get o k with Some _ => true | None => false end.

(** [o[k] = v] : overwrite in place, or append a new key. *)
Fixpoint set (o : t) (k : string) (v : V) : t :=
  match o with
  | [] => [(k, v)]
  | (k', v') :: o' =>
      if String.eqb k' k then (k', v) :: o' else (k', v') :: set o' k v
  end.

(** The keys a [for (k in o)] loop visits. *)
Definition keys (o : t) : list string := map fst o.
End Defs.
Arguments t : clear implicits.
End Bag.

(* ================================================================== *)
(** ** Values, cells and the store                                     *)
(* ================================================================== *)

Definition loc := nat.

Inductive value :=
| VUndefined
| VNull
| VBool (b : bool)
| VNum (n : Z)
| VNaN                        (* the number [NaN] *)
| VStr (s : string)
| VRef (l : loc).

(** A declared property type: a named constructor ([String], [Array],
    a model class, ...) or an array literal such as [[String]]. *)
Inductive type_tag :=
| TNamed (name : string)
| TArrayLit (elems : list string).

Inductive okind :=
| KObject
| KArray
| KFunction
| KList (ty : type_tag).

Record cell := mkCell { kind : okind; fields : Bag.t value }.

Definition heap := list cell.

Definition alloc (h : heap) (c : cell) : heap * value :=
  (h ++ [c], VRef (length h)).

(** [a === b] : [NaN] is not equal to itself. *)
Definition strict_eq (a b : value) : bool :=
  match a, b with
  | VUndefined, VUndefined => true
  | VNull, VNull => true
  | VBool x, VBool y => Bool.eqb x y
  | VNum x, VNum y => Z.eqb x y
  | VStr x, VStr y => String.eqb x y
  | VRef x, VRef y => Nat.eqb x y
  | _, _ => false
  end.

(** The value of [v] in a boolean context. *)
Definition truthy (v : value) : bool :=
  match v with
  | VUndefined | VNull | VNaN => false
  | VBool b => b
  | VNum n => negb (Z.eqb n 0)
  | VStr s => negb (String.eqb s "")
  | VRef _ => true
  end.

(** [a || b] *)
Definition js_or (a b : value) : value := if truthy a then a else b.

Definition kind_of (h : heap) (l : loc) : option okind :=
  option_map kind (nth_error h l).

(** [typeof v] *)
Definition typeof (h : heap) (v : value) : string :=
  match v with
  | VUndefined => "undefined"
  | VNull => "object"
  | VBool _ => "boolean"
  | VNum _ | VNaN => "number"
  | VStr _ => "string"
  | VRef l =>
      match kind_of h l with
      | Some KFunction => "function"
      | _ => "object"
      end
  end.

Definition is_function (h : heap) (v : value) : bool :=
  String.eqb (typeof h v) "function".

(** [v instanceof List] *)
Definition instanceof_List (h : heap) (v : value) : bool :=
  match v with
  | VRef l => match kind_of h l with Some (KList _) => true | _ => false end
  | _ => false
  end.

(** [o[k]] on a bag: a missing key reads as [undefined]. *)
Definition prop (o : Bag.t value) (k : string) : value :=
  match Bag.get o k with Some v => v | None => VUndefined end.

(** The members that every object inherits from [Object.prototype]. *)
Definition Object_prototype : list string :=
  ["constructor"; "hasOwnProperty"; "isPrototypeOf"; "propertyIsEnumerable";
   "toLocaleString"; "toString"; "valueOf"; "__proto__";
   "__defineGetter__"; "__defineSetter__";
   "__lookupGetter__"; "__lookupSetter__"].

Definition inherited_member (k : string) : bool :=
  existsb (String.eqb k) Object_prototype.

(** What [o[k]] finds on a plain object whose own keys are a bag: the own
    entry, else the member that the object inherits, else nothing. *)
Inductive member (V : Type) :=
| Own (v : V)
| Inherited
| Absent.
Arguments Own {V} v.
Arguments Inherited {V}.
Arguments Absent {V}.

Definition lookup {V : Type} (o : Bag.t V) (k : string) : member V :=
  match Bag.get o k with
  | Some v => Own v
  | None => if inherited_member k then Inherited else Absent
  end.


(* ================================================================== *)
(** ** Exceptions                                                      *)
(* ================================================================== *)

Inductive exn :=
| JsError (msg : string)      (* throw new Error(msg) *)
| JsTypeError.                (* member access on null or undefined *)

Inductive result (A : Type) :=
| Ok (a : A)
| Throw (e : exn).
Arguments Ok {A} a.
Arguments Throw {A} e.

Definition bind {A B} (m : result A) (f : A -> result B) : result B :=
  match m with
  | Ok a => f a
  | Throw e => Throw e
  end.

Notation "x <- m ;; k" := (bind m (fun x => k))
  (at level 61, m at next level, right associativity).
Notation "' p <- m ;; k" := (bind m (fun p => k))
  (at level 61, p pattern, m at next level, right associativity).

(** A [for] loop over keys whose body may throw. *)
Fixpoint forEach {S : Type} (body : string -> S -> result S)
         (ks : list string) (s : S) : result S :=
  match ks with
  | [] => Ok s
  | k :: ks' => s' <- body k s ;; forEach body ks' s'
  end.

(** [v[k]] : reading a member of an arbitrary value.  Only cells carry
    members: a primitive value reads as [undefined] under every key,
    and reading through [null] or [undefined] throws. *)
Definition js_get (h : heap) (v : value) (k : string) : result value :=
  match v with
  | VUndefined | VNull => Throw JsTypeError
  | VRef l =>
      match nth_error h l with
      | Some c => Ok (prop (fields c) k)
      | None => Ok VUndefined
      end
  | _ => Ok VUndefined
  end.

Fixpoint update_cell (h : heap) (l : loc) (f : cell -> cell) : heap :=
  match h, l with
  | [], _ => []
  | c :: h', O => f c :: h'
  | c :: h', S l' => c :: update_cell h' l' f
  end.

Definition put_field (k : string) (x : value) (c : cell) : cell :=
  mkCell (kind c) (Bag.set (fields c) k x).

(** [v[k] = x] : writing a member (sloppy mode: a write to a primitive is
    dropped). *)
Definition js_put (h : heap) (v : value) (k : string) (x : value)
  : result heap :=
  match v with
  | VUndefined | VNull => Throw JsTypeError
  | VRef l => Ok (update_cell h l (put_field k x))
  | _ => Ok h
  end.

(* ================================================================== *)
(** ** The model class and its instances                               *)
(* ================================================================== *)

Definition BASE_TYPES : list string :=
  ["String"; "Boolean"; "Number"; "Date"; "Text"].

(** [type.name] *)
Definition type_name (t : type_tag) : value :=
  match t with
  | TNamed n => VStr n
  | TArrayLit _ => VUndefined
  end.

(** [BASE_TYPES.indexOf(type.name) === -1] *)
Definition not_base_type (t : type_tag) : bool :=
  negb (existsb (fun b => strict_eq (VStr b) (type_name t)) BASE_TYPES).

(** [type.name === 'Array' || Array.isArray(type)] *)
Definition is_array_type (t : type_tag) : bool :=
  strict_eq (type_name t) (VStr "Array")
  || match t with TArrayLit _ => true | TNamed _ => false end.

Record descriptor := mkDescriptor {
  type : option type_tag;       (* [undefined] when no type is declared *)
  default : value               (* [undefined] when there is none *)
}.

Record relation := mkRelation { keyFrom : string; keyTo : string }.

(** The constructor [ctor]: [ctor.modelName], [ctor.definition]
    (properties and [settings.strict]) and [ctor.relations]. *)
Record model := mkModel {
  modelName : string;
  properties : Bag.t descriptor;
  relations : Bag.t relation;
  settings_strict : value
}.

Record options := mkOptions {
  opt_applySetters : option value;   (* [None]: key not in the object *)
  opt_strict : value;
  opt_dataSource : value
}.

Definition no_options : options := mkOptions None VUndefined VUndefined.

Record instance := mkInstance {
  __cachedRelations : value;
  __data : Bag.t value;
  __dataWas : Bag.t value;
  __dataSource : value;
  __strict : value;
  own : Bag.t value;            (* own enumerable properties *)
  triggered : list string       (* notifications sent to the hooks *)
}.

Definition set_cachedRelations (x : value) (o : instance) : instance :=
  mkInstance x (__data o) (__dataWas o) (__dataSource o) (__strict o)
             (own o) (triggered o).

Definition set_data (k : string) (x : value) (o : instance) : instance :=
  mkInstance (__cachedRelations o) (Bag.set (__data o) k x) (__dataWas o)
             (__dataSource o) (__strict o) (own o) (triggered o).

Definition set_dataWas (k : string) (x : value) (o : instance) : instance :=
  mkInstance (__cachedRelations o) (__data o) (Bag.set (__dataWas o) k x)
             (__dataSource o) (__strict o) (own o) (triggered o).

Definition set_own (k : string) (x : value) (o : instance) : instance :=
  mkInstance (__cachedRelations o) (__data o) (__dataWas o)
             (__dataSource o) (__strict o) (Bag.set (own o) k x)
             (triggered o).

Definition trigger (ev : string) (o : instance) : instance :=
  mkInstance (__cachedRelations o) (__data o) (__dataWas o)
             (__dataSource o) (__strict o) (own o) (triggered o ++ [ev]).


(** A machine state: the store and the instance under construction. *)
Definition state := (heap * instance)%type.

(** Collaborators that the file calls but does not define.  Each may
    allocate fresh cells (appended to the store) and never touches the
    existing ones. *)
Record externals := mkExternals {
  (** the per-type normalisation done by the setter that the connector
      layer installs for a registered property *)
  normalize : string -> value -> heap -> value * list cell;
  (** calling the function object at a location with no argument *)
  invoke : loc -> heap -> value * list cell;
  (** [JSON.parse]; [None] when it throws *)
  JSON_parse : string -> heap -> option (value * list cell);
  (** [String(v)] and [v + ''] *)
  to_string : heap -> value -> string;
  (** [v.toObject(onlySchema)] of a list container or of a nested value *)
  call_toObject : heap -> value -> bool -> value * list cell
}.

(* ================================================================== *)
(** ** The initialisation pipeline                                     *)
(* ================================================================== *)

Section Pipeline.

Variable X : externals.
Variable ctor : model.

(** The input data is not copied: cloning is disabled in the source. *)
Definition clone (data : value) : value := data.

(** Modelled from the spec: assignment [self[name] = v] on an instance.
    The accessors of registered properties are installed on the prototype
    by the connector layer, outside this file: the setter stores the
    normalised value in the data store.  A name that is already an own
    property, or that has no accessor, is written as a plain own
    property.  This is the assignment of the source for every [name]
    but those of the hidden fields, which it would overwrite. *)
Definition assign (name : string) (v : value) (s : state) : state :=
  let '(h, self) := s in
  if Bag.has (own self) name then
    (h, set_own name v self)
  else if Bag.has (properties ctor) name then
    let '(v', cells) := normalize X name v h in
    (h ++ cells, set_data name v' self)
  else
    (h, set_own name v self).

(** Modelled from the spec: reading [self[name]].  An own property
    shadows the prototype; the getter of a registered property reads the
    data store. *)
Definition read (self : instance) (name : string) : value :=
  match Bag.get (own self) name with
  | Some v => v
  | None =>
      if Bag.has (properties ctor) name then prop (__data self) name
      else VUndefined
  end.

(** Lines 119-130: the body of the loop that partitions the input keys.
    [i in properties] and [i in ctor.relations] are read on the own
    keys: they are those of the source for every key [i] that is not a
    member inherited from [Object.prototype]. *)
Definition partition_key (data : Bag.t value) (strict : value)
           (i : string) (s : state) : result state :=
  let '(h, self) := s in
  if Bag.has (properties ctor) i && negb (is_function h (prop data i)) then
    let v := clone (prop data i) in
    Ok (h, set_data i v (set_dataWas i v self))
  else
    match Bag.get (relations ctor) i with
    | Some r =>
        v <- js_get h (prop data i) (keyTo r) ;;
        let self' := set_data (keyFrom r) v (set_dataWas i v self) in
        h' <- js_put h (__cachedRelations self') i (prop data i) ;;
        Ok (h', self')
    | None =>
        if strict_eq strict (VBool false) then
          let v := clone (prop data i) in
          Ok (h, set_data i v (set_dataWas i v self))
        else if strict_eq strict (VStr "throw") then
          Throw (JsError ("Unknown property: " ++ i)%string)
        else
          Ok s
    end.

(** Lines 134-138: the body of the loop that applies the setters (the
    tests [in] as in [partition_key]). *)
Definition apply_setter (data : Bag.t value) (propertyName : string)
           (s : state) : result state :=
  let '(h, self) := s in
  if negb (is_function h (prop data propertyName))
     && (Bag.has (properties ctor) propertyName
         || Bag.has (relations ctor) propertyName)
  then
    Ok (assign propertyName
               (js_or (prop (__data self) propertyName)
                      (prop data propertyName)) s)
  else Ok s.

(** Lines 143-147: the body of the loop that mirrors the unknown keys
    (the test [in] as in [partition_key]). *)
Definition mirror_unknown (data : Bag.t value) (propertyName : string)
           (s : state) : result state :=
  let '(h, self) := s in
  if negb (is_function h (prop data propertyName))
     && negb (Bag.has (properties ctor) propertyName)
  then
    Ok (assign propertyName
               (js_or (prop (__data self) propertyName)
                      (prop data propertyName)) s)
  else Ok s.

(** Lines 181-192.  It is only called on registered names. *)
Definition getDefault (propertyName : string) (h : heap)
  : value * list cell :=
  let def :=
    match Bag.get (properties ctor) propertyName with
    | Some d => default d
    | None => VUndefined
    end in
  if negb (strict_eq def VUndefined) then
    if is_function h def then
      match def with
      | VRef l => invoke X l h
      | _ => (def, [])
      end
    else (def, [])
  else (VUndefined, []).

(** Lines 152-156: the body of the first [forEachProperty]. *)
Definition fill_default (propertyName : string) (s : state)
  : result state :=
  let '(h, self) := s in
  if strict_eq VUndefined (prop (__data self) propertyName) then
    let '(d, cells) := getDefault propertyName h in
    Ok (h ++ cells, set_data propertyName d (set_dataWas propertyName d self))
  else
    Ok (h, set_dataWas propertyName (prop (__data self) propertyName) self).

(** Modelled from the spec: [new List(items, type, parent)], defined in
    lib/list.js.  It allocates a container cell that wraps [items] and
    remembers the declared type. *)
Definition new_List (h : heap) (items : value) (ty : type_tag)
  : heap * value :=
  alloc h (mkCell (KList ty) [("items", items)]).

(** Lines 165-171: a value that is neither an object nor falsy is parsed
    from its string form, and kept as a string when that fails. *)
Definition parse_structured (propertyName : string) (s : state) : state :=
  let '(h, self) := s in
  let v := prop (__data self) propertyName in
  if negb (String.eqb (typeof h v) "object") && truthy v then
    match JSON_parse X (to_string X h v) h with
    | Some (v', cells) => (h ++ cells, set_data propertyName v' self)
    | None => (h, set_data propertyName (VStr (to_string X h v)) self)
    end
  else s.

(** Lines 172-176. *)
Definition wrap_list (ty : type_tag) (propertyName : string) (s : state)
  : state :=
  let '(h, self) := s in
  if is_array_type ty then
    if negb (instanceof_List h (prop (__data self) propertyName)) then
      let '(h', l) := new_List h (prop (__data self) propertyName) ty in
      (h', set_data propertyName l self)
    else s
  else s.

(** Lines 162-177: the body of the second [forEachProperty]. *)
Definition coerce_property (propertyName : string) (s : state)
  : result state :=
  match Bag.get (properties ctor) propertyName with
  | Some d =>
      match type d with
      | None => Throw JsTypeError          (* [type.name] of [undefined] *)
      | Some ty =>
          if not_base_type ty then
            Ok (wrap_list ty propertyName (parse_structured propertyName s))
          else Ok s
      end
  | None => Throw JsTypeError
  end.

(** [ctor.forEachProperty(f)] visits the registered names in order. *)
Definition forEachProperty (f : string -> state -> result state)
           (s : state) : result state :=
  forEach f (Bag.keys (properties ctor)) s.

(** Lines 68-72: the instance-level strict mode, else the setting of the
    definition. *)
Definition resolve_strict (opts : options) : value :=
  if strict_eq (opt_strict opts) VUndefined then settings_strict ctor
  else opt_strict opts.

(** Lines 73-116: the hidden stores of a new instance; the relation
    cache is a fresh object unless the input brings its own. *)
Definition define_stores (h : heap) (data : Bag.t value) (opts : options)
  : state :=
  let '(h0, cached) := alloc h (mkCell KObject []) in
  let self := mkInstance cached [] [] (opt_dataSource opts)
                         (resolve_strict opts) [] [] in
  if truthy (prop data "__cachedRelations")
  then (h0, set_cachedRelations (prop data "__cachedRelations") self)
  else (h0, self).

(** Lines 59-195. *)
Definition _initProperties (h : heap) (data : Bag.t value)
           (opts : options) : result state :=
  let applySetters :=
    match opt_applySetters opts with Some v => v | None => VUndefined end in
  let strict := resolve_strict opts in
  s <- forEach (partition_key data strict) (Bag.keys data)
               (define_stores h data opts) ;;
  s <- (if strict_eq applySetters (VBool true)
        then forEach (apply_setter data) (Bag.keys data) s
        else Ok s) ;;
  s <- (if strict_eq strict (VBool false)
        then forEach (mirror_unknown data) (Bag.keys data) s
        else Ok s) ;;
  s <- forEachProperty fill_default s ;;
  s <- forEachProperty coerce_property s ;;
  Ok (fst s, trigger "initialize" (snd s)).

(** Lines 30-37: the constructor.  The options are a value of the
    embedding, not an object of the store: the record passed on is what
    the caller's object holds once line 34 has written [applySetters]
    into it. *)
Definition ModelBaseClass (h : heap) (data : Bag.t value)
           (opts : options) : result state :=
  let opts :=
    match opt_applySetters opts with
    | Some _ => opts
    | None => mkOptions (Some (VBool true)) (opt_strict opts)
                        (opt_dataSource opts)
    end in
  _initProperties h data opts.

(** Lines 205-216.  The registry is a plain object, so
    [properties[propName]] also finds the members inherited from
    [Object.prototype]: such a member is truthy and has no [type]. *)
Definition getPropertyType (propName : string) : result value :=
  match lookup (properties ctor) propName with
  | Absent => Ok VNull
  | Inherited =>
      Throw (JsError ("Type not defined for property "
                      ++ modelName ctor ++ "." ++ propName)%string)
  | Own p =>
      match type p with
      | None =>
          Throw (JsError ("Type not defined for property "
                          ++ modelName ctor ++ "." ++ propName)%string)
      | Some ty => Ok (type_name ty)
      end
  end.

(** Lines 309-311. *)
Definition propertyChanged (self : instance) (propertyName : string)
  : bool :=
  negb (strict_eq (prop (__data self) propertyName)
                  (prop (__dataWas self) propertyName)).

(* ------------------------------------------------------------------ *)
(** *** Serialisation                                                  *)
(* ------------------------------------------------------------------ *)

(** [val.toObject] is truthy: list containers inherit the method, other
    cells may carry it as a member. *)
Definition has_toObject (h : heap) (v : value) : bool :=
  match v with
  | VRef l =>
      match nth_error h l with
      | Some c =>
          match kind c with
          | KList _ => true
          | _ => truthy (prop (fields c) "toObject")
          end
      | None => false
      end
  | _ => false
  end.

(** Lines 253-257 (and 271-275, 282-286): a nested value that can
    serialise itself does so. *)
Definition plain (h : heap) (val : value) (schemaLess : bool)
  : value * heap :=
  if negb (strict_eq val VUndefined) && negb (strict_eq val VNull)
     && has_toObject h val
  then
    let '(v, cells) := call_toObject X h val (negb schemaLess) in
    (v, h ++ cells)
  else (val, h).

Definition out_state := (Bag.t value * heap)%type.

(** Lines 250-260: the body of the loop over the registered names. *)
Definition emit_registered (self : instance) (schemaLess : bool)
           (propertyName : string) (a : out_state) : out_state :=
  let '(data, h) := a in
  if instanceof_List h (read self propertyName) then
    let '(v, cells) :=
      call_toObject X h (read self propertyName) (negb schemaLess) in
    (Bag.set data propertyName v, h ++ cells)
  else if Bag.has (__data self) propertyName then
    let '(v, h') := plain h (read self propertyName) schemaLess in
    (Bag.set data propertyName v, h')
  else
    (Bag.set data propertyName VNull, h).

(** Lines 269-276: the body of the loop over the instance's own keys. *)
Definition emit_own (self : instance) (schemaLess : bool)
           (propertyName : string) (a : out_state) : out_state :=
  let '(data, h) := a in
  if Bag.has (own self) propertyName && negb (Bag.has data propertyName)
  then
    let '(v, h') := plain h (read self propertyName) schemaLess in
    (Bag.set data propertyName v, h')
  else a.

(** Lines 280-287: the body of the loop over the data store. *)
Definition emit_data (self : instance) (schemaLess : bool)
           (propertyName : string) (a : out_state) : out_state :=
  let '(data, h) := a in
  if negb (Bag.has data propertyName) then
    let val :=
      if Bag.has (own self) propertyName
      then read self propertyName
      else prop (__data self) propertyName in
    let '(v, h') := plain h val schemaLess in
    (Bag.set data propertyName v, h')
  else a.

(** Lines 239-291.  The result is the fresh plain object, as the bag of
    its keys, and the store after the nested calls. *)
Definition toObject (h : heap) (self : instance) (onlySchema : value)
  : out_state :=
  let onlySchema :=
    if strict_eq onlySchema VUndefined then VBool true else onlySchema in
  let strict := __strict self in
  let schemaLess := strict_eq strict (VBool false)
                    || negb (truthy onlySchema) in
  let a := fold_left (fun a p => emit_registered self schemaLess p a)
                     (Bag.keys (properties ctor)) ([], h) in
  if schemaLess then
    let a := fold_left (fun a p => emit_own self schemaLess p a)
                       (Bag.keys (own self)) a in
    fold_left (fun a p => emit_data self schemaLess p a)
              (Bag.keys (__data self)) a
  else a.


(** Lines 297-301. *)
Definition fromObject (obj : Bag.t value) (s : state) : state :=
  fold_left (fun s key => assign key (prop obj key) s) (Bag.keys obj) s.

End Pipeline.


(* ================================================================== *)
(** ** The vocabulary of the properties                                *)
(* ================================================================== *)

(** The store only grows, and an object never changes its kind. *)
Definition kinds_kept (h h' : heap) : Prop :=
  forall l k, kind_of h l = Some k -> kind_of h' l = Some k.

(** [untouched p s s'] : going from [s] to [s'] the store kept its
    objects, and nothing was written under the name [p]. *)
Record untouched (p : string) (s s' : state) : Prop := mkUntouched {
  ut_heap : kinds_kept (fst s) (fst s');
  ut_data : Bag.get (__data (snd s')) p = Bag.get (__data (snd s)) p;
  ut_was : Bag.get (__dataWas (snd s')) p = Bag.get (__dataWas (snd s)) p;
  ut_own : Bag.get (own (snd s')) p = Bag.get (own (snd s)) p;
  ut_strict : __strict (snd s') = __strict (snd s);
  ut_cached : __cachedRelations (snd s') = __cachedRelations (snd s)
}.

(** [grows s s'] : new cells were appended to the store, and the
    instance still has the same relation cache and strict mode. *)
Definition grows (s s' : state) : Prop :=
  (exists cells, fst s' = fst s ++ cells)
  /\ __cachedRelations (snd s') = __cachedRelations (snd s)
  /\ __strict (snd s') = __strict (snd s).

Section Runs.

Variable X : externals.
Variable ctor : model.

(** The intermediate states of a run of [_initProperties] that returns. *)
Inductive init_run (h : heap) (data : Bag.t value) (opts : options)
          (s : state) : Prop :=
| InitRun
    (s4 s5 s6 s7 s8 : state)   (* the state after each loop, in order *)
    (ir_partition :
       forEach (partition_key ctor data (resolve_strict ctor opts))
               (Bag.keys data) (define_stores ctor h data opts) = Ok s4)
    (ir_setters :
       (if strict_eq (match opt_applySetters opts with
                      | Some v => v | None => VUndefined end) (VBool true)
        then forEach (apply_setter X ctor data) (Bag.keys data) s4
        else Ok s4) = Ok s5)
    (ir_mirror :
       (if strict_eq (resolve_strict ctor opts) (VBool false)
        then forEach (mirror_unknown X ctor data) (Bag.keys data) s5
        else Ok s5) = Ok s6)
    (ir_defaults :
       forEachProperty ctor (fill_default X ctor) s6 = Ok s7)
    (ir_coerce :
       forEachProperty ctor (coerce_property X ctor) s7 = Ok s8)
    (ir_final : s = (fst s8, trigger "initialize" (snd s8))).

End Runs.

(** The current value and the baseline agree under the name [p]. *)
Definition in_sync (p : string) (s : state) : Prop :=
  prop (__data (snd s)) p = prop (__dataWas (snd s)) p.

(** The value stored under [p] is a list container. *)
Definition holds_List (p : string) (s : state) : Prop :=
  instanceof_List (fst s) (prop (__data (snd s)) p) = true.

(** An instance without own properties, whose data store holds only
    registered names. *)
Definition schema_only (ctor : model) (self : instance) : Prop :=
  own self = []
  /\ forall q, Bag.has (__data self) q = true ->
               Bag.has (properties ctor) q = true.

(** The error that [getPropertyType] throws for a property without a
    type. *)
Definition MissingTypeError (ctor : model) (propName : string) : exn :=
  JsError ("Type not defined for property "
           ++ modelName ctor ++ "." ++ propName)%string.

(** The error thrown for a key that is neither a property nor a
    relation. *)
Definition UnknownPropertyError (k : string) : exn :=
  JsError ("Unknown property: " ++ k)%string.

(** The key is absent from the registry and from the relation set. *)
Definition unknown_key (ctor : model) (k : string) : Prop :=
  Bag.has (properties ctor) k = false /\ Bag.has (relations ctor) k = false.

(** The two stores agree on which values are functions. *)
Definition same_functions (h hx : heap) : Prop :=
  forall v, is_function hx v = is_function h v.

(** [self[p][k] = x] : the object that the property refers to is changed
    in place; the property itself is not assigned. *)
Definition mutate_in_place (p k : string) (x : value) (s : state)
  : result state :=
  h' <- js_put (fst s) (prop (__data (snd s)) p) k x ;; Ok (h', snd s).

(** What the loop over the registered names emits for a property:
    the stored value, or [null] when the data store has no such key. *)
Definition serial (data : Bag.t value) (p : string) : value :=
  if Bag.has data p then prop data p else VNull.

(** The object built by writing [val p] under each [p] of [ks]. *)
Definition emitted (val : string -> value) (ks : list string)
           (out : Bag.t value) : Bag.t value :=
  fold_left (fun o p => Bag.set o p (val p)) ks out.

(** *** Invariants of the loops of the pipeline

    Each is a property of the state between two steps, for a fixed
    input: the name [p] or [k] under consideration, the location [l] of
    an input object, the initial store [h]. *)

(** The raw array is what the data store holds under [p]. *)
Definition raw_stored (h : heap) (p : string) (l : loc) (s : state) : Prop :=
  kinds_kept h (fst s) /\ Bag.get (__data (snd s)) p = Some (VRef l).

Definition raw_in_data (h : heap) (p : string) (l : loc) (s : state) : Prop :=
  raw_stored h p l s /\ Bag.get (own (snd s)) p = None.

Definition baselined (h : heap) (p : string) (l : loc) (s : state) : Prop :=
  raw_stored h p l s /\ prop (__dataWas (snd s)) p = VRef l.

Definition wrapped (p : string) (l : loc) (s : state) : Prop :=
  prop (__dataWas (snd s)) p = VRef l
  /\ holds_List p s
  /\ prop (__data (snd s)) p <> VRef l.

(** The value stored under [p] is the container that [new List] made
    from the array at [l], for the declared type [ty]: a cell allocated
    past the initial store [h]. *)
Definition made_from (h : heap) (p : string) (l : loc) (ty : type_tag)
           (s : state) : Prop :=
  exists l', prop (__data (snd s)) p = VRef l'
             /\ nth_error h l' = None
             /\ nth_error (fst s) l'
                = Some (mkCell (KList ty) [("items", VRef l)]).



(** The nested object is in place, and the relation cache is the object
    that [define_stores] allocated. *)
Definition cache_ready (h : heap) (l : loc) (c : cell) (s : state) : Prop :=
  nth_error (fst s) l = Some c
  /\ __cachedRelations (snd s) = VRef (length h)
  /\ length h < length (fst s).

(** The cache holds the nested object under [k]. *)
Definition cached (h : heap) (k : string) (l : loc) (s : state) : Prop :=
  exists cc, nth_error (fst s) (length h) = Some cc
             /\ prop (fields cc) k = VRef l.

Definition ingested (h : heap) (k : string) (r : relation) (l : loc)
           (c : cell) (s : state) : Prop :=
  cache_ready h l c s
  /\ prop (__dataWas (snd s)) k = prop (fields c) (keyTo r)
  /\ cached h k l s.

(** What stays true of the baseline and of the cache once the input
    keys have been partitioned. *)
Definition settled (h : heap) (k : string) (r : relation) (l : loc)
           (c : cell) (s : state) : Prop :=
  prop (__dataWas (snd s)) k = prop (fields c) (keyTo r)
  /\ cached h k l s
  /\ __cachedRelations (snd s) = VRef (length h).

Definition fk_set (r : relation) (c : cell) (s : state) : Prop :=
  prop (__data (snd s)) (keyFrom r) = prop (fields c) (keyTo r).



(** The store still tells the same functions, and the relation cache
    can be written. *)
Definition sane (h : heap) (s : state) : Prop :=
  same_functions h (fst s) /\ truthy (__cachedRelations (snd s)) = true.

(* ================================================================== *)
(** ** Sample collaborators and models                                 *)
(* ================================================================== *)

Module Sample.

(** Setters that store what they are given, factories that return
    nothing, a parser that rejects everything. *)
Definition inert : externals :=
  mkExternals (fun _ v _ => (v, []))
              (fun _ _ => (VUndefined, []))
              (fun _ _ => None)
              (fun _ _ => "")
              (fun _ v _ => (v, [])).

Definition User : model :=
  mkModel "User"
          [("name", mkDescriptor (Some (TNamed "String")) VUndefined);
           ("age", mkDescriptor (Some (TNamed "Number")) (VNum 18));
           ("tags", mkDescriptor (Some (TArrayLit ["String"])) VUndefined);
           ("ownerId", mkDescriptor (Some (TNamed "Number")) VUndefined)]
          [("owner", mkRelation "ownerId" "id")]
          VUndefined.

Definition strict_opt (strict : value) : options :=
  mkOptions None strict VUndefined.

End Sample.

Module SampleList.

(** A setter that, for the array-typed property [tags], replaces what it
    is given by a new list container, and stores any other value as it
    is. *)
Definition wrapping : externals :=
  mkExternals
    (fun name v h =>
       if String.eqb name "tags"
       then (VRef (length h),
             [mkCell (KList (TArrayLit ["String"])) [("items", v)]])
       else (v, []))
    (fun _ _ => (VUndefined, []))
    (fun _ _ => None)
    (fun _ _ => "")
    (fun _ v _ => (v, [])).

(** A store with one plain array, at location 0. *)
Definition one_array : heap := [mkCell KArray [("0", VStr "a")]].

(** A store with a plain array at location 0 and a list container at
    location 1. *)
Definition two_cells : heap :=
  [mkCell KArray [("0", VStr "a")];
   mkCell (KList (TArrayLit ["String"])) [("items", VRef 0)]].

End SampleList.

Module SampleRelation.

(** A store with one object [{id: 7}], at location 0. *)
Definition one_owner : heap := [mkCell KObject [("id", VNum 7)]].

End SampleRelation.

Module SamplePerson.

(** A model whose properties all have a primitive type. *)
Definition Person : model :=
  mkModel "Person"
          [("name", mkDescriptor (Some (TNamed "String")) VUndefined);
           ("age", mkDescriptor (Some (TNamed "Number")) VUndefined)]
          []
          VUndefined.

(** A setter for [age] that turns the string ["5"] into the number 5,
    and stores any other value as it is. *)
Definition numeric : externals :=
  mkExternals
    (fun name v h =>
       if String.eqb name "age"
       then match v with
            | VStr "5" => (VNum 5, [])
            | _ => (v, [])
            end
       else (v, []))
    (fun _ _ => (VUndefined, []))
    (fun _ _ => None)
    (fun _ _ => "")
    (fun _ v _ => (v, [])).

Definition without_setters : options :=
  mkOptions (Some (VBool false)) VUndefined VUndefined.

End SamplePerson.

Module SampleFunction.

(** A store with one function, at location 0. *)
Definition one_function : heap := [mkCell KFunction []].

End SampleFunction.

Module SampleUntyped.

(** A model with a property that declares no type. *)
Definition Draft : model :=
  mkModel "Draft" [("title", mkDescriptor None VUndefined)] [] VUndefined.

End SampleUntyped.

Module SampleStructured.

(** A model with a property of a structured type. *)
Definition Page : model :=
  mkModel "Page" [("meta", mkDescriptor (Some (TNamed "Object")) VUndefined)]
          [] VUndefined.

(** Collaborators whose [JSON.parse] reads the text [7] as the number 7
    and rejects every other text. *)
Definition parsing : externals :=
  mkExternals (fun _ v _ => (v, []))
              (fun _ _ => (VUndefined, []))
              (fun str _ => if String.eqb str "7" then Some (VNum 7, [])
                            else None)
              (fun _ v => match v with VStr s => s | _ => "" end)
              (fun _ v _ => (v, [])).

End SampleStructured.

Module SampleDirty.

(** An instance of [Sample.User] whose name was changed after it was
    loaded, and which carries an ad-hoc own property. *)
Definition renamed : instance :=
  mkInstance (VRef 0)
             [("name", VStr "Ann"); ("age", VNum 18)]
             [("name", VStr "Joe"); ("age", VNum 18)]
             VUndefined VUndefined [("note", VNum 1)] ["initialize"].


End SampleDirty.

(* ================================================================== *)
(** ** The rest of the class                                           *)
(* ================================================================== *)



Section Rest.

Variable X : externals.
Variable ctor : model.

(** Lines 227-229: [ModelBaseClass.toString]. *)
Definition toString : string :=
  ("[Model " ++ modelName ctor ++ "]")%string.




End Rest.

(** The hidden fields of an instance (lines 73-112) are fields of the
    record [instance], which [assign] does not write.  The pipeline
    assigns [self[k]] only for keys [k] of its input: the input is
    required to have no key named like a hidden store or mode.  (The
    key [__cachedRelations] is part of the interface, line 114.) *)
Definition no_hidden_key (data : Bag.t value) : bool :=
  forallb (fun k => negb (Bag.has data k))
          ["__data"; "__dataWas"; "__dataSource"; "__strict"].

(** The names that the embedding keeps apart: those of the hidden fields
    of an instance (lines 73-112), which an assignment [self[k] = v]
    would overwrite; those of the methods that this file defines on an
    instance or calls on it, which an own property of that name would
    shadow; and those of the members inherited from [Object.prototype],
    which [k in o] and [o[k]] find on every plain object. *)
Definition hidden_fields : list string :=
  ["__cachedRelations"; "__data"; "__dataWas"; "__dataSource"; "__strict"].

Definition instance_methods : list string :=
  ["_initProperties"; "getPropertyType"; "toObject"; "toJSON";
   "fromObject"; "propertyChanged"; "reset"; "inspect"; "getDataSource";
   "setStrict"; "trigger"].

Definition reserved (k : string) : bool :=
  existsb (String.eqb k)
          (hidden_fields ++ instance_methods ++ Object_prototype).

(** No key of the bag is reserved. *)
Definition ordinary_keys {V : Type} (o : Bag.t V) : bool :=
  forallb (fun k => negb (reserved k)) (Bag.keys o).

(** The names of the class (properties, relations and their keys) and
    the keys of the input are not reserved: on these the lookups of the
    source see own keys only, and its assignments write no hidden
    field. *)
Definition ordinary (ctor : model) (data : Bag.t value) : bool :=
  ordinary_keys data
  && ordinary_keys (properties ctor)
  && ordinary_keys (relations ctor)
  && forallb (fun kr => negb (reserved (keyFrom (snd kr)))
                        && negb (reserved (keyTo (snd kr))))
             (relations ctor).

(** No relation of the class is named [__cachedRelations], and none that
    the input supplies stores its foreign key under that name. *)
Definition cache_name_free (ctor : model) (data : Bag.t value) : Prop :=
  Bag.has (relations ctor) "__cachedRelations" = false
  /\ forall i r, In i (Bag.keys data) ->
                 Bag.get (relations ctor) i = Some r ->
                 keyFrom r <> "__cachedRelations".

(** The collaborators [X] with another setter normalisation. *)
Definition with_normalize
           (n : string -> value -> heap -> value * list cell)
           (X : externals) : externals :=
  mkExternals n (invoke X) (JSON_parse X) (to_string X) (call_toObject X).

(** Whether [toObject(onlySchema)] serialises schema-less (line 247,
    with the default of lines 240-242). *)
Definition schemaLess_mode (self : instance) (onlySchema : value) : bool :=
  strict_eq (__strict self) (VBool false)
  || negb (truthy (if strict_eq onlySchema VUndefined then VBool true
                   else onlySchema)).

(** Going from [s] to [s'], the data source and the log of
    notifications of the instance are the same. *)
Definition hidden_kept (s s' : state) : Prop :=
  __dataSource (snd s') = __dataSource (snd s)
  /\ triggered (snd s') = triggered (snd s).


(** The input value [v] is stored under [p] and is its baseline, and
    no own property shadows [p]. *)
Definition supplied (p : string) (v : value) (s : state) : Prop :=
  Bag.get (__data (snd s)) p = Some v
  /\ Bag.get (__dataWas (snd s)) p = Some v
  /\ Bag.get (own (snd s)) p = None.

(** What lines 165-171 make of the text of [v], read in the store
    [hx]: its parse, or the text itself when it does not parse. *)
Definition parse_or_text (X : externals) (hx : heap) (v : value) : value :=
  match JSON_parse X (to_string X hx v) hx with
  | Some (v', _) => v'
  | None => VStr (to_string X hx v)
  end.

(** The baseline of [p] is the input value [v], and the data store holds
    what [v] parses to. *)
Definition parsed (X : externals) (p : string) (v : value) (s : state)
  : Prop :=
  prop (__dataWas (snd s)) p = v
  /\ exists hx, prop (__data (snd s)) p = parse_or_text X hx v.

(** The cells of [h] are all in place, and the relation cache is the
    object that [define_stores] allocated. *)
Definition input_intact (h : heap) (s : state) : Prop :=
  (forall l c, nth_error h l = Some c -> nth_error (fst s) l = Some c)
  /\ __cachedRelations (snd s) = VRef (length h).

(* ================================================================== *)
(** ** Facts about bags, values and the store                          *)
(* ================================================================== *)

Module BagFacts.
Section Facts.
Context {V : Type}.
Implicit Types (o : Bag.t V) (k : string) (v : V).

Lemma get_set_same o k v : Bag.get (Bag.set o k v) k = Some v.
Proof.
  induction o as [|[k' v'] o IH]; simpl.
  - now rewrite String.eqb_refl.
  - destruct (String.eqb k' k) eqn:E; simpl; rewrite E; auto.
Qed.

Lemma get_set_other o k k' v :
  k <> k' -> Bag.get (Bag.set o k v) k' = Bag.get o k'.
Proof.
  intros Hne. induction o as [|[k0 v0] o IH]; simpl.
  - destruct (String.eqb k k') eqn:E; auto.
    apply String.eqb_eq in E. contradiction.
  - destruct (String.eqb k0 k) eqn:E; simpl.
    + apply String.eqb_eq in E. subst k0.
      destruct (String.eqb k k') eqn:E'; auto.
      apply String.eqb_eq in E'. contradiction.
    + now rewrite IH.
Qed.

Lemma has_set_same o k v : Bag.has (Bag.set o k v) k = true.
Proof. unfold Bag.has. now rewrite get_set_same. Qed.

Lemma has_set_other o k k' v :
  k <> k' -> Bag.has (Bag.set o k v) k' = Bag.has o k'.
Proof. intros. unfold Bag.has. now rewrite get_set_other. Qed.


Lemma has_In_keys o k : Bag.has o k = true <-> In k (Bag.keys o).
Proof.
  unfold Bag.has. induction o as [|[k' v'] o IH]; simpl.
  - split; [discriminate | tauto].
  - destruct (String.eqb_spec k' k) as [->|Hne].
    + split; auto.
    + rewrite IH. split; [tauto | intros [?|?]; [contradiction|auto]].
Qed.

Lemma get_Some_has o k v : Bag.get o k = Some v -> Bag.has o k = true.
Proof. unfold Bag.has. now intros ->. Qed.

Lemma has_false_get o k : Bag.has o k = false -> Bag.get o k = None.
Proof. unfold Bag.has. destruct (Bag.get o k); [discriminate | auto]. Qed.
End Facts.
End BagFacts.
Import BagFacts.

Lemma prop_set_same o k v : prop (Bag.set o k v) k = v.
Proof. unfold prop. now rewrite get_set_same. Qed.

Lemma prop_set_other o k k' v : k <> k' -> prop (Bag.set o k v) k' = prop o k'.
Proof. intros. unfold prop. now rewrite get_set_other. Qed.

(** Values that [===] finds equal are the same value. *)
Lemma strict_eq_spec a b : strict_eq a b = true -> a = b.
Proof.
  destruct a, b; simpl; intros H; try discriminate; try reflexivity.
  - apply Bool.eqb_prop in H. now subst.
  - apply Z.eqb_eq in H. now subst.
  - apply String.eqb_eq in H. now subst.
  - apply Nat.eqb_eq in H. now subst.
Qed.

(** Every value but [NaN] is [===] to itself. *)
Lemma strict_eq_refl a : a <> VNaN -> strict_eq a a = true.
Proof.
  destruct a; simpl; intros H; try reflexivity.
  - apply Bool.eqb_reflx.
  - apply Z.eqb_refl.
  - now elim H.
  - apply String.eqb_refl.
  - apply Nat.eqb_refl.
Qed.

Lemma strict_eq_NaN a : strict_eq VNaN a = false /\ strict_eq a VNaN = false.
Proof. now destruct a. Qed.

Lemma strict_eq_iff a b : strict_eq a b = true <-> a = b /\ a <> VNaN.
Proof.
  split.
  - intros H. split; [now apply strict_eq_spec|].
    intros ->. now rewrite (proj1 (strict_eq_NaN b)) in H.
  - intros [-> H]. now apply strict_eq_refl.
Qed.

Lemma strict_eq_false a b : a <> b -> strict_eq a b = false.
Proof.
  intros H. destruct (strict_eq a b) eqn:E; auto.
  apply strict_eq_spec in E. contradiction.
Qed.



(** *** Ordinary names *)


Lemma ordinary_keys_In {V : Type} (o : Bag.t V) k :
  ordinary_keys o = true -> In k (Bag.keys o) -> reserved k = false.
Proof.
  unfold ordinary_keys. intros H Hin.
  apply (proj1 (forallb_forall _ _) H k) in Hin.
  now apply negb_true_iff in Hin.
Qed.

Lemma ordinary_keys_has {V : Type} (o : Bag.t V) k :
  ordinary_keys o = true -> reserved k = true -> Bag.has o k = false.
Proof.
  intros H Hr. destruct (Bag.has o k) eqn:E; auto.
  apply has_In_keys in E. rewrite (ordinary_keys_In o k H E) in Hr.
  discriminate.
Qed.

Lemma ordinary_input ctor data :
  ordinary ctor data = true -> ordinary_keys data = true.
Proof.
  unfold ordinary. intros H.
  apply andb_true_iff in H as [H _]. apply andb_true_iff in H as [H _].
  now apply andb_true_iff in H as [H _].
Qed.



Lemma ordinary_fresh_cache ctor data :
  ordinary ctor data = true ->
  truthy (prop data "__cachedRelations") = false.
Proof.
  intros H. unfold prop.
  rewrite (has_false_get _ _ (ordinary_keys_has
                                data "__cachedRelations"
                                (ordinary_input ctor data H) eq_refl)).
  reflexivity.
Qed.

Lemma kinds_kept_refl h : kinds_kept h h.
Proof. intros l k H. exact H. Qed.

Lemma kinds_kept_trans h1 h2 h3 :
  kinds_kept h1 h2 -> kinds_kept h2 h3 -> kinds_kept h1 h3.
Proof. intros H12 H23 l k H. auto. Qed.

Lemma kinds_kept_app h cells : kinds_kept h (h ++ cells).
Proof.
  intros l k. unfold kind_of.
  destruct (nth_error h l) as [c|] eqn:E; [|discriminate].
  rewrite nth_error_app1; [now rewrite E|].
  apply nth_error_Some. congruence.
Qed.

Lemma kind_of_update_cell h l k x l' :
  kind_of (update_cell h l (put_field k x)) l' = kind_of h l'.
Proof.
  unfold kind_of. revert l l'.
  induction h as [|c h IH]; intros [|l] [|l']; simpl; auto.
Qed.

Lemma kinds_kept_update h l k x :
  kinds_kept h (update_cell h l (put_field k x)).
Proof. intros l' k'. now rewrite kind_of_update_cell. Qed.

Lemma kind_of_lt h l k : kind_of h l = Some k -> l < length h.
Proof.
  unfold kind_of. intros H. apply nth_error_Some.
  destruct (nth_error h l); [discriminate | discriminate].
Qed.

Lemma kind_of_fresh h c : kind_of (h ++ [c]) (length h) = Some (kind c).
Proof.
  unfold kind_of. rewrite nth_error_app2 by lia.
  now rewrite Nat.sub_diag.
Qed.

Create HintDb store.
#[local] Hint Resolve kinds_kept_refl kinds_kept_app kinds_kept_update
  : store.

Lemma forEach_inv {S : Type} (body : string -> S -> result S)
      (I : S -> Prop) ks :
  (forall k s s', In k ks -> I s -> body k s = Ok s' -> I s') ->
  forall s s', I s -> forEach body ks s = Ok s' -> I s'.
Proof.
  induction ks as [|k ks IH]; simpl; intros Hstep s s' Hs Hrun.
  - inversion Hrun; subst; exact Hs.
  - destruct (body k s) as [s1|e] eqn:E; simpl in Hrun; [|discriminate].
    apply (IH (fun k0 a b Hin => Hstep k0 a b (or_intror Hin)) s1 s'); auto.
    eapply Hstep; eauto.
Qed.

(** A loop that runs under an invariant [J] establishes [I] at key [p],
    and keeps it afterwards. *)
Lemma forEach_establish {S : Type} (body : string -> S -> result S)
      (J I : S -> Prop) (p : string) ks :
  (forall s s', J s -> body p s = Ok s' -> I s') ->
  (forall k s s', k <> p -> J s -> body k s = Ok s' -> J s') ->
  (forall k s s', I s -> body k s = Ok s' -> I s') ->
  In p ks ->
  forall s s', J s -> forEach body ks s = Ok s' -> I s'.
Proof.
  intros Hp HJ Hkeep.
  induction ks as [|k ks IH]; simpl; intros Hin s s' Hs Hrun;
    [contradiction|].
  destruct (body k s) as [s1|e] eqn:E; simpl in Hrun; [|discriminate].
  destruct (String.eqb_spec k p) as [->|Hne].
  - apply (forEach_inv body I ks) with (s := s1); eauto.
  - destruct Hin as [->|Hin]; [contradiction|]. eauto.
Qed.

(* ================================================================== *)
(** ** What a step of the pipeline leaves alone                        *)
(* ================================================================== *)

Lemma untouched_refl p s : untouched p s s.
Proof. constructor; auto with store. Qed.

Lemma untouched_trans p s1 s2 s3 :
  untouched p s1 s2 -> untouched p s2 s3 -> untouched p s1 s3.
Proof.
  intros [A1 A2 A3 A4 A5 A6] [B1 B2 B3 B4 B5 B6].
  constructor; try congruence. eapply kinds_kept_trans; eauto.
Qed.

Lemma forEach_untouched p (body : string -> state -> result state) ks :
  (forall k s s', In k ks -> body k s = Ok s' -> untouched p s s') ->
  forall s s', forEach body ks s = Ok s' -> untouched p s s'.
Proof.
  intros Hstep s s' Hrun.
  apply (forEach_inv body (untouched p s) ks) with (s := s); auto.
  - intros k a b Hin Ha Hb. eapply untouched_trans; eauto.
  - apply untouched_refl.
Qed.

Section Frames.

Variable X : externals.
Variable ctor : model.

Lemma assign_untouched p name v s :
  name <> p -> untouched p s (assign X ctor name v s).
Proof.
  intros Hne. destruct s as [h self]. unfold assign.
  destruct (Bag.has (own self) name).
  - constructor; simpl; auto with store. now apply get_set_other.
  - destruct (Bag.has (properties ctor) name).
    + destruct (normalize X name v h) as [v' cells].
      constructor; simpl; auto with store. now apply get_set_other.
    + constructor; simpl; auto with store. now apply get_set_other.
Qed.

(** Assigning a name that has no accessor leaves the data store as it
    is. *)
Lemma assign_unregistered name v h self :
  Bag.has (properties ctor) name = false ->
  assign X ctor name v (h, self) = (h, set_own name v self).
Proof.
  intros Hno. unfold assign. rewrite Hno.
  now destruct (Bag.has (own self) name).
Qed.

Lemma partition_key_untouched p data strict i s s' :
  i <> p ->
  (forall r, Bag.get (relations ctor) i = Some r -> keyFrom r <> p) ->
  partition_key ctor data strict i s = Ok s' ->
  untouched p s s'.
Proof.
  intros Hne Hrel. destruct s as [h self]. unfold partition_key, clone.
  destruct (Bag.has (properties ctor) i && negb (is_function h (prop data i))).
  - intros E; inversion E; subst; clear E.
    constructor; simpl; auto with store; now apply get_set_other.
  - destruct (Bag.get (relations ctor) i) as [r|].
    + specialize (Hrel r eq_refl).
      destruct (js_get h (prop data i) (keyTo r)) as [v|e]; simpl;
        [|discriminate].
      destruct (__cachedRelations self) as [| | | | | |l] eqn:Ec; simpl;
        try discriminate;
        intros E; inversion E; subst; clear E;
        constructor; simpl; auto with store; now apply get_set_other.
    + destruct (strict_eq strict (VBool false)).
      * intros E; inversion E; subst; clear E.
        constructor; simpl; auto with store; now apply get_set_other.
      * destruct (strict_eq strict (VStr "throw")); [discriminate|].
        intros E; inversion E; subst. apply untouched_refl.
Qed.

Lemma apply_setter_untouched p data k s s' :
  k <> p -> apply_setter X ctor data k s = Ok s' -> untouched p s s'.
Proof.
  intros Hne. destruct s as [h self]. unfold apply_setter.
  destruct (_ && _); intros [= <-].
  - exact (assign_untouched p k _ (h, self) Hne).
  - apply untouched_refl.
Qed.

Lemma mirror_unknown_untouched p data k s s' :
  k <> p -> mirror_unknown X ctor data k s = Ok s' -> untouched p s s'.
Proof.
  intros Hne. destruct s as [h self]. unfold mirror_unknown.
  destruct (_ && _); intros [= <-].
  - exact (assign_untouched p k _ (h, self) Hne).
  - apply untouched_refl.
Qed.

Lemma fill_default_untouched p k s s' :
  k <> p -> fill_default X ctor k s = Ok s' -> untouched p s s'.
Proof.
  intros Hne. destruct s as [h self]. unfold fill_default.
  destruct (strict_eq VUndefined (prop (__data self) k)).
  - destruct (getDefault X ctor k h) as [d cells].
    intros E; inversion E; subst.
    constructor; simpl; auto with store; now apply get_set_other.
  - intros E; inversion E; subst.
    constructor; simpl; auto with store; now apply get_set_other.
Qed.

Lemma parse_structured_untouched p k s :
  k <> p -> untouched p s (parse_structured X k s).
Proof.
  intros Hne. destruct s as [h self]. unfold parse_structured.
  destruct (_ && _); [|apply untouched_refl].
  destruct (JSON_parse X _ h) as [[v' cells]|];
    constructor; simpl; auto with store; now apply get_set_other.
Qed.

Lemma wrap_list_untouched p ty k s :
  k <> p -> untouched p s (wrap_list ty k s).
Proof.
  intros Hne. destruct s as [h self]. unfold wrap_list, new_List, alloc.
  destruct (is_array_type ty); [|apply untouched_refl].
  destruct (negb _); [|apply untouched_refl].
  constructor; simpl; auto with store; now apply get_set_other.
Qed.

Lemma coerce_property_untouched p k s s' :
  k <> p -> coerce_property X ctor k s = Ok s' -> untouched p s s'.
Proof.
  intros Hne. unfold coerce_property.
  destruct (Bag.get (properties ctor) k) as [d|]; [|discriminate].
  destruct (type d) as [ty|]; [|discriminate].
  destruct (not_base_type ty); intros E; inversion E; subst.
  - eapply untouched_trans.
    + apply parse_structured_untouched; eauto.
    + apply wrap_list_untouched; eauto.
  - apply untouched_refl.
Qed.

End Frames.

(* ================================================================== *)
(** ** The phases of a successful initialisation                       *)
(* ================================================================== *)

Section Phases.

Variable X : externals.
Variable ctor : model.

Lemma bind_Ok {A B} (m : result A) (f : A -> result B) b :
  bind m f = Ok b -> exists a, m = Ok a /\ f a = Ok b.
Proof. destruct m as [a|e]; simpl; [eauto | discriminate]. Qed.

Lemma _initProperties_run h data opts s :
  _initProperties X ctor h data opts = Ok s ->
  init_run X ctor h data opts s.
Proof.
  unfold _initProperties. intros H.
  apply bind_Ok in H as (s4 & H4 & H).
  apply bind_Ok in H as (s5 & H5 & H).
  apply bind_Ok in H as (s6 & H6 & H).
  apply bind_Ok in H as (s7 & H7 & H).
  apply bind_Ok in H as (s8 & H8 & H).
  injection H as <-.
  now apply (InitRun X ctor h data opts _ s4 s5 s6 s7 s8).
Qed.

Lemma ModelBaseClass_run h data opts s :
  ModelBaseClass X ctor h data opts = Ok s ->
  exists opts',
    opt_strict opts' = opt_strict opts /\
    opt_applySetters opts' =
      Some (match opt_applySetters opts with
            | Some v => v | None => VBool true end) /\
    init_run X ctor h data opts' s.
Proof.
  unfold ModelBaseClass. intros H.
  destruct (opt_applySetters opts) as [v|] eqn:E.
  - exists opts. split; [reflexivity|]. split; [exact E|].
    now apply _initProperties_run.
  - eexists. split; [|split; [|apply _initProperties_run; exact H]];
      reflexivity.
Qed.

End Phases.

(* ================================================================== *)
(** ** The static type query                                           *)
(* ================================================================== *)

(** C9: the query does not return [null] for every name that is not
    part of the definition.  For a name that the registry inherits from
    [Object.prototype], here [constructor], line 206 finds the inherited
    member, line 207 takes it for a property, and line 212 throws the
    missing-type error; for another unregistered name the query returns
    [null]. *)
Theorem getPropertyType_inherited_name :
  Bag.has (properties Sample.User) "constructor" = false
  /\ getPropertyType Sample.User "constructor"
     = Throw (MissingTypeError Sample.User "constructor")
  /\ getPropertyType Sample.User "nothing" = Ok VNull.
Proof. vm_compute. repeat split. Qed.

(** X17. [getPropertyType(name)] returns the name of the declared type
    when the registry has a descriptor for [name] that declares one, and
    [null] when it has none and [name] is not a member inherited from
    [Object.prototype]; it throws, with the missing-type error and
    nothing else, exactly when the descriptor declares no type or
    [name] is such an inherited member without a descriptor. *)
Theorem getPropertyType_cases (ctor : model) (propName : string) :
  (Bag.get (properties ctor) propName = None ->
   inherited_member propName = false ->
   getPropertyType ctor propName = Ok VNull)
  /\ (forall d ty,
         Bag.get (properties ctor) propName = Some d ->
         type d = Some ty ->
         getPropertyType ctor propName = Ok (type_name ty))
  /\ (forall d n,
         Bag.get (properties ctor) propName = Some d ->
         type d = Some (TNamed n) ->
         getPropertyType ctor propName = Ok (VStr n))
  /\ ((exists e, getPropertyType ctor propName = Throw e)
      <-> ((exists d, Bag.get (properties ctor) propName = Some d
                      /\ type d = None)
           \/ (Bag.get (properties ctor) propName = None
               /\ inherited_member propName = true)))
  /\ (forall e, getPropertyType ctor propName = Throw e ->
                e = MissingTypeError ctor propName).
Proof.
  unfold getPropertyType, lookup, MissingTypeError.
  destruct (Bag.get (properties ctor) propName) as [d|] eqn:Eget.
  - destruct (type d) as [ty|] eqn:Ety.
    + split; [discriminate|]. split.
      { intros d' ty' [= <-] Hty. rewrite Ety in Hty.
        injection Hty as <-. reflexivity. }
      split.
      { intros d' n [= <-] Hty. rewrite Ety in Hty.
        injection Hty as ->. reflexivity. }
      split; [|discriminate].
      split.
      * intros [e He]. discriminate.
      * intros [(d' & [= <-] & Hnone)|[Hc _]]; congruence.
    + split; [discriminate|]. split.
      { intros d' ty' [= <-] Hty. congruence. }
      split.
      { intros d' n [= <-] Hty. congruence. }
      split.
      * split; [intros _; left; now exists d
               | intros _; eexists; reflexivity].
      * intros e [= <-]. reflexivity.
  - destruct (inherited_member propName) eqn:Einh.
    + split; [discriminate|]. split; [discriminate|].
      split; [discriminate|]. split.
      * split; [intros _; now right | intros _; eexists; reflexivity].
      * intros e [= <-]. reflexivity.
    + split; [reflexivity|]. split; [discriminate|].
      split; [discriminate|]. split; [|discriminate].
      split.
      * intros [e He]. discriminate.
      * intros [(d & Hd & _)|[_ Hc]]; discriminate.
Qed.

(* ================================================================== *)
(** ** The baseline and the change tracker                             *)
(* ================================================================== *)

Section Baseline.

Variable X : externals.
Variable ctor : model.

Lemma untouched_prop_data p s s' :
  untouched p s s' -> prop (__data (snd s')) p = prop (__data (snd s)) p.
Proof. intros U. unfold prop. now rewrite (ut_data _ _ _ U). Qed.

Lemma untouched_prop_was p s s' :
  untouched p s s' ->
  prop (__dataWas (snd s')) p = prop (__dataWas (snd s)) p.
Proof. intros U. unfold prop. now rewrite (ut_was _ _ _ U). Qed.

Lemma untouched_in_sync p s s' :
  untouched p s s' -> in_sync p s -> in_sync p s'.
Proof.
  unfold in_sync. intros U H.
  now rewrite (untouched_prop_data _ _ _ U), (untouched_prop_was _ _ _ U).
Qed.

(** The first [forEachProperty] loop brings a name in sync. *)
Lemma fill_default_in_sync p s s' :
  fill_default X ctor p s = Ok s' -> in_sync p s'.
Proof.
  destruct s as [h self]. unfold fill_default, in_sync.
  destruct (strict_eq VUndefined (prop (__data self) p)).
  - destruct (getDefault X ctor p h) as [d cells].
    intros [= <-]. simpl. now rewrite !prop_set_same.
  - intros [= <-]. simpl. now rewrite prop_set_same.
Qed.

Lemma defaults_in_sync p s s' :
  In p (Bag.keys (properties ctor)) ->
  forEachProperty ctor (fill_default X ctor) s = Ok s' ->
  in_sync p s'.
Proof.
  intros Hin. unfold forEachProperty.
  intros Hrun.
  apply (forEach_establish (fill_default X ctor) (fun _ => True)
                           (in_sync p) p (Bag.keys (properties ctor)))
    with (s := s); auto.
  - intros a b _. apply fill_default_in_sync.
  - intros k a b Ha Hb. destruct (String.eqb_spec k p) as [->|Hne].
    + eapply fill_default_in_sync; eauto.
    + eapply untouched_in_sync; eauto.
      eapply fill_default_untouched; eauto.
Qed.

(** The coercion pass does not look at a property of a base type. *)
Lemma coerce_keeps_base p d ty s s' :
  Bag.get (properties ctor) p = Some d ->
  type d = Some ty ->
  not_base_type ty = false ->
  forEachProperty ctor (coerce_property X ctor) s = Ok s' ->
  untouched p s s'.
Proof.
  intros Hd Hty Hbase. unfold forEachProperty.
  apply forEach_untouched.
  intros k a b _ Hk. destruct (String.eqb_spec k p) as [->|Hne].
  - unfold coerce_property in Hk. rewrite Hd, Hty, Hbase in Hk.
    injection Hk as <-. apply untouched_refl.
  - eapply coerce_property_untouched; eauto.
Qed.

Lemma init_run_in_sync h data opts s p d ty :
  init_run X ctor h data opts s ->
  Bag.get (properties ctor) p = Some d ->
  type d = Some ty ->
  not_base_type ty = false ->
  in_sync p s.
Proof.
  intros [s4 s5 s6 s7 s8 H4 H5 H6 H7 H8 ->] Hd Hty Hbase.
  assert (Hin : In p (Bag.keys (properties ctor))).
  { apply has_In_keys. eapply get_Some_has; eauto. }
  pose proof (defaults_in_sync p _ _ Hin H7) as Hsync.
  pose proof (coerce_keeps_base p d ty _ _ Hd Hty Hbase H8) as U.
  apply (untouched_in_sync _ _ _ U) in Hsync.
  exact Hsync.
Qed.

End Baseline.

(** C7, as stated, fails right after construction.  A text supplied for
    a property of a structured type is parsed by the coercion pass
    after the baseline was taken (here with the setters off), and a
    [NaN] supplied for a number is not [===] to itself: in both cases
    [propertyChanged] is true at once. *)
Lemma changed_right_after_construction :
  match ModelBaseClass SampleStructured.parsing SampleStructured.Page []
                       [("meta", VStr "7")] SamplePerson.without_setters
  with
  | Ok (_, self) =>
      prop (__dataWas self) "meta" = VStr "7"
      /\ prop (__data self) "meta" = VNum 7
      /\ propertyChanged self "meta" = true
  | Throw _ => False
  end
  /\ match ModelBaseClass Sample.inert Sample.User [] [("age", VNaN)]
                          no_options with
     | Ok (_, self) =>
         prop (__dataWas self) "age" = VNaN
         /\ prop (__data self) "age" = VNaN
         /\ propertyChanged self "age" = true
     | Throw _ => False
     end.
Proof. vm_compute. repeat split. Qed.

Lemma strict_eq_false_iff a b :
  strict_eq a b = false <-> a <> b \/ a = VNaN.
Proof.
  split.
  - intros H.
    assert (D : a = VNaN \/ a <> VNaN)
      by (destruct a; (now left) || (right; discriminate)).
    destruct D as [D|D]; [now right|left].
    intros <-. rewrite strict_eq_refl in H; [discriminate|exact D].
  - intros [H| ->]; [now apply strict_eq_false|apply strict_eq_NaN].
Qed.

(** C7, amended. For a name that the stores do not inherit from
    [Object.prototype], [propertyChanged(name)] is true exactly when
    [data[name] !== dataWas[name]]: the two are not the same value (the
    same reference, for an object), or they are [NaN].  Hence, for a
    class and an input with ordinary names and a registered property
    [p] of a declared base type: right after construction
    [propertyChanged(p)] is false unless the stored value is [NaN]; it
    is true once [data[p]] is assigned a different value; and it is not
    changed by a change in place of the object that [data[p]] refers
    to. *)
Theorem propertyChanged_shallow
        (X : externals) (ctor : model) (h : heap) (data : Bag.t value)
        (opts : options) (h' : heap) (self : instance)
        (p : string) (d : descriptor) (ty : type_tag) :
  ModelBaseClass X ctor h data opts = Ok (h', self) ->
  ordinary ctor data = true ->
  Bag.get (properties ctor) p = Some d ->
  type d = Some ty ->
  not_base_type ty = false ->
  (forall o name,
      inherited_member name = false ->
      (propertyChanged o name = true
       <-> (prop (__data o) name <> prop (__dataWas o) name
            \/ prop (__data o) name = VNaN)))
  /\ (propertyChanged self p = true <-> prop (__data self) p = VNaN)
  /\ (forall v, v <> prop (__data self) p ->
                propertyChanged (set_data p v self) p = true)
  /\ (forall k x s', mutate_in_place p k x (h', self) = Ok s' ->
                     propertyChanged (snd s') p = propertyChanged self p).
Proof.
  intros Hnew _ Hd Hty Hbase.
  apply ModelBaseClass_run in Hnew as (opts' & _ & _ & Hrun).
  pose proof (init_run_in_sync X ctor _ _ _ _ p d ty Hrun Hd Hty Hbase)
    as Hsync.
  unfold in_sync in Hsync. simpl in Hsync.
  assert (Hiff : forall o name,
             propertyChanged o name = true
             <-> (prop (__data o) name <> prop (__dataWas o) name
                  \/ prop (__data o) name = VNaN)).
  { intros o name. unfold propertyChanged.
    rewrite negb_true_iff. apply strict_eq_false_iff. }
  split; [intros o name _; apply Hiff|]. split; [|split].
  - rewrite Hiff, <- Hsync. split; [intros [Hc|Hc]|]; auto.
    now elim Hc.
  - intros v Hv. apply Hiff. left. simpl. rewrite prop_set_same.
    congruence.
  - intros k x s'. unfold mutate_in_place. simpl.
    destruct (js_put h' (prop (__data self) p) k x) as [h2|e]; simpl;
      [|discriminate].
    now intros [= <-].
Qed.

Lemma propertyChanged_shallow_witness :
  match ModelBaseClass Sample.inert Sample.User []
                       [("name", VStr "Joe")] no_options with
  | Ok (h', self) =>
      (propertyChanged self "name" = true
       <-> prop (__data self) "name" = VNaN)
      /\ propertyChanged (set_data "name" (VStr "Jim") self) "name" = true
  | Throw _ => False
  end.
Proof.
  destruct (ModelBaseClass Sample.inert Sample.User []
                           [("name", VStr "Joe")] no_options)
    as [[h' self]|e] eqn:E; [|vm_compute in E; discriminate].
  destruct (propertyChanged_shallow
              Sample.inert Sample.User [] [("name", VStr "Joe")]
              no_options h' self "name"
              (mkDescriptor (Some (TNamed "String")) VUndefined)
              (TNamed "String") E)
    as (_ & Hnow & Hset & _); try (vm_compute; reflexivity).
  split; [exact Hnow|].
  apply Hset. intros Heq.
  assert (Hrun := E). vm_compute in Hrun. injection Hrun as _ <-.
  vm_compute in Heq. discriminate.
Defined.

Lemma getPropertyType_cases_witness :
  getPropertyType Sample.User "name" = Ok (VStr "String")
  /\ getPropertyType Sample.User "nothing" = Ok VNull.
Proof.
  split.
  - apply (proj1 (proj2 (proj2 (getPropertyType_cases Sample.User "name")))
             (mkDescriptor (Some (TNamed "String")) VUndefined));
      vm_compute; reflexivity.
  - apply (proj1 (getPropertyType_cases Sample.User "nothing"));
      vm_compute; reflexivity.
Defined.

(* ================================================================== *)
(** ** Array-typed properties                                          *)
(* ================================================================== *)

Lemma is_array_not_base ty : is_array_type ty = true -> not_base_type ty = true.
Proof.
  destruct ty as [n|elems]; [|reflexivity].
  unfold is_array_type. simpl. rewrite orb_false_r.
  intros H. apply String.eqb_eq in H. now subst n.
Qed.

Section Lists.

Variable X : externals.
Variable ctor : model.

Lemma instanceof_List_kept h h' v :
  kinds_kept h h' -> instanceof_List h v = true ->
  instanceof_List h' v = true.
Proof.
  intros K. destruct v; simpl; auto.
  destruct (kind_of h l) as [k|] eqn:E; [|discriminate].
  destruct k; try discriminate. now rewrite (K _ _ E).
Qed.

Lemma untouched_holds_List p s s' :
  untouched p s s' -> holds_List p s -> holds_List p s'.
Proof.
  intros U H. unfold holds_List.
  rewrite (untouched_prop_data _ _ _ U).
  eapply instanceof_List_kept; eauto. apply (ut_heap _ _ _ U).
Qed.

Lemma wrap_list_holds ty p s :
  is_array_type ty = true -> holds_List p (wrap_list ty p s).
Proof.
  intros Harr. destruct s as [h self]. unfold wrap_list, holds_List.
  rewrite Harr.
  destruct (instanceof_List h (prop (__data self) p)) eqn:E; simpl.
  - exact E.
  - rewrite prop_set_same. simpl. now rewrite kind_of_fresh.
Qed.

Lemma coerce_property_holds p d ty s s' :
  Bag.get (properties ctor) p = Some d ->
  type d = Some ty ->
  is_array_type ty = true ->
  coerce_property X ctor p s = Ok s' ->
  holds_List p s'.
Proof.
  intros Hd Hty Harr. unfold coerce_property.
  rewrite Hd, Hty, (is_array_not_base _ Harr).
  intros [= <-]. now apply wrap_list_holds.
Qed.

Lemma coerce_pass_holds p d ty s s' :
  Bag.get (properties ctor) p = Some d ->
  type d = Some ty ->
  is_array_type ty = true ->
  forEachProperty ctor (coerce_property X ctor) s = Ok s' ->
  holds_List p s'.
Proof.
  intros Hd Hty Harr. unfold forEachProperty. intros Hrun.
  apply (forEach_establish (coerce_property X ctor) (fun _ => True)
                           (holds_List p) p (Bag.keys (properties ctor)))
    with (s := s); auto.
  - intros a b _. now apply (coerce_property_holds p d ty).
  - intros k a b Ha Hb. destruct (String.eqb_spec k p) as [->|Hne].
    + now apply (coerce_property_holds p d ty a b).
    + eapply untouched_holds_List; eauto.
      eapply coerce_property_untouched; eauto.
  - apply has_In_keys. eapply get_Some_has; eauto.
Qed.

End Lists.

(** X18. For a class and an input with ordinary names, and every
    registered property [p] of an array type: once the construction has
    completed [data[p]] is a list container, whatever the input held
    under [p] (nothing, a plain array or a container). *)
Theorem array_property_holds_List
        (X : externals) (ctor : model) (h : heap) (data : Bag.t value)
        (opts : options) (h' : heap) (self : instance)
        (p : string) (d : descriptor) (ty : type_tag) :
  ModelBaseClass X ctor h data opts = Ok (h', self) ->
  ordinary ctor data = true ->
  Bag.get (properties ctor) p = Some d ->
  type d = Some ty ->
  is_array_type ty = true ->
  instanceof_List h' (prop (__data self) p) = true.
Proof.
  intros Hnew _ Hd Hty Harr.
  apply ModelBaseClass_run in Hnew as (opts' & _ & _ & Hrun).
  destruct Hrun as [s4 s5 s6 s7 s8 H4 H5 H6 H7 H8 Hfin].
  injection Hfin as -> ->.
  exact (coerce_pass_holds X ctor p d ty _ _ Hd Hty Harr H8).
Qed.

(** On the sample model, with no value, a plain array and a list
    container under [tags]. *)
Lemma array_property_holds_List_witness :
  match ModelBaseClass Sample.inert Sample.User SampleList.two_cells
                       [] no_options with
  | Ok (h', self) => instanceof_List h' (prop (__data self) "tags") = true
  | Throw _ => False
  end
  /\ match ModelBaseClass Sample.inert Sample.User SampleList.two_cells
                          [("tags", VRef 0)] no_options with
     | Ok (h', self) => instanceof_List h' (prop (__data self) "tags") = true
     | Throw _ => False
     end
  /\ match ModelBaseClass Sample.inert Sample.User SampleList.two_cells
                          [("tags", VRef 1)] no_options with
     | Ok (h', self) => instanceof_List h' (prop (__data self) "tags") = true
     | Throw _ => False
     end.
Proof.
  split; [|split].
  - destruct (ModelBaseClass Sample.inert Sample.User SampleList.two_cells
                             [] no_options)
      as [[h' self]|e] eqn:E; [|vm_compute in E; discriminate].
    apply (array_property_holds_List
             Sample.inert Sample.User SampleList.two_cells [] no_options
             h' self "tags"
             (mkDescriptor (Some (TArrayLit ["String"])) VUndefined)
             (TArrayLit ["String"]) E); vm_compute; reflexivity.
  - destruct (ModelBaseClass Sample.inert Sample.User SampleList.two_cells
                             [("tags", VRef 0)] no_options)
      as [[h' self]|e] eqn:E; [|vm_compute in E; discriminate].
    apply (array_property_holds_List
             Sample.inert Sample.User SampleList.two_cells
             [("tags", VRef 0)] no_options h' self "tags"
             (mkDescriptor (Some (TArrayLit ["String"])) VUndefined)
             (TArrayLit ["String"]) E); vm_compute; reflexivity.
  - destruct (ModelBaseClass Sample.inert Sample.User SampleList.two_cells
                             [("tags", VRef 1)] no_options)
      as [[h' self]|e] eqn:E; [|vm_compute in E; discriminate].
    apply (array_property_holds_List
             Sample.inert Sample.User SampleList.two_cells
             [("tags", VRef 1)] no_options h' self "tags"
             (mkDescriptor (Some (TArrayLit ["String"])) VUndefined)
             (TArrayLit ["String"]) E); vm_compute; reflexivity.
Defined.

(* ================================================================== *)
(** ** Every step keeps the objects of the store                       *)
(* ================================================================== *)

Section Store.

Variable X : externals.
Variable ctor : model.

Lemma assign_kinds name v s :
  kinds_kept (fst s) (fst (assign X ctor name v s)).
Proof.
  destruct s as [h self]. unfold assign.
  destruct (Bag.has (own self) name); simpl; auto with store.
  destruct (Bag.has (properties ctor) name); simpl; auto with store.
  destruct (normalize X name v h) as [v' cells]. simpl. auto with store.
Qed.

Lemma partition_key_kinds data strict i s s' :
  partition_key ctor data strict i s = Ok s' ->
  kinds_kept (fst s) (fst s') /\ own (snd s') = own (snd s).
Proof.
  destruct s as [h self]. unfold partition_key, clone.
  destruct (Bag.has (properties ctor) i && negb (is_function h (prop data i))).
  - intros [= <-]. simpl. auto with store.
  - destruct (Bag.get (relations ctor) i) as [r|].
    + destruct (js_get h (prop data i) (keyTo r)) as [v|e]; simpl;
        [|discriminate].
      destruct (__cachedRelations self) as [| | | | | |l]; simpl;
        try discriminate; intros [= <-]; simpl; auto with store.
    + destruct (strict_eq strict (VBool false)).
      * intros [= <-]. simpl. auto with store.
      * destruct (strict_eq strict (VStr "throw")); [discriminate|].
        intros [= <-]. simpl. auto with store.
Qed.

Lemma apply_setter_kinds data k s s' :
  apply_setter X ctor data k s = Ok s' -> kinds_kept (fst s) (fst s').
Proof.
  destruct s as [h self]. unfold apply_setter.
  destruct (_ && _); intros [= <-]; auto with store.
  exact (assign_kinds k _ (h, self)).
Qed.

Lemma mirror_unknown_kinds data k s s' :
  mirror_unknown X ctor data k s = Ok s' -> kinds_kept (fst s) (fst s').
Proof.
  destruct s as [h self]. unfold mirror_unknown.
  destruct (_ && _); intros [= <-]; auto with store.
  exact (assign_kinds k _ (h, self)).
Qed.

Lemma fill_default_kinds k s s' :
  fill_default X ctor k s = Ok s' ->
  kinds_kept (fst s) (fst s') /\ own (snd s') = own (snd s).
Proof.
  destruct s as [h self]. unfold fill_default.
  destruct (strict_eq VUndefined (prop (__data self) k)).
  - destruct (getDefault X ctor k h) as [d cells].
    intros [= <-]. simpl. auto with store.
  - intros [= <-]. simpl. auto with store.
Qed.

Lemma parse_structured_kinds k s :
  kinds_kept (fst s) (fst (parse_structured X k s))
  /\ own (snd (parse_structured X k s)) = own (snd s)
  /\ __dataWas (snd (parse_structured X k s)) = __dataWas (snd s).
Proof.
  destruct s as [h self]. unfold parse_structured.
  destruct (_ && _); [|simpl; auto with store].
  destruct (JSON_parse X _ h) as [[v' cells]|]; simpl; auto with store.
Qed.

Lemma wrap_list_kinds ty k s :
  kinds_kept (fst s) (fst (wrap_list ty k s))
  /\ own (snd (wrap_list ty k s)) = own (snd s)
  /\ __dataWas (snd (wrap_list ty k s)) = __dataWas (snd s).
Proof.
  destruct s as [h self]. unfold wrap_list, new_List, alloc.
  destruct (is_array_type ty); [|simpl; auto with store].
  destruct (negb _); simpl; auto with store.
Qed.

Lemma coerce_property_kinds k s s' :
  coerce_property X ctor k s = Ok s' ->
  kinds_kept (fst s) (fst s')
  /\ own (snd s') = own (snd s)
  /\ __dataWas (snd s') = __dataWas (snd s).
Proof.
  unfold coerce_property.
  destruct (Bag.get (properties ctor) k) as [d|]; [|discriminate].
  destruct (type d) as [ty|]; [|discriminate].
  destruct (not_base_type ty); intros [= <-]; [|auto with store].
  destruct (parse_structured_kinds k s) as (A1 & A2 & A3).
  destruct (wrap_list_kinds ty k (parse_structured X k s)) as (B1 & B2 & B3).
  repeat split; try congruence. eapply kinds_kept_trans; eauto.
Qed.

Lemma define_stores_spec h data opts :
  kinds_kept h (fst (define_stores ctor h data opts))
  /\ __data (snd (define_stores ctor h data opts)) = []
  /\ __dataWas (snd (define_stores ctor h data opts)) = []
  /\ own (snd (define_stores ctor h data opts)) = []
  /\ __strict (snd (define_stores ctor h data opts))
     = resolve_strict ctor opts.
Proof.
  unfold define_stores, alloc.
  destruct (truthy (prop data "__cachedRelations")); simpl;
    repeat split; auto with store.
Qed.

End Store.

(* ================================================================== *)
(** ** A plain array under an array-typed property                     *)
(* ================================================================== *)

Lemma instanceof_List_object h v :
  instanceof_List h v = true -> typeof h v = "object".
Proof.
  destruct v; simpl; try discriminate.
  destruct (kind_of h l) as [[| | |t]|]; try discriminate. reflexivity.
Qed.

Section PlainArray.

Variable X : externals.
Variable ctor : model.
Variable h : heap.
Variable data : Bag.t value.
Variables (p : string) (l : loc) (d : descriptor) (ty : type_tag).

Hypothesis Hd : Bag.get (properties ctor) p = Some d.
Hypothesis Hty : type d = Some ty.
Hypothesis Harr : is_array_type ty = true.
Hypothesis Hraw : Bag.get data p = Some (VRef l).
Hypothesis Hkind : kind_of h l = Some KArray.
Hypothesis Hrel :
  forall k r, Bag.get (relations ctor) k = Some r -> keyFrom r <> p.

Lemma array_registered : Bag.has (properties ctor) p = true.
Proof. eapply get_Some_has; eauto. Qed.

Lemma raw_not_function hx :
  kinds_kept h hx -> is_function hx (VRef l) = false.
Proof.
  intros K. unfold is_function. simpl. now rewrite (K _ _ Hkind).
Qed.

Lemma untouched_raw_stored s s' :
  untouched p s s' -> raw_stored h p l s -> raw_stored h p l s'.
Proof.
  intros U [K E]. split.
  - eapply kinds_kept_trans; eauto. apply (ut_heap _ _ _ U).
  - now rewrite (ut_data _ _ _ U).
Qed.

Lemma untouched_raw_in_data s s' :
  untouched p s s' -> raw_in_data h p l s -> raw_in_data h p l s'.
Proof.
  intros U [R O]. split.
  - eapply untouched_raw_stored; eauto.
  - now rewrite (ut_own _ _ _ U).
Qed.

Lemma partition_at_p strict s s' :
  kinds_kept h (fst s) -> Bag.get (own (snd s)) p = None ->
  partition_key ctor data strict p s = Ok s' -> raw_in_data h p l s'.
Proof.
  destruct s as [hx self]. simpl. intros K O. unfold partition_key, clone.
  assert (Hv : prop data p = VRef l) by (unfold prop; now rewrite Hraw).
  rewrite array_registered, Hv, (raw_not_function hx K). simpl.
  intros [= <-]. repeat split; simpl; auto.
  apply get_set_same.
Qed.

Lemma partition_pass strict s s' :
  kinds_kept h (fst s) -> Bag.get (own (snd s)) p = None ->
  forEach (partition_key ctor data strict) (Bag.keys data) s = Ok s' ->
  raw_in_data h p l s'.
Proof.
  intros K O Hrun.
  apply (forEach_establish
           (partition_key ctor data strict)
           (fun s => kinds_kept h (fst s) /\ Bag.get (own (snd s)) p = None)
           (raw_in_data h p l) p (Bag.keys data)) with (s := s); auto.
  - intros a b [Ka Oa]. now apply partition_at_p.
  - intros k a b _ [Ka Oa] Hb.
    apply partition_key_kinds in Hb as [Kb Ob]. split.
    + eapply kinds_kept_trans; eauto.
    + now rewrite Ob.
  - intros k a b [[Ka Da] Oa] Hb.
    destruct (String.eqb_spec k p) as [->|Hne].
    + eapply partition_at_p; eauto.
    + eapply untouched_raw_in_data; [|split; [split|]; eauto].
      eapply partition_key_untouched; eauto.
  - apply has_In_keys. eapply get_Some_has; eauto.
Qed.

Lemma setter_pass s s' :
  (forall hx, fst (normalize X p (VRef l) hx) = VRef l) ->
  raw_in_data h p l s ->
  forEach (apply_setter X ctor data) (Bag.keys data) s = Ok s' ->
  raw_in_data h p l s'.
Proof.
  intros Hnorm. apply forEach_inv.
  intros k a b _ Ha Hb. destruct (String.eqb_spec k p) as [->|Hne].
  - destruct a as [hx self]. destruct Ha as [[K D] O]. simpl in *.
    unfold apply_setter in Hb.
    destruct (_ && _); injection Hb as <-; [|repeat split; auto].
    assert (Hv : prop (__data self) p = VRef l)
      by (unfold prop; now rewrite D).
    unfold assign. rewrite Hv.
    change (js_or (VRef l) (prop data p)) with (VRef l).
    unfold Bag.has at 1. rewrite O, array_registered.
    specialize (Hnorm hx).
    destruct (normalize X p (VRef l) hx) as [v' cells]. simpl in Hnorm.
    subst v'. repeat split; simpl; auto.
    + eapply kinds_kept_trans; eauto with store.
    + apply get_set_same.
  - eapply untouched_raw_in_data; eauto.
    eapply apply_setter_untouched; eauto.
Qed.

Lemma mirror_pass s s' :
  raw_in_data h p l s ->
  forEach (mirror_unknown X ctor data) (Bag.keys data) s = Ok s' ->
  raw_in_data h p l s'.
Proof.
  apply forEach_inv.
  intros k a b _ Ha Hb. destruct (String.eqb_spec k p) as [->|Hne].
  - destruct a as [hx self]. unfold mirror_unknown in Hb.
    rewrite array_registered, andb_false_r in Hb. now injection Hb as <-.
  - eapply untouched_raw_in_data; eauto.
    eapply mirror_unknown_untouched; eauto.
Qed.

Lemma defaults_pass s s' :
  raw_stored h p l s ->
  forEachProperty ctor (fill_default X ctor) s = Ok s' ->
  baselined h p l s'.
Proof.
  intros Hs Hrun. unfold forEachProperty in Hrun.
  assert (Hat : forall a b, raw_stored h p l a ->
                            fill_default X ctor p a = Ok b ->
                            baselined h p l b).
  { intros [hx self] b [K D]. simpl in *. unfold fill_default.
    assert (Hv : prop (__data self) p = VRef l)
      by (unfold prop; now rewrite D).
    rewrite Hv. simpl. intros [= <-].
    repeat split; simpl; auto. apply prop_set_same. }
  apply (forEach_establish (fill_default X ctor)
                           (raw_stored h p l) (baselined h p l) p
                           (Bag.keys (properties ctor))) with (s := s);
    auto.
  - intros k a b Hne Ha Hb. eapply untouched_raw_stored; eauto.
    eapply fill_default_untouched; eauto.
  - intros k a b [Ra Wa] Hb. destruct (String.eqb_spec k p) as [->|Hne].
    + eapply Hat; eauto.
    + pose proof (fill_default_untouched X ctor p k a b Hne Hb) as U.
      split; [eapply untouched_raw_stored; eauto|].
      now rewrite (untouched_prop_was _ _ _ U).
  - apply has_In_keys, array_registered.
Qed.

Lemma coerce_at_raw s s' :
  baselined h p l s -> coerce_property X ctor p s = Ok s' -> wrapped p l s'.
Proof.
  destruct s as [hx self]. intros [[K D] W]. simpl in *.
  unfold coerce_property. rewrite Hd, Hty, (is_array_not_base _ Harr).
  assert (Hv : prop (__data self) p = VRef l)
    by (unfold prop; now rewrite D).
  assert (Hparse : parse_structured X p (hx, self) = (hx, self)).
  { unfold parse_structured. rewrite Hv. simpl.
    now rewrite (K _ _ Hkind). }
  rewrite Hparse. intros E.
  assert (s' = wrap_list ty p (hx, self)) by congruence. subst s'.
  clear E. split; [|split].
  - destruct (wrap_list_kinds ty p (hx, self)) as (_ & _ & E).
    now rewrite E.
  - now apply wrap_list_holds.
  - unfold wrap_list. rewrite Harr, Hv. simpl.
    rewrite (K _ _ Hkind). simpl. rewrite prop_set_same.
    intros [= E].
    pose proof (kind_of_lt hx l KArray (K _ _ Hkind)). lia.
Qed.

Lemma coerce_at_wrapped s s' :
  wrapped p l s -> coerce_property X ctor p s = Ok s' -> s' = s.
Proof.
  destruct s as [hx self]. intros (W & L & N). unfold holds_List in L.
  simpl in *. unfold coerce_property.
  rewrite Hd, Hty, (is_array_not_base _ Harr).
  assert (Hparse : parse_structured X p (hx, self) = (hx, self)).
  { unfold parse_structured.
    now rewrite (instanceof_List_object _ _ L). }
  rewrite Hparse. unfold wrap_list. rewrite Harr, L. simpl. congruence.
Qed.

Lemma coerce_pass s s' :
  baselined h p l s ->
  forEachProperty ctor (coerce_property X ctor) s = Ok s' ->
  wrapped p l s'.
Proof.
  intros Hs Hrun. unfold forEachProperty in Hrun.
  apply (forEach_establish (coerce_property X ctor)
                           (baselined h p l) (wrapped p l) p
                           (Bag.keys (properties ctor))) with (s := s);
    auto.
  - apply coerce_at_raw.
  - intros k a b Hne [Ra Wa] Hb.
    pose proof (coerce_property_untouched X ctor p k a b Hne Hb) as U.
    split; [eapply untouched_raw_stored; eauto|].
    now rewrite (untouched_prop_was _ _ _ U).
  - intros k a b Ha Hb. destruct (String.eqb_spec k p) as [->|Hne].
    + now rewrite (coerce_at_wrapped a b Ha Hb).
    + pose proof (coerce_property_untouched X ctor p k a b Hne Hb) as U.
      destruct Ha as (W & L & N). split; [|split].
      * now rewrite (untouched_prop_was _ _ _ U).
      * eapply untouched_holds_List; eauto.
      * now rewrite (untouched_prop_data _ _ _ U).
  - apply has_In_keys, array_registered.
Qed.

(** Up to the coercion: where the setter of [p], if it runs, stores the
    array as it is, the array is both the value and the baseline. *)
Lemma loops_baselined opts s4 s5 s6 s7 :
  (opt_applySetters opts <> Some (VBool true)
   \/ forall hx, fst (normalize X p (VRef l) hx) = VRef l) ->
  forEach (partition_key ctor data (resolve_strict ctor opts))
          (Bag.keys data) (define_stores ctor h data opts) = Ok s4 ->
  (if strict_eq (match opt_applySetters opts with
                 | Some v => v | None => VUndefined end) (VBool true)
   then forEach (apply_setter X ctor data) (Bag.keys data) s4
   else Ok s4) = Ok s5 ->
  (if strict_eq (resolve_strict ctor opts) (VBool false)
   then forEach (mirror_unknown X ctor data) (Bag.keys data) s5
   else Ok s5) = Ok s6 ->
  forEachProperty ctor (fill_default X ctor) s6 = Ok s7 ->
  baselined h p l s7.
Proof.
  intros Hset H4 H5 H6 H7.
  destruct (define_stores_spec ctor h data opts) as (K0 & _ & _ & O0 & _).
  assert (R4 : raw_in_data h p l s4).
  { eapply partition_pass; eauto. now rewrite O0. }
  assert (R5 : raw_in_data h p l s5).
  { destruct (strict_eq _ (VBool true)) eqn:E in H5.
    - destruct Hset as [Hoff|Hnorm].
      + apply strict_eq_spec in E.
        destruct (opt_applySetters opts); congruence.
      + eapply setter_pass; eauto.
    - now injection H5 as <-. }
  assert (R6 : raw_in_data h p l s6).
  { destruct (strict_eq _ (VBool false)) in H6.
    - eapply mirror_pass; eauto.
    - now injection H6 as <-. }
  destruct R6 as [R6 _].
  exact (defaults_pass _ _ R6 H7).
Qed.

(** The whole pipeline: where the setter of [p], if it runs, stores the
    array as it is, the baseline is the array and the current value is
    the container made from it. *)
Lemma init_run_wrapped opts s :
  (opt_applySetters opts <> Some (VBool true)
   \/ forall hx, fst (normalize X p (VRef l) hx) = VRef l) ->
  init_run X ctor h data opts s -> wrapped p l s.
Proof.
  intros Hset [s4 s5 s6 s7 s8 H4 H5 H6 H7 H8 ->].
  destruct (define_stores_spec ctor h data opts) as (K0 & _ & _ & O0 & _).
  assert (R4 : raw_in_data h p l s4).
  { eapply partition_pass; eauto. now rewrite O0. }
  assert (R5 : raw_in_data h p l s5).
  { destruct (strict_eq _ (VBool true)) eqn:E in H5.
    - destruct Hset as [Hoff|Hnorm].
      + apply strict_eq_spec in E.
        destruct (opt_applySetters opts); congruence.
      + eapply setter_pass; eauto.
    - now injection H5 as <-. }
  assert (R6 : raw_in_data h p l s6).
  { destruct (strict_eq _ (VBool false)) in H6.
    - eapply mirror_pass; eauto.
    - now injection H6 as <-. }
  destruct R6 as [R6 _].
  exact (coerce_pass _ _ (defaults_pass _ _ R6 H7) H8).
Qed.

End PlainArray.

(* ================================================================== *)
(** ** Defaults of the properties that the input does not supply       *)
(* ================================================================== *)

Section Defaults.

Variable X : externals.
Variable ctor : model.
Variable h : heap.
Variable data : Bag.t value.
Variable p : string.

Hypothesis Hmissing : Bag.has data p = false.
Hypothesis Hrel :
  forall k r, In k (Bag.keys data) ->
              Bag.get (relations ctor) k = Some r -> keyFrom r <> p.









End Defaults.

Section GetDefault.

Variable X : externals.
Variable ctor : model.
Variables (p : string) (d : descriptor).
Hypothesis Hd : Bag.get (properties ctor) p = Some d.




End GetDefault.




(* ================================================================== *)
(** ** After the partition, the store only grows                       *)
(* ================================================================== *)

Lemma forEach_establish_in {S : Type} (body : string -> S -> result S)
      (J I : S -> Prop) (p : string) ks :
  (forall s s', J s -> body p s = Ok s' -> I s') ->
  (forall k s s', In k ks -> k <> p -> J s -> body k s = Ok s' -> J s') ->
  (forall k s s', In k ks -> I s -> body k s = Ok s' -> I s') ->
  In p ks ->
  forall s s', J s -> forEach body ks s = Ok s' -> I s'.
Proof.
  intros Hp. induction ks as [|k ks IH]; simpl;
    intros HJ Hkeep Hin s s' Hs Hrun; [contradiction|].
  destruct (body k s) as [s1|e] eqn:E; simpl in Hrun; [|discriminate].
  destruct (String.eqb_spec k p) as [->|Hne].
  - apply (forEach_inv body I ks) with (s := s1); eauto.
  - destruct Hin as [->|Hin]; [contradiction|].
    apply IH with (s := s1); eauto.
Qed.

Lemma grows_refl s : grows s s.
Proof. repeat split; auto. exists []. now rewrite app_nil_r. Qed.

Lemma grows_same h self self' :
  __cachedRelations self' = __cachedRelations self ->
  __strict self' = __strict self ->
  grows (h, self) (h, self').
Proof. intros. repeat split; auto. exists []. simpl. now rewrite app_nil_r. Qed.

Lemma grows_app h cells self self' :
  __cachedRelations self' = __cachedRelations self ->
  __strict self' = __strict self ->
  grows (h, self) (h ++ cells, self').
Proof. intros. repeat split; auto. now exists cells. Qed.

Lemma grows_trans s1 s2 s3 : grows s1 s2 -> grows s2 s3 -> grows s1 s3.
Proof.
  intros ([c1 E1] & C1 & S1) ([c2 E2] & C2 & S2).
  repeat split; [|congruence|congruence].
  exists (c1 ++ c2). now rewrite E2, E1, app_assoc.
Qed.

Lemma grows_nth_error s s' l c :
  grows s s' -> nth_error (fst s) l = Some c ->
  nth_error (fst s') l = Some c.
Proof.
  intros ([cells E] & _) H. rewrite E, nth_error_app1; auto.
  apply nth_error_Some. congruence.
Qed.

Lemma forEach_grows (body : string -> state -> result state) ks :
  (forall k s s', In k ks -> body k s = Ok s' -> grows s s') ->
  forall s s', forEach body ks s = Ok s' -> grows s s'.
Proof.
  intros Hstep s s' Hrun.
  apply (forEach_inv body (grows s) ks) with (s := s); auto.
  - intros k a b Hin Ha Hb. eapply grows_trans; eauto.
  - apply grows_refl.
Qed.

Section Growth.

Variable X : externals.
Variable ctor : model.

Lemma assign_grows name v s :
  grows s (assign X ctor name v s)
  /\ __dataWas (snd (assign X ctor name v s)) = __dataWas (snd s).
Proof.
  destruct s as [h self]. unfold assign.
  destruct (Bag.has (own self) name);
    [split; [now apply grows_same|auto]|].
  destruct (Bag.has (properties ctor) name);
    [|split; [now apply grows_same|auto]].
  destruct (normalize X name v h) as [v' cells].
  split; [now apply grows_app|auto].
Qed.

Lemma apply_setter_grows data k s s' :
  apply_setter X ctor data k s = Ok s' ->
  grows s s' /\ __dataWas (snd s') = __dataWas (snd s).
Proof.
  destruct s as [h self]. unfold apply_setter.
  destruct (_ && _); intros [= <-].
  - exact (assign_grows k _ (h, self)).
  - split; [apply grows_refl|reflexivity].
Qed.

Lemma mirror_unknown_grows data k s s' :
  mirror_unknown X ctor data k s = Ok s' ->
  grows s s' /\ __dataWas (snd s') = __dataWas (snd s).
Proof.
  destruct s as [h self]. unfold mirror_unknown.
  destruct (_ && _); intros [= <-].
  - exact (assign_grows k _ (h, self)).
  - split; [apply grows_refl|reflexivity].
Qed.

Lemma fill_default_grows k s s' :
  fill_default X ctor k s = Ok s' -> grows s s'.
Proof.
  destruct s as [h self]. unfold fill_default.
  destruct (strict_eq VUndefined (prop (__data self) k)).
  - destruct (getDefault X ctor k h) as [d cells].
    intros [= <-]. now apply grows_app.
  - intros [= <-]. now apply grows_same.
Qed.

Lemma parse_structured_grows k s : grows s (parse_structured X k s).
Proof.
  destruct s as [h self]. unfold parse_structured.
  destruct (_ && _); [|apply grows_refl].
  destruct (JSON_parse X _ h) as [[v' cells]|].
  - now apply grows_app.
  - now apply grows_same.
Qed.

Lemma wrap_list_grows ty k s : grows s (wrap_list ty k s).
Proof.
  destruct s as [h self]. unfold wrap_list, new_List, alloc.
  destruct (is_array_type ty); [|apply grows_refl].
  destruct (negb _); [|apply grows_refl].
  now apply grows_app.
Qed.

Lemma coerce_property_grows k s s' :
  coerce_property X ctor k s = Ok s' -> grows s s'.
Proof.
  unfold coerce_property.
  destruct (Bag.get (properties ctor) k) as [d|]; [|discriminate].
  destruct (type d) as [ty|]; [|discriminate].
  destruct (not_base_type ty); intros E.
  - assert (s' = wrap_list ty k (parse_structured X k s)) by congruence.
    subst s'. eapply grows_trans.
    + apply parse_structured_grows.
    + apply wrap_list_grows.
  - assert (s' = s) by congruence. subst. apply grows_refl.
Qed.

Lemma partition_key_strict data strict i s s' :
  partition_key ctor data strict i s = Ok s' ->
  __strict (snd s') = __strict (snd s).
Proof.
  destruct s as [h self]. unfold partition_key, clone.
  destruct (Bag.has (properties ctor) i && negb (is_function h (prop data i))).
  - now intros [= <-].
  - destruct (Bag.get (relations ctor) i) as [r|].
    + destruct (js_get h (prop data i) (keyTo r)) as [v|e]; simpl;
        [|discriminate].
      destruct (__cachedRelations self); simpl; try discriminate;
        now intros [= <-].
    + destruct (strict_eq strict (VBool false)); [now intros [= <-]|].
      destruct (strict_eq strict (VStr "throw")); [discriminate|].
      now intros [= <-].
Qed.

(** The strict mode resolved at the start is the one of the instance
    that the construction returns. *)
Lemma init_run_strict h data opts s :
  init_run X ctor h data opts s ->
  __strict (snd s) = resolve_strict ctor opts.
Proof.
  intros [s4 s5 s6 s7 s8 H4 H5 H6 H7 H8 ->]. simpl.
  destruct (define_stores_spec ctor h data opts) as (_ & _ & _ & _ & S0).
  assert (S4 : __strict (snd s4) = resolve_strict ctor opts).
  { apply (forEach_inv
             _ (fun s => __strict (snd s) = resolve_strict ctor opts) _)
      with (s := define_stores ctor h data opts) (s' := s4) in H4; auto.
    intros i a b _ Ha Hb.
    now rewrite (partition_key_strict _ _ _ _ _ Hb). }
  assert (G5 : grows s4 s5).
  { destruct (strict_eq _ (VBool true)) in H5;
      [|injection H5 as <-; apply grows_refl].
    eapply forEach_grows; eauto.
    intros i a b _ Hb. now apply apply_setter_grows in Hb. }
  assert (G6 : grows s5 s6).
  { destruct (strict_eq _ (VBool false)) in H6;
      [|injection H6 as <-; apply grows_refl].
    eapply forEach_grows; eauto.
    intros i a b _ Hb. now apply mirror_unknown_grows in Hb. }
  assert (G7 : grows s6 s7).
  { eapply forEach_grows; eauto.
    intros i a b _ Hb. now apply fill_default_grows in Hb. }
  assert (G8 : grows s7 s8).
  { eapply forEach_grows; eauto.
    intros i a b _ Hb. now apply coerce_property_grows in Hb. }
  destruct G5 as (_ & _ & E5). destruct G6 as (_ & _ & E6).
  destruct G7 as (_ & _ & E7). destruct G8 as (_ & _ & E8).
  congruence.
Qed.

End Growth.

(* ================================================================== *)
(** ** The container made from a plain array                           *)
(* ================================================================== *)

Section Container.

Variable X : externals.
Variable ctor : model.
Variable h : heap.
Variable data : Bag.t value.
Variables (p : string) (l : loc) (d : descriptor) (ty : type_tag).

Hypothesis Hd : Bag.get (properties ctor) p = Some d.
Hypothesis Hty : type d = Some ty.
Hypothesis Harr : is_array_type ty = true.
Hypothesis Hraw : Bag.get data p = Some (VRef l).
Hypothesis Hkind : kind_of h l = Some KArray.
Hypothesis Hrel :
  forall k r, Bag.get (relations ctor) k = Some r -> keyFrom r <> p.

Lemma coerce_makes s s' :
  baselined h p l s -> coerce_property X ctor p s = Ok s' ->
  made_from h p l ty s'.
Proof.
  destruct s as [hx self]. intros [[K D] W]. simpl in *.
  unfold coerce_property.
  rewrite Hd, Hty, (is_array_not_base _ Harr).
  assert (Hv : prop (__data self) p = VRef l)
    by (unfold prop; now rewrite D).
  assert (Hparse : parse_structured X p (hx, self) = (hx, self)).
  { unfold parse_structured. rewrite Hv. simpl.
    now rewrite (K _ _ Hkind). }
  rewrite Hparse. intros E.
  assert (Es : s' = wrap_list ty p (hx, self)) by congruence. subst s'.
  clear E. unfold wrap_list. rewrite Harr, Hv.
  assert (Hl : instanceof_List hx (VRef l) = false)
    by (simpl; now rewrite (K _ _ Hkind)).
  rewrite Hl. cbn [negb]. unfold new_List, alloc.
  exists (length hx). cbn [fst snd set_data __data].
  rewrite prop_set_same. split; [reflexivity|]. split.
  - apply nth_error_None.
    destruct (Nat.le_gt_cases (length h) (length hx)) as [Hle|Hgt]; auto.
    exfalso.
    assert (Hsome : exists c, nth_error h (length hx) = Some c).
    { destruct (nth_error h (length hx)) as [c|] eqn:E; eauto.
      apply nth_error_None in E. lia. }
    destruct Hsome as [c Hc].
    assert (Hk : kind_of h (length hx) = Some (kind c))
      by (unfold kind_of; now rewrite Hc).
    apply K in Hk. apply kind_of_lt in Hk. lia.
  - rewrite nth_error_app2, Nat.sub_diag; [reflexivity|lia].
Qed.

Lemma coerce_made_again s s' :
  made_from h p l ty s -> coerce_property X ctor p s = Ok s' -> s' = s.
Proof.
  destruct s as [hx self]. intros (l' & D & _ & N). simpl in *.
  unfold coerce_property.
  rewrite Hd, Hty, (is_array_not_base _ Harr).
  assert (L : instanceof_List hx (prop (__data self) p) = true).
  { rewrite D. unfold instanceof_List, kind_of. now rewrite N. }
  assert (Hparse : parse_structured X p (hx, self) = (hx, self)).
  { unfold parse_structured.
    now rewrite (instanceof_List_object _ _ L). }
  rewrite Hparse. unfold wrap_list. rewrite Harr, L. simpl. congruence.
Qed.

Lemma coerce_pass_makes s s' :
  baselined h p l s ->
  forEachProperty ctor (coerce_property X ctor) s = Ok s' ->
  made_from h p l ty s'.
Proof.
  intros Hs Hrun. unfold forEachProperty in Hrun.
  apply (forEach_establish (coerce_property X ctor)
                           (baselined h p l) (made_from h p l ty) p
                           (Bag.keys (properties ctor))) with (s := s);
    auto.
  - apply coerce_makes.
  - intros k a b Hne [Ra Wa] Hb.
    pose proof (coerce_property_untouched X ctor p k a b Hne Hb) as U.
    split; [eapply (untouched_raw_stored h p l); eauto|].
    now rewrite (untouched_prop_was _ _ _ U).
  - intros k a b Ha Hb. destruct (String.eqb_spec k p) as [->|Hne].
    + now rewrite (coerce_made_again a b Ha Hb).
    + pose proof (coerce_property_untouched X ctor p k a b Hne Hb) as U.
      pose proof (coerce_property_grows X ctor k a b Hb) as G.
      destruct Ha as (l' & D & F & N). exists l'. split; [|split].
      * now rewrite (untouched_prop_data _ _ _ U).
      * exact F.
      * eapply grows_nth_error; eauto.
  - apply has_In_keys. eapply get_Some_has; eauto.
Qed.

Lemma init_run_made opts s :
  (opt_applySetters opts <> Some (VBool true)
   \/ forall hx, fst (normalize X p (VRef l) hx) = VRef l) ->
  init_run X ctor h data opts s -> made_from h p l ty s.
Proof.
  intros Hset [s4 s5 s6 s7 s8 H4 H5 H6 H7 H8 ->].
  assert (B7 : baselined h p l s7)
    by (eapply loops_baselined; eauto).
  exact (coerce_pass_makes _ _ B7 H8).
Qed.

End Container.

(** C10, as stated, fails: with the default options the setter runs
    before the baseline is taken; when it replaces the plain array by a
    container, the baseline is that container and [propertyChanged] is
    false. *)
Lemma plain_array_unchanged_when_setter_wraps :
  match ModelBaseClass SampleList.wrapping Sample.User SampleList.one_array
                       [("tags", VRef 0)] no_options with
  | Ok (h', self) =>
      instanceof_List SampleList.one_array (VRef 0) = false
      /\ kind_of SampleList.one_array 0 = Some KArray
      /\ propertyChanged self "tags" = false
  | Throw _ => False
  end.
Proof. vm_compute. repeat split. Qed.

(** C10, amended. The names of the class and of the input are ordinary.
    For every registered property [p] of an array type
    that the input supplies as a plain array, and that no relation uses
    as its foreign key: when the setters are not applied, or the setter
    of [p] stores the array as it is, then right after construction the
    baseline [dataWas[p]] is the plain array, [data[p]] is the container
    made from it (a new list container of the declared type whose items
    are that array), and [propertyChanged(p)] is true. *)
Theorem plain_array_changed_after_construction
        (X : externals) (ctor : model) (h : heap) (data : Bag.t value)
        (opts : options) (h' : heap) (self : instance)
        (p : string) (l : loc) (d : descriptor) (ty : type_tag) :
  ModelBaseClass X ctor h data opts = Ok (h', self) ->
  ordinary ctor data = true ->
  Bag.get (properties ctor) p = Some d ->
  type d = Some ty ->
  is_array_type ty = true ->
  Bag.get data p = Some (VRef l) ->
  kind_of h l = Some KArray ->
  (forall k r, Bag.get (relations ctor) k = Some r -> keyFrom r <> p) ->
  ((exists v, opt_applySetters opts = Some v /\ v <> VBool true)
   \/ (forall hx, fst (normalize X p (VRef l) hx) = VRef l)) ->
  propertyChanged self p = true
  /\ prop (__dataWas self) p = VRef l
  /\ instanceof_List h' (prop (__data self) p) = true
  /\ (exists l', prop (__data self) p = VRef l'
                 /\ nth_error h l' = None
                 /\ nth_error h' l'
                    = Some (mkCell (KList ty) [("items", VRef l)])).
Proof.
  intros Hnew _ Hd Hty Harr Hraw Hkind Hrel Hset.
  apply ModelBaseClass_run in Hnew as (opts' & _ & Happ & Hrun).
  assert (Hset' : opt_applySetters opts' <> Some (VBool true)
                  \/ forall hx, fst (normalize X p (VRef l) hx) = VRef l).
  { destruct Hset as [(v & Ev & Hv)|Hnorm]; [left|now right].
    rewrite Happ, Ev. congruence. }
  destruct (init_run_wrapped X ctor h data p l d ty Hd Hty Harr Hraw Hkind
                             Hrel opts' (h', self) Hset' Hrun)
    as (W & L & N).
  pose proof (init_run_made X ctor h data p l d ty Hd Hty Harr Hraw Hkind
                            Hrel opts' (h', self) Hset' Hrun) as M.
  simpl in W, N. unfold holds_List in L. simpl in L.
  split; [|split; [exact W|split; [exact L|exact M]]].
  unfold propertyChanged. rewrite W. apply negb_true_iff.
  now apply strict_eq_false.
Qed.

Lemma plain_array_changed_after_construction_witness :
  match ModelBaseClass Sample.inert Sample.User SampleList.one_array
                       [("tags", VRef 0)]
                       (mkOptions (Some (VBool false)) VUndefined VUndefined)
  with
  | Ok (h', self) => propertyChanged self "tags" = true
  | Throw _ => False
  end.
Proof.
  destruct (ModelBaseClass Sample.inert Sample.User SampleList.one_array
              [("tags", VRef 0)]
              (mkOptions (Some (VBool false)) VUndefined VUndefined))
    as [[h' self]|e] eqn:E; [|vm_compute in E; discriminate].
  apply (plain_array_changed_after_construction
           Sample.inert Sample.User SampleList.one_array
           [("tags", VRef 0)]
           (mkOptions (Some (VBool false)) VUndefined VUndefined)
           h' self "tags" 0
           (mkDescriptor (Some (TArrayLit ["String"])) VUndefined)
           (TArrayLit ["String"]) E); try (vm_compute; reflexivity).
  - intros k r. unfold Sample.User. cbn [relations Bag.get].
    destruct (String.eqb "owner" k); [|discriminate].
    intros [= <-]. cbn [keyFrom]. discriminate.
  - left. exists (VBool false). split; [reflexivity|discriminate].
Defined.


(* ================================================================== *)
(** ** Relation ingestion                                              *)
(* ================================================================== *)

Lemma nth_error_update_cell_same h l f c :
  nth_error h l = Some c -> nth_error (update_cell h l f) l = Some (f c).
Proof.
  revert l. induction h as [|c0 h IH]; intros [|l]; simpl;
    try discriminate; auto.
  now intros [= ->].
Qed.

Lemma nth_error_update_cell_other h l l' f :
  l <> l' -> nth_error (update_cell h l f) l' = nth_error h l'.
Proof.
  revert l l'. induction h as [|c0 h IH]; intros [|l] [|l'] Hne; simpl;
    auto; try contradiction.
Qed.

Lemma length_update_cell h l f : length (update_cell h l f) = length h.
Proof.
  revert l. induction h as [|c0 h IH]; intros [|l]; simpl; auto.
Qed.

Section Relation.

Variable X : externals.
Variable ctor : model.
Variable h : heap.
Variable data : Bag.t value.
Variables (k : string) (r : relation) (l : loc) (c : cell).

Hypothesis Hr : Bag.get (relations ctor) k = Some r.
Hypothesis Hunreg : Bag.has (properties ctor) k = false.
Hypothesis Hnested : Bag.get data k = Some (VRef l).
Hypothesis Hcell : nth_error h l = Some c.
Hypothesis Hfresh : truthy (prop data "__cachedRelations") = false.

Lemma nested_below : l < length h.
Proof. apply nth_error_Some. congruence. Qed.

Lemma define_stores_ready opts :
  cache_ready h l c (define_stores ctor h data opts).
Proof.
  unfold define_stores, alloc. rewrite Hfresh. repeat split; simpl.
  - rewrite nth_error_app1; auto. apply nested_below.
  - rewrite length_app. simpl. lia.
Qed.

Lemma partition_key_ready strict i s s' :
  cache_ready h l c s ->
  partition_key ctor data strict i s = Ok s' -> cache_ready h l c s'.
Proof.
  destruct s as [hx self]. intros (N & C & L). simpl in *.
  unfold partition_key, clone.
  destruct (Bag.has (properties ctor) i && negb (is_function hx (prop data i))).
  - intros [= <-]. repeat split; auto.
  - destruct (Bag.get (relations ctor) i) as [r'|].
    + destruct (js_get hx (prop data i) (keyTo r')) as [v|e]; simpl;
        [|discriminate].
      rewrite C. simpl. intros [= <-]. repeat split; simpl; auto.
      * rewrite nth_error_update_cell_other; auto.
        pose proof nested_below. lia.
      * now rewrite length_update_cell.
    + destruct (strict_eq strict (VBool false)).
      * intros [= <-]. repeat split; auto.
      * destruct (strict_eq strict (VStr "throw")); [discriminate|].
        intros [= <-]. repeat split; auto.
Qed.

Lemma partition_at_k strict s s' :
  cache_ready h l c s ->
  partition_key ctor data strict k s = Ok s' ->
  ingested h k r l c s'
  /\ prop (__data (snd s')) (keyFrom r) = prop (fields c) (keyTo r).
Proof.
  intros Hs Hrun. pose proof (partition_key_ready _ _ _ _ Hs Hrun) as Hs'.
  destruct s as [hx self]. destruct Hs as (N & C & L). simpl in *.
  unfold partition_key in Hrun. rewrite Hunreg, Hr in Hrun. simpl in Hrun.
  assert (Hv : prop data k = VRef l) by (unfold prop; now rewrite Hnested).
  rewrite Hv in Hrun. simpl in Hrun. rewrite N, C in Hrun.
  simpl in Hrun. injection Hrun as <-.
  split; [split; [exact Hs'|split]|]; simpl.
  - apply prop_set_same.
  - destruct (nth_error hx (length h)) as [cc|] eqn:E.
    + exists (put_field k (VRef l) cc). split.
      * now apply nth_error_update_cell_same.
      * simpl. apply prop_set_same.
    + apply nth_error_None in E. lia.
  - apply prop_set_same.
Qed.

Lemma partition_other_keeps i strict s s' :
  i <> k -> ingested h k r l c s ->
  partition_key ctor data strict i s = Ok s' -> ingested h k r l c s'.
Proof.
  intros Hne (Hs & W & cc & Ncc & Fcc) Hrun.
  pose proof (partition_key_ready _ _ _ _ Hs Hrun) as Hs'.
  split; [exact Hs'|].
  destruct s as [hx self]. destruct Hs as (N & C & L). simpl in *.
  unfold partition_key, clone in Hrun.
  destruct (Bag.has (properties ctor) i && negb (is_function hx (prop data i))).
  - injection Hrun as <-. simpl. split.
    + now rewrite prop_set_other.
    + exists cc. auto.
  - destruct (Bag.get (relations ctor) i) as [r'|].
    + destruct (js_get hx (prop data i) (keyTo r')) as [v|e]; simpl in Hrun;
        [|discriminate].
      rewrite C in Hrun. simpl in Hrun. injection Hrun as <-. simpl. split.
      * now rewrite prop_set_other.
      * exists (put_field i (prop data i) cc). split.
        -- now apply nth_error_update_cell_same.
        -- simpl. now rewrite prop_set_other.
    + destruct (strict_eq strict (VBool false)).
      * injection Hrun as <-. simpl. split.
        -- now rewrite prop_set_other.
        -- exists cc. auto.
      * destruct (strict_eq strict (VStr "throw")); [discriminate|].
        injection Hrun as <-. simpl. split; auto. exists cc. auto.
Qed.

Lemma partition_pass_ingested strict s s' :
  cache_ready h l c s ->
  forEach (partition_key ctor data strict) (Bag.keys data) s = Ok s' ->
  ingested h k r l c s'.
Proof.
  intros Hs Hrun.
  apply (forEach_establish (partition_key ctor data strict)
                           (cache_ready h l c) (ingested h k r l c) k
                           (Bag.keys data))
    with (s := s); auto.
  - intros a b Ha Hb. now apply (partition_at_k strict a b).
  - intros i a b _ Ha Hb. eapply partition_key_ready; eauto.
  - intros i a b Ha Hb. destruct (String.eqb_spec i k) as [->|Hne].
    + destruct Ha as (Ha & _). now apply (partition_at_k strict a b).
    + eapply partition_other_keeps; eauto.
  - apply has_In_keys. eapply get_Some_has; eauto.
Qed.

Lemma ingested_settled s : ingested h k r l c s -> settled h k r l c s.
Proof. intros ((_ & C & _) & W & Hc). repeat split; auto. Qed.

Lemma grows_settled s s' :
  grows s s' ->
  prop (__dataWas (snd s')) k = prop (__dataWas (snd s)) k ->
  settled h k r l c s -> settled h k r l c s'.
Proof.
  intros G E (W & (cc & Ncc & Fcc) & C). repeat split.
  - congruence.
  - exists cc. split; auto. eapply grows_nth_error; eauto.
  - destruct G as (_ & G & _). congruence.
Qed.

Lemma registered_differs q : In q (Bag.keys (properties ctor)) -> q <> k.
Proof. intros Hin ->. apply has_In_keys in Hin. congruence. Qed.

Lemma later_loops_keep_settled opts s4 s5 s6 s7 s8 :
  (if strict_eq (match opt_applySetters opts with
                 | Some v => v | None => VUndefined end) (VBool true)
   then forEach (apply_setter X ctor data) (Bag.keys data) s4
   else Ok s4) = Ok s5 ->
  (if strict_eq (resolve_strict ctor opts) (VBool false)
   then forEach (mirror_unknown X ctor data) (Bag.keys data) s5
   else Ok s5) = Ok s6 ->
  forEachProperty ctor (fill_default X ctor) s6 = Ok s7 ->
  forEachProperty ctor (coerce_property X ctor) s7 = Ok s8 ->
  settled h k r l c s4 -> settled h k r l c s8.
Proof.
  intros H5 H6 H7 H8 S4.
  assert (S5 : settled h k r l c s5).
  { destruct (strict_eq _ (VBool true)) in H5;
      [|now injection H5 as <-].
    apply (forEach_inv _ (settled h k r l c) _)
      with (s := s4) (s' := s5) in H5; auto.
    intros i a b _ Ha Hb. apply apply_setter_grows in Hb as [G E].
    apply (grows_settled a b G); auto. now rewrite E. }
  assert (S6 : settled h k r l c s6).
  { destruct (strict_eq _ (VBool false)) in H6;
      [|now injection H6 as <-].
    apply (forEach_inv _ (settled h k r l c) _)
      with (s := s5) (s' := s6) in H6; auto.
    intros i a b _ Ha Hb. apply mirror_unknown_grows in Hb as [G E].
    apply (grows_settled a b G); auto. now rewrite E. }
  assert (S7 : settled h k r l c s7).
  { apply (forEach_inv _ (settled h k r l c) _)
      with (s := s6) (s' := s7) in H7; auto.
    intros q a b Hin Ha Hb.
    pose proof (fill_default_untouched X ctor k q a b
                  (registered_differs q Hin) Hb) as U.
    apply (grows_settled a b (fill_default_grows X ctor q a b Hb)); auto.
    apply (untouched_prop_was _ _ _ U). }
  apply (forEach_inv _ (settled h k r l c) _)
    with (s := s7) (s' := s8) in H8; auto.
  intros q a b Hin Ha Hb.
  destruct (coerce_property_kinds X ctor q a b Hb) as (_ & _ & E).
  apply (grows_settled a b (coerce_property_grows X ctor q a b Hb)); auto.
  now rewrite E.
Qed.

Lemma init_run_settled opts s :
  init_run X ctor h data opts s -> settled h k r l c s.
Proof.
  intros [s4 s5 s6 s7 s8 H4 H5 H6 H7 H8 ->].
  pose proof (partition_pass_ingested _ _ _ (define_stores_ready opts) H4)
    as I4.
  pose proof (later_loops_keep_settled opts s4 s5 s6 s7 s8 H5 H6 H7 H8
                (ingested_settled _ I4)) as (W & Hc & C).
  repeat split; auto.
Qed.

(** The foreign key keeps the value taken from the nested object when
    nothing else in the input, and no default or coercion, writes it. *)
Hypothesis Hfk_missing : Bag.has data (keyFrom r) = false.
Hypothesis Hfk_unique :
  forall i r', In i (Bag.keys data) -> i <> k ->
               Bag.get (relations ctor) i = Some r' ->
               keyFrom r' <> keyFrom r.
Hypothesis Hfk_defined : prop (fields c) (keyTo r) <> VUndefined.
Hypothesis Hfk_base :
  forall d, Bag.get (properties ctor) (keyFrom r) = Some d ->
            exists ty, type d = Some ty /\ not_base_type ty = false.

Lemma untouched_fk_set s s' :
  untouched (keyFrom r) s s' -> fk_set r c s -> fk_set r c s'.
Proof.
  intros U E. unfold fk_set. now rewrite (untouched_prop_data _ _ _ U).
Qed.

Lemma supplied_differs_fk i : In i (Bag.keys data) -> i <> keyFrom r.
Proof. intros Hin ->. apply has_In_keys in Hin. congruence. Qed.

Lemma partition_pass_fk strict s s' :
  cache_ready h l c s ->
  forEach (partition_key ctor data strict) (Bag.keys data) s = Ok s' ->
  fk_set r c s'.
Proof.
  intros Hs Hrun.
  apply (forEach_establish_in
           (partition_key ctor data strict) (cache_ready h l c)
           (fun a => cache_ready h l c a /\ fk_set r c a) k (Bag.keys data))
    with (s := s) (s' := s') in Hrun; auto.
  - now destruct Hrun.
  - intros a b Ha Hb. split.
    + eapply partition_key_ready; eauto.
    + now apply (partition_at_k strict a b).
  - intros i a b _ _ Ha Hb. eapply partition_key_ready; eauto.
  - intros i a b Hin [Ha Fa] Hb. split.
    + eapply partition_key_ready; eauto.
    + destruct (String.eqb_spec i k) as [->|Hne].
      * now apply (partition_at_k strict a b).
      * eapply untouched_fk_set; eauto.
        eapply partition_key_untouched; eauto using supplied_differs_fk.
  - apply has_In_keys. eapply get_Some_has; eauto.
Qed.

Lemma fill_default_keeps_fk q s s' :
  fk_set r c s -> fill_default X ctor q s = Ok s' -> fk_set r c s'.
Proof.
  intros Hs Hrun. destruct (String.eqb_spec q (keyFrom r)) as [->|Hne].
  - destruct s as [hx self]. unfold fk_set in *. cbn [snd] in *.
    unfold fill_default in Hrun. rewrite Hs in Hrun.
    assert (E : strict_eq VUndefined (prop (fields c) (keyTo r)) = false).
    { apply strict_eq_false. congruence. }
    rewrite E in Hrun. now injection Hrun as <-.
  - eapply untouched_fk_set; eauto.
    eapply fill_default_untouched; eauto.
Qed.

Lemma coerce_property_keeps_fk q s s' :
  fk_set r c s -> coerce_property X ctor q s = Ok s' -> fk_set r c s'.
Proof.
  intros Hs Hrun. destruct (String.eqb_spec q (keyFrom r)) as [->|Hne].
  - unfold coerce_property in Hrun.
    destruct (Bag.get (properties ctor) (keyFrom r)) as [d|] eqn:Ed;
      [|discriminate].
    destruct (Hfk_base d eq_refl) as (ty & Hty & Hbase).
    rewrite Hty, Hbase in Hrun. now injection Hrun as <-.
  - eapply untouched_fk_set; eauto.
    eapply coerce_property_untouched; eauto.
Qed.

Lemma init_run_fk_set opts s :
  init_run X ctor h data opts s -> fk_set r c s.
Proof.
  intros [s4 s5 s6 s7 s8 H4 H5 H6 H7 H8 ->].
  pose proof (partition_pass_fk _ _ _ (define_stores_ready opts) H4) as F4.
  assert (F5 : fk_set r c s5).
  { destruct (strict_eq _ (VBool true)) in H5;
      [|now injection H5 as <-].
    eapply untouched_fk_set; eauto. eapply forEach_untouched; eauto.
    intros i a b Hin Hb.
    eapply apply_setter_untouched; eauto using supplied_differs_fk. }
  assert (F6 : fk_set r c s6).
  { destruct (strict_eq _ (VBool false)) in H6;
      [|now injection H6 as <-].
    eapply untouched_fk_set; eauto. eapply forEach_untouched; eauto.
    intros i a b Hin Hb.
    eapply mirror_unknown_untouched; eauto using supplied_differs_fk. }
  assert (F7 : fk_set r c s7).
  { apply (forEach_inv _ (fk_set r c) _) with (s := s6) (s' := s7) in H7; auto.
    intros q a b _ Ha Hb. eapply fill_default_keeps_fk; eauto. }
  apply (forEach_inv _ (fk_set r c) _) with (s := s7) (s' := s8) in H8; auto.
  intros q a b _ Ha Hb. eapply coerce_property_keeps_fk; eauto.
Qed.

End Relation.

(** C3, as stated, fails: the baseline under the relation name is the
    nested object's key, not the nested object. *)
Lemma relation_baseline_is_not_nested_object :
  match ModelBaseClass Sample.inert Sample.User SampleRelation.one_owner
                       [("owner", VRef 0)] no_options with
  | Ok (h', self) =>
      prop (__dataWas self) "owner" = VNum 7
      /\ prop (__dataWas self) "owner" <> VRef 0
      /\ prop (__data self) "ownerId" = VNum 7
      /\ js_get h' (__cachedRelations self) "owner" = Ok (VRef 0)
  | Throw _ => False
  end.
Proof. vm_compute. repeat split. discriminate. Qed.

(** C3, amended. When the names of the class and of the input are
    ordinary (the input then brings no relation cache of its own) and
    the input holds a nested object under a declared relation name [k]
    that is not a registered property, then after construction [dataWas[k]] is
    the nested object's [keyTo] member, and [cachedRelations[k]] is the
    nested object itself.  [data[keyFrom]] is that same [keyTo] member
    when it is defined and nothing else writes the foreign key: the
    input does not supply it, no other relation of the input shares it,
    and its declared type, if any, is primitive. *)
Theorem relation_ingestion
        (X : externals) (ctor : model) (h : heap) (data : Bag.t value)
        (opts : options) (h' : heap) (self : instance)
        (k : string) (r : relation) (l : loc) (c : cell) :
  ModelBaseClass X ctor h data opts = Ok (h', self) ->
  ordinary ctor data = true ->
  Bag.get (relations ctor) k = Some r ->
  Bag.has (properties ctor) k = false ->
  Bag.get data k = Some (VRef l) ->
  nth_error h l = Some c ->
  prop (__dataWas self) k = prop (fields c) (keyTo r)
  /\ js_get h' (__cachedRelations self) k = Ok (VRef l)
  /\ (Bag.has data (keyFrom r) = false ->
      (forall i r', In i (Bag.keys data) -> i <> k ->
                    Bag.get (relations ctor) i = Some r' ->
                    keyFrom r' <> keyFrom r) ->
      prop (fields c) (keyTo r) <> VUndefined ->
      (forall d, Bag.get (properties ctor) (keyFrom r) = Some d ->
                 exists ty, type d = Some ty /\ not_base_type ty = false) ->
      prop (__data self) (keyFrom r) = prop (fields c) (keyTo r)).
Proof.
  intros Hnew Hord Hr Hunreg Hnested Hcell.
  pose proof (ordinary_fresh_cache ctor data Hord) as Hfresh.
  apply ModelBaseClass_run in Hnew as (opts' & _ & _ & Hrun).
  destruct (init_run_settled X ctor h data k r l c Hr Hunreg Hnested Hcell
                             Hfresh opts' (h', self) Hrun)
    as (W & (cc & Ncc & Fcc) & C).
  simpl in W, Ncc, C.
  split; [exact W|]. split.
  - rewrite C. simpl. now rewrite Ncc, Fcc.
  - intros Hmissing Hunique Hdefined Hbase.
    exact (init_run_fk_set X ctor h data k r l c Hr Hunreg Hnested Hcell
                           Hfresh Hmissing Hunique Hdefined Hbase
                           opts' (h', self) Hrun).
Qed.

Lemma relation_ingestion_witness :
  match ModelBaseClass Sample.inert Sample.User SampleRelation.one_owner
                       [("owner", VRef 0)] no_options with
  | Ok (h', self) =>
      prop (__dataWas self) "owner" = VNum 7
      /\ js_get h' (__cachedRelations self) "owner" = Ok (VRef 0)
  | Throw _ => False
  end.
Proof.
  destruct (ModelBaseClass Sample.inert Sample.User
                           SampleRelation.one_owner
                           [("owner", VRef 0)] no_options)
    as [[h' self]|e] eqn:E; [|vm_compute in E; discriminate].
  destruct (relation_ingestion
              Sample.inert Sample.User SampleRelation.one_owner
              [("owner", VRef 0)] no_options h' self "owner"
              (mkRelation "ownerId" "id") 0
              (mkCell KObject [("id", VNum 7)]) E)
    as (Hwas & Hcache & _); try (vm_compute; reflexivity).
  split; [exact Hwas | exact Hcache].
Defined.

(* ================================================================== *)
(** ** Unknown keys of a non-strict instance                           *)
(* ================================================================== *)


Lemma primitive_not_function hx v :
  (forall l, v <> VRef l) -> is_function hx v = false.
Proof.
  intros Hprim. destruct v; try reflexivity. now elim (Hprim l).
Qed.

Section Unknown.

Variable X : externals.
Variable ctor : model.
Variable h : heap.
Variable data : Bag.t value.
Variables (k : string) (v : value).

Hypothesis Hsupplied : Bag.get data k = Some v.
Hypothesis Hunreg : Bag.has (properties ctor) k = false.
Hypothesis Hprim : forall l, v <> VRef l.
Hypothesis Hrel :
  forall i r, In i (Bag.keys data) ->
              Bag.get (relations ctor) i = Some r -> keyFrom r <> k.









End Unknown.

(* ================================================================== *)
(** ** The serialiser                                                  *)
(* ================================================================== *)



Lemma primitive_plain X h v schemaLess :
  (forall l, v <> VRef l) -> plain X h v schemaLess = (v, h).
Proof.
  intros Hprim. unfold plain.
  destruct v as [| | | | | |l]; simpl; try reflexivity.
  now elim (Hprim l).
Qed.

Section Serialise.

Variable X : externals.
Variable ctor : model.
Variable self : instance.
Variable schemaLess : bool.







End Serialise.





(* ================================================================== *)
(** ** Serialising primitive values, and reading them back            *)
(* ================================================================== *)

Lemma emitted_get val ks p :
  forall out,
    In p ks \/ Bag.get out p = Some (val p) ->
    Bag.get (emitted val ks out) p = Some (val p).
Proof.
  unfold emitted. induction ks as [|x ks IH]; simpl; intros out H.
  - destruct H as [[]|H]. exact H.
  - apply IH. destruct (String.eqb_spec x p) as [->|Hne].
    + right. apply get_set_same.
    + destruct H as [[->|H]|H]; [contradiction|now left|].
      right. now rewrite get_set_other.
Qed.

Lemma emitted_has_inv val ks q :
  forall out,
    Bag.has (emitted val ks out) q = true ->
    In q ks \/ Bag.has out q = true.
Proof.
  unfold emitted. induction ks as [|x ks IH]; simpl; intros out H; auto.
  apply IH in H as [H|H]; auto.
  destruct (String.eqb_spec x q) as [->|Hne]; auto.
  rewrite has_set_other in H; auto.
Qed.

Lemma emitted_ext val val' ks :
  (forall p, In p ks -> val p = val' p) ->
  forall out, emitted val ks out = emitted val' ks out.
Proof.
  unfold emitted. induction ks as [|x ks IH]; simpl; intros H out; auto.
  rewrite (H x (or_introl eq_refl)). apply IH. auto.
Qed.

Lemma primitive_not_List hx v :
  (forall l, v <> VRef l) -> instanceof_List hx v = false.
Proof.
  intros Hprim. destruct v; try reflexivity. now elim (Hprim l).
Qed.

Section Primitive.

Variable X : externals.
Variable ctor : model.

Lemma emit_registered_primitive self schemaLess p o hx :
  own self = [] ->
  Bag.has (properties ctor) p = true ->
  (forall l, prop (__data self) p <> VRef l) ->
  emit_registered X ctor self schemaLess p (o, hx)
  = (Bag.set o p (serial (__data self) p), hx).
Proof.
  intros Hown Hreg Hprim. unfold emit_registered, read, serial.
  rewrite Hown. simpl. rewrite Hreg.
  rewrite (primitive_not_List hx _ Hprim).
  destruct (Bag.has (__data self) p); auto.
  now rewrite (primitive_plain X hx _ schemaLess Hprim).
Qed.

Lemma registered_loop_primitive self schemaLess hx ks :
  own self = [] ->
  (forall p, In p ks -> Bag.has (properties ctor) p = true) ->
  (forall p l, prop (__data self) p <> VRef l) ->
  forall out,
    fold_left (fun a p => emit_registered X ctor self schemaLess p a)
              ks (out, hx)
    = (emitted (serial (__data self)) ks out, hx).
Proof.
  intros Hown Hreg Hprim. unfold emitted.
  induction ks as [|p ks IH]; cbn [fold_left]; intros out; auto.
  rewrite emit_registered_primitive; auto using in_eq.
  apply IH. auto using in_cons.
Qed.

Lemma data_loop_skips self schemaLess ks a :
  (forall q, In q ks -> Bag.has (fst a) q = true) ->
  fold_left (fun a p => emit_data X ctor self schemaLess p a) ks a = a.
Proof.
  induction ks as [|q ks IH]; simpl; intros H; auto.
  assert (E : emit_data X ctor self schemaLess q a = a).
  { destruct a as [out hx]. unfold emit_data.
    simpl in H. now rewrite (H q (or_introl eq_refl)). }
  rewrite E. apply IH. auto.
Qed.

(** The schema-less serialisation of such an instance, when its values
    are primitive. *)
Lemma toObject_schema_only hx self :
  schema_only ctor self ->
  (forall p l, prop (__data self) p <> VRef l) ->
  toObject X ctor hx self (VBool false)
  = (emitted (serial (__data self)) (Bag.keys (properties ctor)) [], hx).
Proof.
  intros [Hown Hkeys] Hprim. unfold toObject.
  cbn [strict_eq truthy negb]. rewrite orb_true_r.
  rewrite registered_loop_primitive; auto.
  - rewrite Hown. simpl. apply data_loop_skips. simpl.
    intros q Hq. apply has_In_keys in Hq. apply Hkeys in Hq.
    eapply get_Some_has. apply emitted_get. left.
    now apply has_In_keys.
  - intros p Hp. now apply has_In_keys.
Qed.

End Primitive.

Section RoundTrip.

Variable X : externals.
Variable ctor : model.

Lemma schema_only_set_data q x self :
  Bag.has (properties ctor) q = true ->
  schema_only ctor self -> schema_only ctor (set_data q x self).
Proof.
  intros Hq [Hown Hkeys]. split; auto. simpl. intros y Hy.
  destruct (String.eqb_spec q y) as [<-|Hne]; auto.
  rewrite has_set_other in Hy; auto.
Qed.

Lemma schema_only_set_dataWas q x self :
  schema_only ctor self -> schema_only ctor (set_dataWas q x self).
Proof. intros [Hown Hkeys]. split; auto. Qed.

Lemma fill_default_schema_only q s s' :
  Bag.has (properties ctor) q = true ->
  schema_only ctor (snd s) ->
  fill_default X ctor q s = Ok s' -> schema_only ctor (snd s').
Proof.
  intros Hq Hs. destruct s as [hx self]. unfold fill_default.
  destruct (strict_eq VUndefined (prop (__data self) q)).
  - destruct (getDefault X ctor q hx) as [d cells]. intros [= <-].
    now apply schema_only_set_data, schema_only_set_dataWas.
  - intros [= <-]. now apply schema_only_set_dataWas.
Qed.

Lemma coerce_property_schema_only q s s' :
  Bag.has (properties ctor) q = true ->
  schema_only ctor (snd s) ->
  coerce_property X ctor q s = Ok s' -> schema_only ctor (snd s').
Proof.
  intros Hq Hs. unfold coerce_property.
  destruct (Bag.get (properties ctor) q) as [d|]; [|discriminate].
  destruct (type d) as [ty|]; [|discriminate].
  destruct (not_base_type ty); intros E.
  - assert (s' = wrap_list ty q (parse_structured X q s)) by congruence.
    subst s'. clear E.
    assert (Hp : schema_only ctor (snd (parse_structured X q s))).
    { destruct s as [hx self]. unfold parse_structured.
      destruct (_ && _); auto.
      destruct (JSON_parse X _ hx) as [[v' cells]|];
        now apply schema_only_set_data. }
    destruct (parse_structured X q s) as [hy self']. unfold wrap_list.
    destruct (is_array_type ty); auto.
    destruct (negb _); auto. now apply schema_only_set_data.
  - assert (s' = s) by congruence. now subst.
Qed.

(** An instance constructed from no data has no own property, and holds
    only registered names. *)
Lemma default_instance_schema_only h opts h' self :
  ModelBaseClass X ctor h [] opts = Ok (h', self) ->
  schema_only ctor self.
Proof.
  intros Hnew. apply ModelBaseClass_run in Hnew as (opts' & _ & _ & Hrun).
  destruct Hrun as [s4 s5 s6 s7 s8 H4 H5 H6 H7 H8 Hfin].
  injection Hfin as -> ->.
  destruct (define_stores_spec ctor h [] opts') as (_ & D0 & _ & O0 & _).
  simpl in H4. injection H4 as <-.
  assert (s5 = define_stores ctor h [] opts').
  { destruct (strict_eq _ (VBool true)) in H5; simpl in H5; congruence. }
  subst s5.
  assert (s6 = define_stores ctor h [] opts').
  { destruct (strict_eq _ (VBool false)) in H6; simpl in H6; congruence. }
  subst s6.
  assert (S7 : schema_only ctor (snd s7)).
  { apply (forEach_inv _ (fun s => schema_only ctor (snd s)) _)
      with (s := define_stores ctor h [] opts') (s' := s7) in H7; auto.
    - intros q a b Hin Ha Hb. apply has_In_keys in Hin.
      eapply fill_default_schema_only; eauto.
    - split; auto. rewrite D0. discriminate. }
  apply (forEach_inv _ (fun s => schema_only ctor (snd s)) _)
    with (s := s7) (s' := s8) in H8; auto.
  intros q a b Hin Ha Hb. apply has_In_keys in Hin.
  eapply coerce_property_schema_only; eauto.
Qed.

(** Assigning an object whose keys are registered, and whose values the
    setters leave as they are, stores these values. *)
Lemma fromObject_stores obj :
  (forall p hx, Bag.has (properties ctor) p = true ->
                fst (normalize X p (prop obj p) hx) = prop obj p) ->
  forall ks s,
    (forall p, In p ks -> Bag.has (properties ctor) p = true) ->
    schema_only ctor (snd s) ->
    let s' := fold_left (fun s key => assign X ctor key (prop obj key) s)
                        ks s in
    schema_only ctor (snd s')
    /\ forall p, In p ks
                 \/ Bag.get (__data (snd s)) p = Some (prop obj p) ->
                 Bag.get (__data (snd s')) p = Some (prop obj p).
Proof.
  intros Hfix. induction ks as [|x ks IH]; cbn [fold_left];
    intros s Hreg Hs.
  - split; auto. intros p [[]|H]. exact H.
  - assert (Hx : Bag.has (properties ctor) x = true)
      by auto using in_eq.
    destruct s as [hx self]. destruct Hs as [Hown Hkeys].
    cbn [snd fst] in *.
    assert (E : assign X ctor x (prop obj x) (hx, self)
                = (hx ++ snd (normalize X x (prop obj x) hx),
                   set_data x (prop obj x) self)).
    { unfold assign. rewrite Hown, Hx. simpl.
      specialize (Hfix x hx Hx).
      destruct (normalize X x (prop obj x) hx) as [v' cells].
      simpl in *. now subst v'. }
    rewrite E.
    destruct (IH (hx ++ snd (normalize X x (prop obj x) hx),
                  set_data x (prop obj x) self)) as [S' G'].
    + intros p Hp. apply Hreg. now right.
    + apply schema_only_set_data; auto. split; auto.
    + split; [exact S'|]. intros p Hp. apply G'. simpl.
      destruct (String.eqb_spec x p) as [->|Hne].
      * right. apply get_set_same.
      * destruct Hp as [[->|Hp]|Hp]; [contradiction|now left|].
        right. now rewrite get_set_other.
Qed.

End RoundTrip.

(** C8, as stated, fails: a value stored without going through the
    setter (here with [applySetters: false]) is normalised by the setter
    when [fromObject] assigns it, and the second serialisation differs
    from the first. *)
Lemma round_trip_fails_when_setter_normalises :
  match ModelBaseClass SamplePerson.numeric SamplePerson.Person []
                       [("age", VStr "5")] SamplePerson.without_setters,
        ModelBaseClass SamplePerson.numeric SamplePerson.Person []
                       [] no_options
  with
  | Ok (h1, self1), Ok (h3, fresh) =>
      let obj := fst (toObject SamplePerson.numeric SamplePerson.Person
                               h1 self1 (VBool false)) in
      let s2 := fromObject SamplePerson.numeric SamplePerson.Person obj
                           (h3, fresh) in
      own self1 = []
      /\ obj = [("name", VUndefined); ("age", VStr "5")]
      /\ fst (toObject SamplePerson.numeric SamplePerson.Person
                       (fst s2) (snd s2) (VBool false))
         = [("name", VUndefined); ("age", VNum 5)]
  | _, _ => False
  end.
Proof. vm_compute. repeat split. Qed.

(** C8, amended. Round trip: for an instance that has no schema-less
    extras and holds only primitive values, and provided the setter of
    each registered property leaves the serialised value of that
    property as it is, applying [fromObject(instance.toObject(false))]
    to a freshly constructed default instance yields an instance whose
    [toObject(false)] output equals the one of the original instance. *)
Theorem round_trip_of_primitive_values
        (X : externals) (ctor : model) (h1 : heap) (self1 : instance)
        (h2 : heap) (opts : options) (h3 : heap) (fresh : instance) :
  schema_only ctor self1 ->
  (forall p l, prop (__data self1) p <> VRef l) ->
  (forall p hx,
      Bag.has (properties ctor) p = true ->
      fst (normalize X p
             (prop (fst (toObject X ctor h1 self1 (VBool false))) p) hx)
      = prop (fst (toObject X ctor h1 self1 (VBool false))) p) ->
  ModelBaseClass X ctor h2 [] opts = Ok (h3, fresh) ->
  fst (toObject X ctor
         (fst (fromObject X ctor
                 (fst (toObject X ctor h1 self1 (VBool false)))
                 (h3, fresh)))
         (snd (fromObject X ctor
                 (fst (toObject X ctor h1 self1 (VBool false)))
                 (h3, fresh)))
         (VBool false))
  = fst (toObject X ctor h1 self1 (VBool false)).
Proof.
  intros Hself Hprim Hfix Hnew.
  rewrite (toObject_schema_only X ctor h1 self1 Hself Hprim) in *.
  cbn [fst] in *.
  set (val := serial (__data self1)) in *.
  set (ks := Bag.keys (properties ctor)) in *.
  set (obj := emitted val ks []) in *.
  assert (Hobj : forall p, In p ks -> Bag.get obj p = Some (val p)).
  { intros p Hp. apply emitted_get. now left. }
  assert (Hval : forall p l, val p <> VRef l).
  { intros p l. unfold val, serial.
    destruct (Bag.has (__data self1) p); [apply Hprim|discriminate]. }
  assert (Hkeys : forall p, In p (Bag.keys obj) ->
                            Bag.has (properties ctor) p = true).
  { intros p Hp. apply has_In_keys in Hp.
    apply emitted_has_inv in Hp as [Hp|Hp]; [|discriminate].
    now apply has_In_keys. }
  pose proof (default_instance_schema_only X ctor h2 opts h3 fresh Hnew)
    as Hfresh.
  destruct (fromObject_stores X ctor obj Hfix (Bag.keys obj) (h3, fresh)
                              Hkeys Hfresh) as [Hs2 Hget].
  fold (fromObject X ctor obj (h3, fresh)) in Hs2, Hget.
  set (s2 := fromObject X ctor obj (h3, fresh)) in *.
  assert (Hdata : forall p, In p ks ->
                            Bag.get (__data (snd s2)) p = Some (val p)).
  { intros p Hp. rewrite Hget.
    - unfold prop. now rewrite (Hobj p Hp).
    - left. apply has_In_keys. eapply get_Some_has. eauto. }
  assert (Hprim2 : forall p l, prop (__data (snd s2)) p <> VRef l).
  { intros p l. destruct (Bag.has (properties ctor) p) eqn:Hp.
    - unfold prop. rewrite Hdata; [apply Hval|]. now apply has_In_keys.
    - unfold prop. destruct (Bag.get (__data (snd s2)) p) eqn:E;
        [|discriminate].
      apply get_Some_has in E. apply Hs2 in E. congruence. }
  rewrite (toObject_schema_only X ctor (fst s2) (snd s2) Hs2 Hprim2).
  cbn [fst]. unfold obj. apply emitted_ext.
  intros p Hp. unfold serial at 1.
  rewrite (get_Some_has _ _ _ (Hdata p Hp)). unfold prop.
  now rewrite (Hdata p Hp).
Qed.

Lemma round_trip_of_primitive_values_witness :
  match ModelBaseClass Sample.inert SamplePerson.Person []
                       [("name", VStr "Joe")] no_options,
        ModelBaseClass Sample.inert SamplePerson.Person [] [] no_options
  with
  | Ok (h1, self1), Ok (h3, fresh) =>
      fst (toObject Sample.inert SamplePerson.Person
             (fst (fromObject Sample.inert SamplePerson.Person
                     (fst (toObject Sample.inert SamplePerson.Person
                                    h1 self1 (VBool false)))
                     (h3, fresh)))
             (snd (fromObject Sample.inert SamplePerson.Person
                     (fst (toObject Sample.inert SamplePerson.Person
                                    h1 self1 (VBool false)))
                     (h3, fresh)))
             (VBool false))
      = fst (toObject Sample.inert SamplePerson.Person h1 self1
                      (VBool false))
  | _, _ => False
  end.
Proof.
  destruct (ModelBaseClass Sample.inert SamplePerson.Person []
                           [("name", VStr "Joe")] no_options)
    as [[h1 self1]|e] eqn:E1; [|vm_compute in E1; discriminate].
  destruct (ModelBaseClass Sample.inert SamplePerson.Person [] []
                           no_options)
    as [[h3 fresh]|e] eqn:E2; [|vm_compute in E2; discriminate].
  apply (round_trip_of_primitive_values
           Sample.inert SamplePerson.Person h1 self1 [] no_options
           h3 fresh); [| | |exact E2].
  - vm_compute in E1. injection E1 as <- <-. split; [reflexivity|].
    intros q. unfold Bag.has, SamplePerson.Person.
    cbn [__data properties Bag.get].
    destruct (String.eqb "name" q); [reflexivity|].
    destruct (String.eqb "age" q); [reflexivity|discriminate].
  - vm_compute in E1. injection E1 as <- <-.
    intros p l. unfold prop. cbn [__data Bag.get].
    destruct (String.eqb "name" p); [discriminate|].
    destruct (String.eqb "age" p); discriminate.
  - intros p hx _. reflexivity.
Defined.

(* ================================================================== *)
(** ** Unknown keys under the strict mode ["throw"]                    *)
(* ================================================================== *)


Lemma same_functions_alloc_object h fs :
  same_functions h (h ++ [mkCell KObject fs]).
Proof.
  intros v. unfold is_function. destruct v as [| | | | | |l]; simpl; auto.
  destruct (Nat.lt_ge_cases l (length h)) as [Hlt|Hge].
  - destruct (kind_of h l) as [k|] eqn:E.
    + now rewrite (kinds_kept_app h _ l k E).
    + unfold kind_of in E. apply nth_error_Some in Hlt.
      destruct (nth_error h l); [discriminate|contradiction].
  - assert (Enone : kind_of h l = None).
    { unfold kind_of. now rewrite (proj2 (nth_error_None h l) Hge). }
    rewrite Enone. unfold kind_of.
    destruct (Nat.eq_dec l (length h)) as [->|Hne].
    + rewrite nth_error_app2, Nat.sub_diag by lia. reflexivity.
    + rewrite (proj2 (nth_error_None (h ++ _) l)); auto.
      rewrite length_app. simpl. lia.
Qed.

Lemma forEach_total {S : Type} (body : string -> S -> result S) ks :
  (forall k s, In k ks -> exists s', body k s = Ok s') ->
  forall s, exists s', forEach body ks s = Ok s'.
Proof.
  induction ks as [|k ks IH]; simpl; intros Htot s; eauto.
  destruct (Htot k s (or_introl eq_refl)) as [s1 E]. rewrite E. simpl.
  apply IH. intros k' s' Hin. apply Htot. now right.
Qed.

(** A loop that throws does so in its body, at a state that the
    invariant of the loop describes. *)
Lemma forEach_Throw {S : Type} (body : string -> S -> result S)
      (I : S -> Prop) ks e :
  (forall k s s', In k ks -> I s -> body k s = Ok s' -> I s') ->
  forall s, I s -> forEach body ks s = Throw e ->
            exists k a, In k ks /\ I a /\ body k a = Throw e.
Proof.
  induction ks as [|k ks IH]; simpl; intros Hstep s Hs Hrun;
    [discriminate|].
  destruct (body k s) as [s1|e1] eqn:E; simpl in Hrun.
  - destruct (IH (fun k0 a b Hin => Hstep k0 a b (or_intror Hin))
                 s1 (Hstep k s s1 (or_introl eq_refl) Hs E) Hrun)
      as (k' & a & Hin & Ha & Hb).
    exists k', a. auto.
  - injection Hrun as <-. exists k, s. auto.
Qed.

Section Total.

Variable X : externals.
Variable ctor : model.

Lemma apply_setter_total data k s :
  exists s', apply_setter X ctor data k s = Ok s'.
Proof.
  destruct s as [h self]. unfold apply_setter. destruct (_ && _); eauto.
Qed.

Lemma mirror_unknown_total data k s :
  exists s', mirror_unknown X ctor data k s = Ok s'.
Proof.
  destruct s as [h self]. unfold mirror_unknown. destruct (_ && _); eauto.
Qed.

Lemma fill_default_total k s : exists s', fill_default X ctor k s = Ok s'.
Proof.
  destruct s as [h self]. unfold fill_default.
  destruct (strict_eq _ _); [|eauto].
  destruct (getDefault X ctor k h) as [d cells]. eauto.
Qed.

(** The coercion pass throws nothing but a type error, and only for a
    property that declares no type. *)
Lemma coerce_property_Throw k s e :
  coerce_property X ctor k s = Throw e -> e = JsTypeError.
Proof.
  unfold coerce_property.
  destruct (Bag.get (properties ctor) k) as [d|]; [|now intros [= <-]].
  destruct (type d) as [ty|]; [|now intros [= <-]].
  destruct (not_base_type ty); discriminate.
Qed.

Lemma coerce_property_total k s d :
  Bag.get (properties ctor) k = Some d -> type d <> None ->
  exists s', coerce_property X ctor k s = Ok s'.
Proof.
  intros Hd Hty. unfold coerce_property. rewrite Hd.
  destruct (type d) as [ty|]; [|contradiction].
  destruct (not_base_type ty); eauto.
Qed.

End Total.

Section Partition.

Variable X : externals.
Variable ctor : model.
Variable h : heap.
Variable data : Bag.t value.
Variable strict : value.

Hypothesis Hnofun :
  forall i, In i (Bag.keys data) -> is_function h (prop data i) = false.
Hypothesis Hnested :
  forall i r, In i (Bag.keys data) ->
              Bag.has (properties ctor) i = false ->
              Bag.get (relations ctor) i = Some r ->
              prop data i <> VUndefined /\ prop data i <> VNull.

Lemma define_stores_sane opts : sane h (define_stores ctor h data opts).
Proof.
  unfold define_stores, alloc.
  destruct (truthy (prop data "__cachedRelations")) eqn:E; split; simpl;
    auto using same_functions_alloc_object.
Qed.






End Partition.

Section Outcome.

Variable X : externals.
Variable ctor : model.

(** Once the input keys are partitioned, the construction can only fail
    with a type error, in the coercion pass, for a property that declares
    no type. *)
Lemma _initProperties_outcome h data opts :
  (forall e,
      forEach (partition_key ctor data (resolve_strict ctor opts))
              (Bag.keys data) (define_stores ctor h data opts) = Throw e ->
      _initProperties X ctor h data opts = Throw e)
  /\ (forall s4,
         forEach (partition_key ctor data (resolve_strict ctor opts))
                 (Bag.keys data) (define_stores ctor h data opts) = Ok s4 ->
         ((exists s, _initProperties X ctor h data opts = Ok s)
          \/ _initProperties X ctor h data opts = Throw JsTypeError)
         /\ ((forall p d, Bag.get (properties ctor) p = Some d ->
                          type d <> None) ->
             exists s, _initProperties X ctor h data opts = Ok s)).
Proof.
  unfold _initProperties. split.
  - intros e ->. reflexivity.
  - intros s4 ->. cbn [bind].
    assert (H5 : exists s5,
               (if strict_eq (match opt_applySetters opts with
                              | Some v => v | None => VUndefined end)
                             (VBool true)
                then forEach (apply_setter X ctor data) (Bag.keys data) s4
                else Ok s4) = Ok s5).
    { destruct (strict_eq _ (VBool true)); eauto.
      apply forEach_total. intros k s _. apply apply_setter_total. }
    destruct H5 as [s5 ->]. cbn [bind].
    assert (H6 : exists s6,
               (if strict_eq (resolve_strict ctor opts) (VBool false)
                then forEach (mirror_unknown X ctor data) (Bag.keys data) s5
                else Ok s5) = Ok s6).
    { destruct (strict_eq _ (VBool false)); eauto.
      apply forEach_total. intros k s _. apply mirror_unknown_total. }
    destruct H6 as [s6 ->]. cbn [bind].
    destruct (forEach_total (fill_default X ctor)
                            (Bag.keys (properties ctor))
                            (fun k s _ => fill_default_total X ctor k s) s6)
      as [s7 H7].
    unfold forEachProperty. rewrite H7. cbn [bind]. split.
    + destruct (forEach (coerce_property X ctor) _ s7) as [s8|e] eqn:H8;
        cbn [bind]; [left; eauto|right].
      apply (forEach_Throw _ (fun _ => True)) in H8
        as (k & a & _ & _ & Hb); auto.
      now rewrite (coerce_property_Throw X ctor k a e Hb).
    + intros Htypes.
      destruct (forEach_total (coerce_property X ctor)
                              (Bag.keys (properties ctor))) with (s := s7)
        as [s8 H8].
      * intros k s Hin. apply has_In_keys in Hin. unfold Bag.has in Hin.
        destruct (Bag.get (properties ctor) k) as [d|] eqn:Hd;
          [|discriminate].
        eapply coerce_property_total; eauto.
      * rewrite H8. cbn [bind]. eauto.
Qed.

Lemma ModelBaseClass_unfold h data opts :
  exists opts',
    ModelBaseClass X ctor h data opts = _initProperties X ctor h data opts'
    /\ resolve_strict ctor opts' = resolve_strict ctor opts.
Proof.
  unfold ModelBaseClass. destruct (opt_applySetters opts); eauto.
Qed.

End Outcome.






(* ================================================================== *)
(** ** Function values in the input                                    *)
(* ================================================================== *)

(** C4: the partition of the input keys does not skip a function value.
    Only the first branch tests for it, so the key falls through to the
    branches for relations and unknown keys: under [strict: false] the
    function is stored in [data] and [dataWas] (it is not mirrored as an
    own property), and under ["throw"] a registered name whose value is
    a function is rejected as an unknown property. *)
Theorem function_value_is_not_skipped :
  is_function SampleFunction.one_function (VRef 0) = true
  /\ Bag.has (properties Sample.User) "name" = true
  /\ match ModelBaseClass Sample.inert Sample.User
                          SampleFunction.one_function
                          [("greet", VRef 0)]
                          (Sample.strict_opt (VBool false)) with
     | Ok (_, self) =>
         Bag.get (__data self) "greet" = Some (VRef 0)
         /\ Bag.get (__dataWas self) "greet" = Some (VRef 0)
         /\ Bag.get (own self) "greet" = None
     | Throw _ => False
     end
  /\ ModelBaseClass Sample.inert Sample.User SampleFunction.one_function
                    [("name", VRef 0)] (Sample.strict_opt (VStr "throw"))
     = Throw (UnknownPropertyError "name").
Proof. vm_compute. repeat split. Qed.

(* ================================================================== *)
(** ** What the construction records on the instance                   *)
(* ================================================================== *)

Lemma hidden_kept_refl s : hidden_kept s s.
Proof. split; reflexivity. Qed.

Lemma hidden_kept_trans s1 s2 s3 :
  hidden_kept s1 s2 -> hidden_kept s2 s3 -> hidden_kept s1 s3.
Proof. intros [A1 A2] [B1 B2]. split; congruence. Qed.

Lemma forEach_hidden (body : string -> state -> result state) ks :
  (forall k s s', body k s = Ok s' -> hidden_kept s s') ->
  forall s s', forEach body ks s = Ok s' -> hidden_kept s s'.
Proof.
  intros Hstep s s' Hrun.
  apply (forEach_inv body (hidden_kept s) ks) with (s := s); auto.
  - intros k a b _ Ha Hb. eapply hidden_kept_trans; eauto.
  - apply hidden_kept_refl.
Qed.

Section Hidden.

Variable X : externals.
Variable ctor : model.

Lemma assign_hidden name v s : hidden_kept s (assign X ctor name v s).
Proof.
  destruct s as [h self]. unfold assign.
  destruct (Bag.has (own self) name); [split; reflexivity|].
  destruct (Bag.has (properties ctor) name); [|split; reflexivity].
  destruct (normalize X name v h) as [v' cells]. split; reflexivity.
Qed.

Lemma partition_key_hidden data strict i s s' :
  partition_key ctor data strict i s = Ok s' ->
  hidden_kept s s'
  /\ __cachedRelations (snd s') = __cachedRelations (snd s).
Proof.
  destruct s as [h self]. unfold partition_key, clone.
  destruct (Bag.has (properties ctor) i && negb (is_function h (prop data i))).
  - intros [= <-]. repeat split.
  - destruct (Bag.get (relations ctor) i) as [r|].
    + destruct (js_get h (prop data i) (keyTo r)) as [v|e]; simpl;
        [|discriminate].
      destruct (__cachedRelations self) eqn:Ec; simpl; try discriminate;
        intros [= <-]; repeat split; exact Ec.
    + destruct (strict_eq strict (VBool false)).
      * intros [= <-]. repeat split.
      * destruct (strict_eq strict (VStr "throw")); [discriminate|].
        intros [= <-]. repeat split.
Qed.

Lemma apply_setter_hidden data k s s' :
  apply_setter X ctor data k s = Ok s' -> hidden_kept s s'.
Proof.
  destruct s as [h self]. unfold apply_setter.
  destruct (_ && _); intros [= <-].
  - exact (assign_hidden k _ (h, self)).
  - apply hidden_kept_refl.
Qed.

Lemma mirror_unknown_hidden data k s s' :
  mirror_unknown X ctor data k s = Ok s' -> hidden_kept s s'.
Proof.
  destruct s as [h self]. unfold mirror_unknown.
  destruct (_ && _); intros [= <-].
  - exact (assign_hidden k _ (h, self)).
  - apply hidden_kept_refl.
Qed.

Lemma fill_default_hidden k s s' :
  fill_default X ctor k s = Ok s' -> hidden_kept s s'.
Proof.
  destruct s as [h self]. unfold fill_default.
  destruct (strict_eq VUndefined (prop (__data self) k)).
  - destruct (getDefault X ctor k h) as [d cells].
    intros [= <-]. split; reflexivity.
  - intros [= <-]. split; reflexivity.
Qed.

Lemma coerce_property_hidden k s s' :
  coerce_property X ctor k s = Ok s' -> hidden_kept s s'.
Proof.
  unfold coerce_property.
  destruct (Bag.get (properties ctor) k) as [d|]; [|discriminate].
  destruct (type d) as [ty|]; [|discriminate].
  destruct (not_base_type ty); intros E.
  - assert (s' = wrap_list ty k (parse_structured X k s)) by congruence.
    subst s'. clear E. destruct s as [h self].
    unfold parse_structured.
    destruct (_ && _);
      [destruct (JSON_parse X _ h) as [[v' cells]|]|];
      unfold wrap_list, new_List, alloc;
      destruct (is_array_type ty); try (split; reflexivity);
      destruct (negb _); split; reflexivity.
  - assert (s' = s) by congruence. subst. apply hidden_kept_refl.
Qed.

Lemma define_stores_hidden h data opts :
  __dataSource (snd (define_stores ctor h data opts)) = opt_dataSource opts
  /\ triggered (snd (define_stores ctor h data opts)) = []
  /\ __cachedRelations (snd (define_stores ctor h data opts))
     = (if truthy (prop data "__cachedRelations")
        then prop data "__cachedRelations"
        else VRef (length h)).
Proof.
  unfold define_stores, alloc.
  destruct (truthy (prop data "__cachedRelations")); repeat split.
Qed.

Lemma init_run_hidden h data opts s :
  init_run X ctor h data opts s ->
  __dataSource (snd s) = opt_dataSource opts
  /\ triggered (snd s) = ["initialize"]
  /\ __cachedRelations (snd s)
     = (if truthy (prop data "__cachedRelations")
        then prop data "__cachedRelations"
        else VRef (length h)).
Proof.
  intros [s4 s5 s6 s7 s8 H4 H5 H6 H7 H8 ->]. simpl.
  destruct (define_stores_hidden h data opts) as (D0 & T0 & C0).
  assert (K4 : hidden_kept (define_stores ctor h data opts) s4
               /\ __cachedRelations (snd s4)
                  = __cachedRelations (snd (define_stores ctor h data opts))).
  { apply (forEach_inv
             _ (fun s => hidden_kept (define_stores ctor h data opts) s
                         /\ __cachedRelations (snd s)
                            = __cachedRelations
                                (snd (define_stores ctor h data opts))) _)
      with (s := define_stores ctor h data opts) (s' := s4) in H4; auto.
    - intros i a b _ [Ha Ca] Hb.
      apply partition_key_hidden in Hb as [Hb Cb]. split.
      + eapply hidden_kept_trans; eauto.
      + congruence.
    - split; [apply hidden_kept_refl|reflexivity]. }
  destruct K4 as [K4 C4].
  assert (K5 : hidden_kept s4 s5 /\ grows s4 s5).
  { destruct (strict_eq _ (VBool true)) in H5;
      [|injection H5 as <-; split;
        [apply hidden_kept_refl|apply grows_refl]].
    split.
    - eapply forEach_hidden; eauto. intros k a b. apply apply_setter_hidden.
    - eapply forEach_grows; eauto.
      intros i a b _ Hb. now apply apply_setter_grows in Hb. }
  assert (K6 : hidden_kept s5 s6 /\ grows s5 s6).
  { destruct (strict_eq _ (VBool false)) in H6;
      [|injection H6 as <-; split;
        [apply hidden_kept_refl|apply grows_refl]].
    split.
    - eapply forEach_hidden; eauto.
      intros k a b. apply mirror_unknown_hidden.
    - eapply forEach_grows; eauto.
      intros i a b _ Hb. now apply mirror_unknown_grows in Hb. }
  assert (K7 : hidden_kept s6 s7 /\ grows s6 s7).
  { split.
    - eapply forEach_hidden; eauto. intros k a b. apply fill_default_hidden.
    - eapply forEach_grows; eauto.
      intros i a b _ Hb. now apply fill_default_grows in Hb. }
  assert (K8 : hidden_kept s7 s8 /\ grows s7 s8).
  { split.
    - eapply forEach_hidden; eauto.
      intros k a b. apply coerce_property_hidden.
    - eapply forEach_grows; eauto.
      intros i a b _ Hb. now apply coerce_property_grows in Hb. }
  destruct K4 as [D4 T4]. destruct K5 as [[D5 T5] (_ & C5 & _)].
  destruct K6 as [[D6 T6] (_ & C6 & _)].
  destruct K7 as [[D7 T7] (_ & C7 & _)].
  destruct K8 as [[D8 T8] (_ & C8 & _)].
  repeat split.
  - congruence.
  - rewrite T8, T7, T6, T5, T4, T0. reflexivity.
  - congruence.
Qed.

End Hidden.

(** X1. For an input without a key named like a hidden field, the
    strict mode of a constructed instance is the [strict] option when
    the options give one, and the setting of the model definition
    otherwise; no step of the pipeline changes it. *)
Theorem construction_resolves_strict
        (X : externals) (ctor : model) (h : heap) (data : Bag.t value)
        (opts : options) (h' : heap) (self : instance) :
  ModelBaseClass X ctor h data opts = Ok (h', self) ->
  no_hidden_key data = true ->
  (opt_strict opts <> VUndefined -> __strict self = opt_strict opts)
  /\ (opt_strict opts = VUndefined -> __strict self = settings_strict ctor).
Proof.
  intros Hnew _.
  apply ModelBaseClass_run in Hnew as (opts' & Hs & _ & Hrun).
  pose proof (init_run_strict X ctor h data opts' (h', self) Hrun) as E.
  simpl in E. rewrite E. unfold resolve_strict. rewrite Hs. split.
  - intros Hne. apply strict_eq_false in Hne. now rewrite Hne.
  - intros ->. reflexivity.
Qed.

Lemma construction_resolves_strict_witness :
  match ModelBaseClass Sample.inert Sample.User [] [("name", VStr "Joe")]
                       (Sample.strict_opt (VBool false)),
        ModelBaseClass Sample.inert Sample.User [] [("name", VStr "Joe")]
                       no_options
  with
  | Ok (_, self1), Ok (_, self2) =>
      __strict self1 = VBool false /\ __strict self2 = VUndefined
  | _, _ => False
  end.
Proof.
  destruct (ModelBaseClass Sample.inert Sample.User []
                           [("name", VStr "Joe")]
                           (Sample.strict_opt (VBool false)))
    as [[h1 self1]|e] eqn:E1; [|vm_compute in E1; discriminate].
  destruct (ModelBaseClass Sample.inert Sample.User []
                           [("name", VStr "Joe")] no_options)
    as [[h2 self2]|e] eqn:E2; [|vm_compute in E2; discriminate].
  split.
  - apply (construction_resolves_strict _ _ _ _ _ _ _ E1 eq_refl).
    discriminate.
  - apply (construction_resolves_strict _ _ _ _ _ _ _ E2 eq_refl).
    reflexivity.
Defined.

Lemma ModelBaseClass_options X ctor h data opts :
  exists opts',
    ModelBaseClass X ctor h data opts = _initProperties X ctor h data opts'
    /\ opt_strict opts' = opt_strict opts
    /\ opt_dataSource opts' = opt_dataSource opts
    /\ opt_applySetters opts'
       = Some (match opt_applySetters opts with
               | Some v => v | None => VBool true end).
Proof.
  unfold ModelBaseClass. destruct (opt_applySetters opts) as [v|] eqn:E.
  - exists opts. auto.
  - eexists. repeat split.
Qed.



(** X3. A construction that returns has sent the hooks exactly one
    notification, [initialize]. *)
Theorem construction_notifies_once
        (X : externals) (ctor : model) (h : heap) (data : Bag.t value)
        (opts : options) (h' : heap) (self : instance) :
  ModelBaseClass X ctor h data opts = Ok (h', self) ->
  triggered self = ["initialize"].
Proof.
  intros Hnew.
  apply ModelBaseClass_run in Hnew as (opts' & _ & _ & Hrun).
  now destruct (init_run_hidden X ctor h data opts' (h', self) Hrun)
    as (_ & T & _).
Qed.

Lemma construction_notifies_once_witness :
  match ModelBaseClass Sample.inert Sample.User [] [("name", VStr "Joe")]
                       no_options with
  | Ok (_, self) => triggered self = ["initialize"]
  | Throw _ => False
  end.
Proof.
  destruct (ModelBaseClass Sample.inert Sample.User []
                           [("name", VStr "Joe")] no_options)
    as [[h' self]|e] eqn:E; [|vm_compute in E; discriminate].
  exact (construction_notifies_once _ _ _ _ _ _ _ E).
Defined.

(** X4. The relation cache of a constructed instance is the very object
    that the input brings under [__cachedRelations] when that value is
    truthy; when the input has no such key it is a new object,
    allocated past every cell of the initial store.  (The input has no
    key named like another hidden field, and [__cachedRelations] names
    no relation or foreign key.) *)
Theorem relation_cache_is_adopted
        (X : externals) (ctor : model) (h : heap) (data : Bag.t value)
        (opts : options) (h' : heap) (self : instance) :
  ModelBaseClass X ctor h data opts = Ok (h', self) ->
  no_hidden_key data = true ->
  cache_name_free ctor data ->
  (truthy (prop data "__cachedRelations") = true ->
   __cachedRelations self = prop data "__cachedRelations")
  /\ (Bag.has data "__cachedRelations" = false ->
      __cachedRelations self = VRef (length h)
      /\ kind_of h (length h) = None
      /\ kind_of h' (length h) = Some KObject).
Proof.
  intros Hnew _ _.
  apply ModelBaseClass_run in Hnew as (opts' & _ & _ & Hrun).
  destruct (init_run_hidden X ctor h data opts' (h', self) Hrun)
    as (_ & _ & C).
  simpl in C.
  split; [intros Ht; rewrite Ht in C; auto|].
  intros Hno.
  assert (Ht : truthy (prop data "__cachedRelations") = false).
  { unfold prop. now rewrite (has_false_get _ _ Hno). }
  rewrite Ht in C.
  split; [exact C|]. split.
  - unfold kind_of. now rewrite (proj2 (nth_error_None h (length h))).
  - destruct Hrun as [s4 s5 s6 s7 s8 H4 H5 H6 H7 H8 Hfin].
    injection Hfin as -> _.
    assert (K0 : kind_of (fst (define_stores ctor h data opts'))
                         (length h) = Some KObject).
    { unfold define_stores, alloc. rewrite Ht. simpl.
      apply (kind_of_fresh h (mkCell KObject [])). }
    assert (K4 : kinds_kept (fst (define_stores ctor h data opts')) (fst s4)).
    { apply (forEach_inv
               _ (fun s => kinds_kept
                             (fst (define_stores ctor h data opts')) (fst s))
               _) with (s := define_stores ctor h data opts') (s' := s4)
        in H4; auto with store.
      intros i a b _ Ha Hb. apply partition_key_kinds in Hb as [Hb _].
      eapply kinds_kept_trans; eauto. }
    assert (K5 : kinds_kept (fst s4) (fst s5)).
    { destruct (strict_eq _ (VBool true)) in H5;
        [|injection H5 as <-; auto with store].
      apply (forEach_inv _ (fun s => kinds_kept (fst s4) (fst s)) _)
        with (s := s4) (s' := s5) in H5; auto with store.
      intros i a b _ Ha Hb. apply apply_setter_kinds in Hb.
      eapply kinds_kept_trans; eauto. }
    assert (K6 : kinds_kept (fst s5) (fst s6)).
    { destruct (strict_eq _ (VBool false)) in H6;
        [|injection H6 as <-; auto with store].
      apply (forEach_inv _ (fun s => kinds_kept (fst s5) (fst s)) _)
        with (s := s5) (s' := s6) in H6; auto with store.
      intros i a b _ Ha Hb. apply mirror_unknown_kinds in Hb.
      eapply kinds_kept_trans; eauto. }
    assert (K7 : kinds_kept (fst s6) (fst s7)).
    { apply (forEach_inv _ (fun s => kinds_kept (fst s6) (fst s)) _)
        with (s := s6) (s' := s7) in H7; auto with store.
      intros i a b _ Ha Hb. apply fill_default_kinds in Hb as [Hb _].
      eapply kinds_kept_trans; eauto. }
    assert (K8 : kinds_kept (fst s7) (fst s8)).
    { apply (forEach_inv _ (fun s => kinds_kept (fst s7) (fst s)) _)
        with (s := s7) (s' := s8) in H8; auto with store.
      intros i a b _ Ha Hb. apply coerce_property_kinds in Hb as [Hb _].
      eapply kinds_kept_trans; eauto. }
    simpl. apply K8, K7, K6, K5, K4, K0.
Qed.

Lemma relation_cache_is_adopted_witness :
  match ModelBaseClass Sample.inert Sample.User SampleRelation.one_owner
                       [("__cachedRelations", VRef 0)] no_options,
        ModelBaseClass Sample.inert Sample.User SampleRelation.one_owner
                       [("name", VStr "Joe")] no_options
  with
  | Ok (_, self1), Ok (_, self2) =>
      __cachedRelations self1 = VRef 0 /\ __cachedRelations self2 = VRef 1
  | _, _ => False
  end.
Proof.
  destruct (ModelBaseClass Sample.inert Sample.User
                           SampleRelation.one_owner
                           [("__cachedRelations", VRef 0)] no_options)
    as [[h1 self1]|e] eqn:E1; [|vm_compute in E1; discriminate].
  destruct (ModelBaseClass Sample.inert Sample.User
                           SampleRelation.one_owner
                           [("name", VStr "Joe")] no_options)
    as [[h2 self2]|e] eqn:E2; [|vm_compute in E2; discriminate].
  assert (F : forall data, cache_name_free Sample.User data).
  { intros data. split; [reflexivity|].
    intros i r _ Hr. unfold Sample.User in Hr. cbn [relations] in Hr.
    unfold Bag.get in Hr. destruct (String.eqb "owner" i);
      [|discriminate]. injection Hr as <-. discriminate. }
  split.
  - apply (relation_cache_is_adopted _ _ _ _ _ _ _ E1 eq_refl (F _)).
    reflexivity.
  - apply (relation_cache_is_adopted _ _ _ _ _ _ _ E2 eq_refl (F _)).
    reflexivity.
Defined.

(* ================================================================== *)
(** ** Every registered property has an entry                          *)
(* ================================================================== *)

Section Entries.

Variable X : externals.
Variable ctor : model.





End Entries.



(* ================================================================== *)
(** ** The keys of a serialised instance                               *)
(* ================================================================== *)

Lemma has_set_iff {V : Type} (o : Bag.t V) p x q :
  Bag.has (Bag.set o p x) q = true <-> q = p \/ Bag.has o q = true.
Proof.
  destruct (String.eqb_spec p q) as [->|Hne].
  - rewrite has_set_same. tauto.
  - rewrite has_set_other by auto. split; [tauto|].
    intros [->|H]; [contradiction|exact H].
Qed.

Lemma fold_left_keys (f : out_state -> string -> out_state) ks :
  (forall a p, In p ks ->
               forall q, Bag.has (fst (f a p)) q = true
                         <-> q = p \/ Bag.has (fst a) q = true) ->
  forall a q, Bag.has (fst (fold_left f ks a)) q = true
              <-> In q ks \/ Bag.has (fst a) q = true.
Proof.
  induction ks as [|p ks IH]; simpl; intros Hstep a q; [tauto|].
  rewrite IH by auto. rewrite (Hstep a p (or_introl eq_refl) q).
  split; [intros [H|[->|H]]|intros [[->|H]|H]]; auto.
Qed.

Section Keys.

Variable X : externals.
Variable ctor : model.
Variable self : instance.
Variable schemaLess : bool.

Lemma emit_registered_has p a q :
  Bag.has (fst (emit_registered X ctor self schemaLess p a)) q = true
  <-> q = p \/ Bag.has (fst a) q = true.
Proof.
  destruct a as [out hx]. unfold emit_registered.
  destruct (instanceof_List hx (read ctor self p)).
  - destruct (call_toObject X hx _ _) as [x cells]. apply has_set_iff.
  - destruct (Bag.has (__data self) p).
    + destruct (plain X hx _ schemaLess) as [x hy]. apply has_set_iff.
    + apply has_set_iff.
Qed.

Lemma emit_own_has p a q :
  Bag.has (own self) p = true ->
  Bag.has (fst (emit_own X ctor self schemaLess p a)) q = true
  <-> q = p \/ Bag.has (fst a) q = true.
Proof.
  intros Hown. destruct a as [out hx]. unfold emit_own. rewrite Hown.
  destruct (Bag.has out p) eqn:E; simpl.
  - split; [tauto|]. intros [->|H]; auto.
  - destruct (plain X hx _ schemaLess) as [x hy]. apply has_set_iff.
Qed.

Lemma emit_data_has p a q :
  Bag.has (fst (emit_data X ctor self schemaLess p a)) q = true
  <-> q = p \/ Bag.has (fst a) q = true.
Proof.
  destruct a as [out hx]. unfold emit_data.
  destruct (Bag.has out p) eqn:E; simpl.
  - split; [tauto|]. intros [->|H]; auto.
  - destruct (plain X hx _ schemaLess) as [x hy]. apply has_set_iff.
Qed.

End Keys.

Lemma toObject_has_iff X ctor h self onlySchema q :
  Bag.has (fst (toObject X ctor h self onlySchema)) q = true
  <-> Bag.has (properties ctor) q = true
      \/ (schemaLess_mode self onlySchema = true
          /\ (Bag.has (own self) q = true
              \/ Bag.has (__data self) q = true)).
Proof.
  unfold toObject. cbv zeta. fold (schemaLess_mode self onlySchema).
  set (sl := schemaLess_mode self onlySchema).
  set (a1 := fold_left (fun a p => emit_registered X ctor self sl p a)
                       (Bag.keys (properties ctor)) ([], h)).
  assert (H1 : Bag.has (fst a1) q = true
               <-> Bag.has (properties ctor) q = true).
  { unfold a1. rewrite fold_left_keys.
    - rewrite <- has_In_keys. simpl. split; [intros [H|H]|]; auto.
      discriminate.
    - intros a p _ q'. apply emit_registered_has. }
  destruct sl.
  - rewrite fold_left_keys by (intros a p _ q'; apply emit_data_has).
    rewrite fold_left_keys.
    + rewrite H1, <- !has_In_keys. tauto.
    + intros a p Hp q'. apply emit_own_has. now apply has_In_keys.
  - rewrite H1. split; [auto|]. intros [H|[H _]]; [auto|discriminate].
Qed.




(* ================================================================== *)
(** ** Unknown keys of a strict instance                               *)
(* ================================================================== *)

Section Dropped.

Variable X : externals.
Variable ctor : model.
Variable data : Bag.t value.
Variable strict : value.
Variable k : string.

Hypothesis Hunknown : unknown_key ctor k.
Hypothesis Hnot_false : strict <> VBool false.
Hypothesis Hnot_throw : strict <> VStr "throw".

Lemma partition_key_drops s :
  partition_key ctor data strict k s = Ok s.
Proof.
  destruct s as [h self]. destruct Hunknown as [Hp Hr].
  unfold partition_key. rewrite Hp, (has_false_get _ _ Hr). simpl.
  apply strict_eq_false in Hnot_false, Hnot_throw.
  now rewrite Hnot_false, Hnot_throw.
Qed.

Lemma apply_setter_skips s : apply_setter X ctor data k s = Ok s.
Proof.
  destruct s as [h self]. destruct Hunknown as [Hp Hr].
  unfold apply_setter. now rewrite Hp, Hr, andb_false_r.
Qed.

End Dropped.

(** X8. Under a strict mode that is neither [false] nor ["throw"], and
    for a class and an input with ordinary names, an ordinary key that
    is neither a registered property nor a relation name (nor the
    foreign key of a relation of the input) is dropped: after
    construction it is in neither store, it is not an own property, and
    no serialisation contains it. *)
Theorem unknown_key_is_dropped
        (X : externals) (ctor : model) (h : heap) (data : Bag.t value)
        (opts : options) (h' : heap) (self : instance) (k : string) :
  ModelBaseClass X ctor h data opts = Ok (h', self) ->
  ordinary ctor data = true ->
  reserved k = false ->
  resolve_strict ctor opts <> VBool false ->
  resolve_strict ctor opts <> VStr "throw" ->
  unknown_key ctor k ->
  (forall i r, In i (Bag.keys data) ->
               Bag.get (relations ctor) i = Some r -> keyFrom r <> k) ->
  Bag.has (__data self) k = false
  /\ Bag.has (__dataWas self) k = false
  /\ Bag.has (own self) k = false
  /\ forall onlySchema,
       Bag.has (fst (toObject X ctor h' self onlySchema)) k = false.
Proof.
  intros Hnew _ _ Hnf Hnt Hunknown Hrel.
  apply ModelBaseClass_run in Hnew as (opts' & Hs & _ & Hrun).
  assert (Hst : resolve_strict ctor opts' = resolve_strict ctor opts).
  { unfold resolve_strict. now rewrite Hs. }
  destruct Hrun as [s4 s5 s6 s7 s8 H4 H5 H6 H7 H8 Hfin].
  injection Hfin as -> ->. rewrite Hst in *.
  destruct (define_stores_spec ctor h data opts') as (_ & D0 & W0 & O0 & _).
  assert (U4 : untouched k (define_stores ctor h data opts') s4).
  { eapply forEach_untouched; eauto. intros i a b Hin Hb.
    destruct (String.eqb_spec i k) as [->|Hne].
    - rewrite (partition_key_drops ctor data _ k Hunknown Hnf Hnt) in Hb.
      injection Hb as <-. apply untouched_refl.
    - eapply partition_key_untouched; eauto. }
  assert (U5 : untouched k s4 s5).
  { destruct (strict_eq _ (VBool true)) in H5;
      [|injection H5 as <-; apply untouched_refl].
    eapply forEach_untouched; eauto. intros i a b Hin Hb.
    destruct (String.eqb_spec i k) as [->|Hne].
    - rewrite (apply_setter_skips X ctor data k Hunknown) in Hb.
      injection Hb as <-. apply untouched_refl.
    - eapply apply_setter_untouched; eauto. }
  assert (E6 : s6 = s5).
  { apply strict_eq_false in Hnf. rewrite Hnf in H6. congruence. }
  subst s6.
  assert (Hreg : forall q, In q (Bag.keys (properties ctor)) -> q <> k).
  { intros q Hq ->. apply has_In_keys in Hq.
    destruct Hunknown. congruence. }
  assert (U7 : untouched k s5 s7).
  { eapply forEach_untouched; eauto. intros q a b Hin Hb.
    eapply fill_default_untouched; eauto. }
  assert (U8 : untouched k s7 s8).
  { eapply forEach_untouched; eauto. intros q a b Hin Hb.
    eapply coerce_property_untouched; eauto. }
  pose proof (untouched_trans _ _ _ _ U4
                (untouched_trans _ _ _ _ U5
                   (untouched_trans _ _ _ _ U7 U8))) as U.
  destruct U as [_ Ud Uw Uo _ _]. rewrite D0 in Ud. rewrite W0 in Uw.
  rewrite O0 in Uo. simpl in Ud, Uw, Uo.
  assert (Hd : Bag.has (__data (snd s8)) k = false)
    by (unfold Bag.has; now rewrite Ud).
  assert (Hw : Bag.has (__dataWas (snd s8)) k = false)
    by (unfold Bag.has; now rewrite Uw).
  assert (Ho : Bag.has (own (snd s8)) k = false)
    by (unfold Bag.has; now rewrite Uo).
  simpl. repeat split; auto.
  intros onlySchema.
  destruct (Bag.has (fst (toObject X ctor (fst s8)
                                   (trigger "initialize" (snd s8))
                                   onlySchema)) k) eqn:E; auto.
  apply toObject_has_iff in E. simpl in E. destruct Hunknown as [Hp _].
  destruct E as [E|[_ [E|E]]]; congruence.
Qed.

Lemma unknown_key_is_dropped_witness :
  match ModelBaseClass Sample.inert Sample.User []
                       [("name", VStr "Joe"); ("extra", VNum 1)]
                       (Sample.strict_opt (VBool true)) with
  | Ok (h', self) =>
      Bag.has (__data self) "extra" = false
      /\ Bag.has (fst (toObject Sample.inert Sample.User h' self
                                (VBool false))) "extra" = false
  | Throw _ => False
  end.
Proof.
  destruct (ModelBaseClass Sample.inert Sample.User []
                           [("name", VStr "Joe"); ("extra", VNum 1)]
                           (Sample.strict_opt (VBool true)))
    as [[h' self]|e] eqn:E; [|vm_compute in E; discriminate].
  destruct (unknown_key_is_dropped
              Sample.inert Sample.User []
              [("name", VStr "Joe"); ("extra", VNum 1)]
              (Sample.strict_opt (VBool true)) h' self "extra" E eq_refl
              eq_refl)
    as (Hd & _ & _ & Hout).
  - vm_compute. discriminate.
  - vm_compute. discriminate.
  - split; vm_compute; reflexivity.
  - intros i r [<-|[<-|[]]]; vm_compute; discriminate.
  - split; [exact Hd|apply Hout].
Defined.

(* ================================================================== *)
(** ** Construction without the setters                                *)
(* ================================================================== *)

Lemma forEach_ext {S : Type} (f g : string -> S -> result S) ks :
  (forall k s, In k ks -> f k s = g k s) ->
  forall s, forEach f ks s = forEach g ks s.
Proof.
  induction ks as [|k ks IH]; intros Hext s; simpl; auto.
  rewrite (Hext k s (or_introl eq_refl)).
  destruct (g k s) as [s1|e]; simpl; auto.
  apply IH. intros k' s' Hin. apply Hext. now right.
Qed.

(** Mirroring an unknown key never goes through a setter. *)
Lemma mirror_unknown_ignores_setter X ctor n data k s :
  mirror_unknown (with_normalize n X) ctor data k s
  = mirror_unknown X ctor data k s.
Proof.
  destruct s as [h self]. unfold mirror_unknown.
  destruct (Bag.has (properties ctor) k) eqn:E; cbn [negb].
  - now rewrite !andb_false_r.
  - destruct (negb (is_function h (prop data k))); cbn [andb]; auto.
    now rewrite !assign_unregistered.
Qed.

(** X9. When the options carry an [applySetters] that is not [true],
    the construction does not depend on the setters of the registered
    properties: with any other normalisation in their place the outcome
    is the same store and the same instance, or the same error. *)
Theorem construction_ignores_setters
        (X : externals) (ctor : model) (h : heap) (data : Bag.t value)
        (opts : options) (v : value)
        (n : string -> value -> heap -> value * list cell) :
  opt_applySetters opts = Some v ->
  v <> VBool true ->
  ModelBaseClass (with_normalize n X) ctor h data opts
  = ModelBaseClass X ctor h data opts.
Proof.
  intros Ho Hv.
  assert (Ev : strict_eq v (VBool true) = false)
    by (apply strict_eq_false; exact Hv).
  unfold ModelBaseClass. cbv zeta. rewrite Ho. cbv beta iota.
  unfold _initProperties. cbv zeta. rewrite Ho. cbv beta iota.
  rewrite Ev.
  destruct (forEach (partition_key ctor data (resolve_strict ctor opts))
                    (Bag.keys data) (define_stores ctor h data opts))
    as [s4|e]; cbn [bind]; auto.
  assert (E6 : (if strict_eq (resolve_strict ctor opts) (VBool false)
                then forEach (mirror_unknown (with_normalize n X) ctor data)
                             (Bag.keys data) s4
                else Ok s4)
               = (if strict_eq (resolve_strict ctor opts) (VBool false)
                  then forEach (mirror_unknown X ctor data)
                               (Bag.keys data) s4
                  else Ok s4)).
  { destruct (strict_eq (resolve_strict ctor opts) (VBool false)); auto.
    apply forEach_ext.
    intros k s _. apply mirror_unknown_ignores_setter. }
  rewrite E6. reflexivity.
Qed.

Lemma construction_ignores_setters_witness :
  ModelBaseClass (with_normalize (normalize Sample.inert)
                                 SamplePerson.numeric)
                 SamplePerson.Person [] [("age", VStr "5")]
                 SamplePerson.without_setters
  = ModelBaseClass SamplePerson.numeric SamplePerson.Person []
                   [("age", VStr "5")] SamplePerson.without_setters.
Proof.
  apply (construction_ignores_setters _ _ _ _ _ (VBool false)).
  - reflexivity.
  - discriminate.
Defined.

(* ================================================================== *)
(** ** Serialising for JSON                                            *)
(* ================================================================== *)


(* ================================================================== *)
(** ** Assigning and resetting                                         *)
(* ================================================================== *)




Section Mutators.

Variable X : externals.
Variable ctor : model.

(** Assigning a registered name that no own property shadows goes
    through the setter. *)
Lemma assign_at_accessor p v h self :
  Bag.has (properties ctor) p = true ->
  Bag.get (own self) p = None ->
  assign X ctor p v (h, self)
  = (h ++ snd (normalize X p v h),
     set_data p (fst (normalize X p v h)) self).
Proof.
  intros Hreg Hown.
  assert (Ho : Bag.has (own self) p = false)
    by (unfold Bag.has; now rewrite Hown).
  unfold assign. rewrite Ho, Hreg. now destruct (normalize X p v h).
Qed.

Lemma fromObject_fold obj p :
  Bag.has (properties ctor) p = true ->
  (forall hx, fst (normalize X p (prop obj p) hx) = prop obj p) ->
  forall ks s,
    Bag.get (own (snd s)) p = None ->
    Bag.get (own (snd (fold_left
                         (fun s key => assign X ctor key (prop obj key) s)
                         ks s))) p = None
    /\ __dataWas (snd (fold_left
                         (fun s key => assign X ctor key (prop obj key) s)
                         ks s)) = __dataWas (snd s)
    /\ (In p ks ->
        prop (__data (snd (fold_left
                             (fun s key => assign X ctor key (prop obj key) s)
                             ks s))) p = prop obj p)
    /\ (~ In p ks ->
        Bag.get (__data (snd (fold_left
                                (fun s key =>
                                   assign X ctor key (prop obj key) s)
                                ks s))) p
        = Bag.get (__data (snd s)) p).
Proof.
  intros Hreg Hfix. induction ks as [|x ks IH]; intros s Hown;
    cbn [fold_left].
  - repeat split; auto. intros [].
  - set (s1 := assign X ctor x (prop obj x) s).
    assert (H1 : Bag.get (own (snd s1)) p = None
                 /\ __dataWas (snd s1) = __dataWas (snd s)
                 /\ (x = p -> prop (__data (snd s1)) p = prop obj p)
                 /\ (x <> p -> Bag.get (__data (snd s1)) p
                               = Bag.get (__data (snd s)) p)).
    { split; [|split; [apply (assign_grows X ctor x (prop obj x) s)|]].
      - destruct (String.eqb_spec x p) as [->|Hne].
        + destruct s as [h self]. unfold s1.
          rewrite assign_at_accessor; auto.
        + destruct (assign_untouched X ctor p x (prop obj x) s Hne)
            as [_ _ _ Uo _ _].
          fold s1 in Uo. congruence.
      - split.
        + intros ->. destruct s as [h self]. unfold s1.
          rewrite assign_at_accessor; auto. cbn [snd set_data __data].
          rewrite prop_set_same. apply Hfix.
        + intros Hne.
          now destruct (assign_untouched X ctor p x (prop obj x) s Hne). }
    destruct H1 as (O1 & W1 & D1 & N1).
    destruct (IH s1 O1) as (O & W & D & N).
    split; [exact O|]. split; [congruence|]. split.
    + intros Hin.
      destruct (in_dec string_dec p ks) as [Hp|Hp]; [auto|].
      destruct Hin as [->|Hin]; [|contradiction].
      unfold prop at 1. rewrite (N Hp). exact (D1 eq_refl).
    + intros Hn. rewrite N.
      * apply N1. intros ->. apply Hn. now left.
      * intros Hin. apply Hn. now right.
Qed.







End Mutators.

(** X11. [fromObject(obj)] and the change tracker: for an object with
    ordinary keys and a key [p] of it that is a registered property,
    that no own property of the instance shadows and whose setter leaves
    [obj[p]] as it is, afterwards the data store holds [obj[p]] under
    [p], the baseline is what it was, and [propertyChanged(p)] is true
    if and only if [obj[p]] is not the baseline value or is [NaN]. *)
Theorem fromObject_marks_changed
        (X : externals) (ctor : model) (obj : Bag.t value) (h : heap)
        (self : instance) (p : string) :
  In p (Bag.keys obj) ->
  ordinary_keys obj = true ->
  Bag.has (properties ctor) p = true ->
  Bag.get (own self) p = None ->
  (forall hx, fst (normalize X p (prop obj p) hx) = prop obj p) ->
  prop (__data (snd (fromObject X ctor obj (h, self)))) p = prop obj p
  /\ __dataWas (snd (fromObject X ctor obj (h, self))) = __dataWas self
  /\ (propertyChanged (snd (fromObject X ctor obj (h, self))) p = true
      <-> (prop obj p <> prop (__dataWas self) p \/ prop obj p = VNaN)).
Proof.
  intros Hin _ Hreg Hown Hfix. unfold fromObject.
  destruct (fromObject_fold X ctor obj p Hreg Hfix (Bag.keys obj)
                            (h, self) Hown) as (_ & W & D & _).
  cbn [snd] in W. split; [exact (D Hin)|]. split; [exact W|].
  unfold propertyChanged. rewrite (D Hin), W, negb_true_iff.
  apply strict_eq_false_iff.
Qed.

Lemma fromObject_marks_changed_witness :
  prop (__data (snd (fromObject Sample.inert Sample.User
                                [("name", VStr "Joe"); ("age", VNum 30)]
                                ([], SampleDirty.renamed)))) "age"
  = VNum 30
  /\ propertyChanged (snd (fromObject Sample.inert Sample.User
                                      [("name", VStr "Joe");
                                       ("age", VNum 30)]
                                      ([], SampleDirty.renamed))) "age"
     = true
  /\ propertyChanged (snd (fromObject Sample.inert Sample.User
                                      [("name", VStr "Joe");
                                       ("age", VNum 30)]
                                      ([], SampleDirty.renamed))) "name"
     = false.
Proof.
  destruct (fromObject_marks_changed
              Sample.inert Sample.User
              [("name", VStr "Joe"); ("age", VNum 30)] []
              SampleDirty.renamed "age")
    as (D & _ & C); try reflexivity.
  { right. left. reflexivity. }
  destruct (fromObject_marks_changed
              Sample.inert Sample.User
              [("name", VStr "Joe"); ("age", VNum 30)] []
              SampleDirty.renamed "name")
    as (_ & _ & C'); try reflexivity.
  { left. reflexivity. }
  split; [exact D|]. split.
  - apply C. left. vm_compute. discriminate.
  - destruct (propertyChanged _ "name"); [|reflexivity].
    exfalso. destruct (proj1 C' eq_refl) as [Hc|Hc].
    + now apply Hc.
    + vm_compute in Hc. discriminate.
Defined.





(* ================================================================== *)
(** ** The objects of the input                                        *)
(* ================================================================== *)

Section Intact.

Variable X : externals.
Variable ctor : model.
Variable h : heap.
Variable data : Bag.t value.

Hypothesis Hfresh : Bag.has data "__cachedRelations" = false.

Lemma define_stores_intact opts :
  input_intact h (define_stores ctor h data opts).
Proof.
  unfold define_stores, alloc, prop.
  rewrite (has_false_get _ _ Hfresh). cbn [truthy].
  split; simpl; auto.
  intros l c Hl. rewrite nth_error_app1; auto.
  apply nth_error_Some. congruence.
Qed.

(** The only store write of the partition goes to the relation cache. *)
Lemma partition_key_intact strict i s s' :
  input_intact h s ->
  partition_key ctor data strict i s = Ok s' -> input_intact h s'.
Proof.
  destruct s as [hx self]. intros [N C]. simpl in *.
  unfold partition_key, clone.
  destruct (Bag.has (properties ctor) i && negb (is_function hx (prop data i))).
  - intros [= <-]. split; auto.
  - destruct (Bag.get (relations ctor) i) as [r'|].
    + destruct (js_get hx (prop data i) (keyTo r')) as [v|e]; simpl;
        [|discriminate].
      rewrite C. simpl. intros [= <-]. split; simpl; auto.
      intros l c Hl. rewrite nth_error_update_cell_other; auto.
      assert (l < length h) by (apply nth_error_Some; congruence). lia.
    + destruct (strict_eq strict (VBool false)).
      * intros [= <-]. split; auto.
      * destruct (strict_eq strict (VStr "throw")); [discriminate|].
        intros [= <-]. split; auto.
Qed.

Lemma grows_intact s s' :
  grows s s' -> input_intact h s -> input_intact h s'.
Proof.
  intros G [N C]. split.
  - intros l c Hl. eapply grows_nth_error; eauto.
  - destruct G as (_ & Cc & _). congruence.
Qed.

Lemma init_run_intact opts s :
  init_run X ctor h data opts s -> input_intact h s.
Proof.
  intros [s4 s5 s6 s7 s8 H4 H5 H6 H7 H8 Hfin]. subst s.
  assert (I4 : input_intact h s4).
  { apply (forEach_inv _ (input_intact h) _)
      with (s := define_stores ctor h data opts) (s' := s4) in H4; auto.
    - intros i a b _ Ha Hb. eapply partition_key_intact; eauto.
    - apply define_stores_intact. }
  assert (G5 : grows s4 s5).
  { destruct (strict_eq _ (VBool true)) in H5;
      [|injection H5 as <-; apply grows_refl].
    eapply forEach_grows; eauto. intros k a b _ Hb.
    now apply apply_setter_grows in Hb. }
  assert (G6 : grows s5 s6).
  { destruct (strict_eq _ (VBool false)) in H6;
      [|injection H6 as <-; apply grows_refl].
    eapply forEach_grows; eauto. intros k a b _ Hb.
    now apply mirror_unknown_grows in Hb. }
  assert (G7 : grows s6 s7).
  { eapply forEach_grows; eauto. intros k a b _ Hb.
    eapply fill_default_grows; eauto. }
  assert (G8 : grows s7 s8).
  { eapply forEach_grows; eauto. intros k a b _ Hb.
    eapply coerce_property_grows; eauto. }
  destruct (grows_intact _ _ G8
              (grows_intact _ _ G7
                 (grows_intact _ _ G6 (grows_intact _ _ G5 I4))))
    as [N C].
  split; auto.
Qed.

End Intact.

(** X14. A run of [_initProperties] writes to no object that the store
    it is given holds: for a class and an input with ordinary names
    (the input then brings no relation cache), every cell of the initial
    store is the same cell in the final store.  The only store write of
    lines 59-195 goes to the relation cache, a new object; the
    collaborators only allocate.  (The input and the options are read
    only; the constructor's write of [applySetters] into the options,
    line 34, is not part of this run.) *)
Theorem initialisation_keeps_input_cells
        (X : externals) (ctor : model) (h : heap) (data : Bag.t value)
        (opts : options) (h' : heap) (self : instance) :
  _initProperties X ctor h data opts = Ok (h', self) ->
  ordinary ctor data = true ->
  forall l c, nth_error h l = Some c -> nth_error h' l = Some c.
Proof.
  intros Hrun Hord.
  assert (Hfresh : Bag.has data "__cachedRelations" = false).
  { apply ordinary_keys_has; [now apply (ordinary_input ctor)|reflexivity]. }
  apply _initProperties_run in Hrun.
  exact (proj1 (init_run_intact X ctor h data Hfresh opts (h', self) Hrun)).
Qed.

Lemma initialisation_keeps_input_cells_witness :
  match _initProperties Sample.inert Sample.User SampleRelation.one_owner
                        [("name", VStr "Joe"); ("owner", VRef 0)]
                        no_options with
  | Ok (h', _) =>
      nth_error h' 0 = Some (mkCell KObject [("id", VNum 7)])
  | Throw _ => False
  end.
Proof.
  destruct (_initProperties Sample.inert Sample.User
                            SampleRelation.one_owner
                            [("name", VStr "Joe"); ("owner", VRef 0)]
                            no_options)
    as [[h' self]|e] eqn:E; [|vm_compute in E; discriminate].
  apply (initialisation_keeps_input_cells _ _ _ _ _ _ _ E eq_refl).
  reflexivity.
Defined.

(* ================================================================== *)
(** ** A property without a type                                       *)
(* ================================================================== *)

Lemma forEach_raises {S : Type} (body : string -> S -> result S) ks p e :
  (forall k s e', body k s = Throw e' -> e' = e) ->
  In p ks ->
  (forall s, body p s = Throw e) ->
  forall s, forEach body ks s = Throw e.
Proof.
  intros Hu. induction ks as [|k ks IH]; intros Hin Hp s;
    [contradiction|]. simpl.
  destruct (body k s) as [s1|e1] eqn:E; simpl.
  - destruct Hin as [->|Hin]; [rewrite Hp in E; discriminate|].
    now apply IH.
  - f_equal. eapply Hu; eauto.
Qed.

Lemma is_function_ref h v :
  is_function h v = true -> exists l, v = VRef l.
Proof. destruct v; try discriminate. eauto. Qed.

(** Outside the strict mode ["throw"], a key passes the partition as
    soon as the value under a relation name can be read through. *)
Lemma partition_key_passes ctor data strict i s :
  strict <> VStr "throw" ->
  (forall r, Bag.has (properties ctor) i = false ->
             Bag.get (relations ctor) i = Some r ->
             prop data i <> VUndefined /\ prop data i <> VNull) ->
  truthy (__cachedRelations (snd s)) = true ->
  exists s', partition_key ctor data strict i s = Ok s'
             /\ truthy (__cachedRelations (snd s')) = true.
Proof.
  intros Hst Hnested Hc. apply strict_eq_false in Hst.
  destruct s as [hx self]. cbn [snd] in Hc. unfold partition_key, clone.
  assert (Hrel : forall r,
             (Bag.has (properties ctor) i = false
              \/ is_function hx (prop data i) = true) ->
             Bag.get (relations ctor) i = Some r ->
             exists s',
               (v <- js_get hx (prop data i) (keyTo r) ;;
                h' <- js_put hx
                        (__cachedRelations
                           (set_data (keyFrom r) v (set_dataWas i v self)))
                        i (prop data i) ;;
                Ok (h', set_data (keyFrom r) v (set_dataWas i v self)))
               = Ok s'
               /\ truthy (__cachedRelations (snd s')) = true).
  { intros r Hcase Hr.
    assert (Hget : exists v, js_get hx (prop data i) (keyTo r) = Ok v).
    { destruct Hcase as [Hreg|Hf].
      - destruct (Hnested r Hreg Hr) as [Hu Hn]. unfold js_get.
        destruct (prop data i); try contradiction; eauto.
        destruct (nth_error hx l); eauto.
      - apply is_function_ref in Hf as [l ->]. unfold js_get.
        destruct (nth_error hx l); eauto. }
    destruct Hget as [v ->]. cbn [bind].
    change (__cachedRelations
              (set_data (keyFrom r) v (set_dataWas i v self)))
      with (__cachedRelations self).
    unfold js_put.
    destruct (__cachedRelations self) eqn:Ec; try discriminate;
      cbn [bind]; eexists; (split; [reflexivity|]); cbn [snd];
      change (__cachedRelations
                (set_data (keyFrom r) v (set_dataWas i v self)))
        with (__cachedRelations self); now rewrite Ec. }
  assert (Hunknown :
            exists s',
              (if strict_eq strict (VBool false)
               then Ok (hx, set_data i (prop data i)
                                     (set_dataWas i (prop data i) self))
               else if strict_eq strict (VStr "throw")
                    then Throw (JsError ("Unknown property: " ++ i)%string)
                    else Ok (hx, self)) = Ok s'
              /\ truthy (__cachedRelations (snd s')) = true).
  { rewrite Hst. destruct (strict_eq strict (VBool false)); eauto. }
  destruct (Bag.has (properties ctor) i) eqn:Hreg; cbn [andb].
  - destruct (is_function hx (prop data i)) eqn:Hf; cbn [negb].
    + destruct (Bag.get (relations ctor) i) as [r|] eqn:Hr; auto.
    + eauto.
  - destruct (Bag.get (relations ctor) i) as [r|] eqn:Hr; auto.
Qed.

(** X15. A model with a property that declares no type cannot be
    instantiated: outside the strict mode ["throw"], and for an input
    whose values under relation names are neither [null] nor
    [undefined], the construction raises a type error, whatever the
    input supplies for the property. *)
Theorem untyped_property_raises
        (X : externals) (ctor : model) (h : heap) (data : Bag.t value)
        (opts : options) (p : string) (d : descriptor) :
  Bag.get (properties ctor) p = Some d ->
  type d = None ->
  no_hidden_key data = true ->
  (forall i r, In i (Bag.keys data) ->
               Bag.has (properties ctor) i = false ->
               Bag.get (relations ctor) i = Some r ->
               prop data i <> VUndefined /\ prop data i <> VNull) ->
  resolve_strict ctor opts <> VStr "throw" ->
  ModelBaseClass X ctor h data opts = Throw JsTypeError.
Proof.
  intros Hd Hty _ Hnested Hst.
  destruct (ModelBaseClass_unfold X ctor h data opts) as (opts' & -> & Est).
  rewrite <- Est in Hst.
  destruct (_initProperties_outcome X ctor h data opts') as [_ Hok].
  assert (H4 : exists s4,
             forEach (partition_key ctor data (resolve_strict ctor opts'))
                     (Bag.keys data) (define_stores ctor h data opts')
             = Ok s4).
  { assert (G : forall ks s,
               (forall i, In i ks -> In i (Bag.keys data)) ->
               truthy (__cachedRelations (snd s)) = true ->
               exists s4,
                 forEach (partition_key ctor data
                                        (resolve_strict ctor opts'))
                         ks s = Ok s4).
    { induction ks as [|i ks IH]; intros s Hsub Hc; simpl; eauto.
      destruct (partition_key_passes
                  ctor data (resolve_strict ctor opts') i s Hst
                  (fun r => Hnested i r (Hsub i (or_introl eq_refl))) Hc)
        as (s1 & -> & Hc1).
      cbn [bind]. apply IH; auto. intros j Hj. apply Hsub. now right. }
    apply G; auto.
    apply (define_stores_sane ctor h data opts'). }
  destruct H4 as [s4 H4].
  destruct (Hok s4 H4) as [[[s Hs]|Hthrow] _]; [exfalso|exact Hthrow].
  apply _initProperties_run in Hs.
  destruct Hs as [t4 t5 t6 t7 t8 _ _ _ _ H8 _].
  unfold forEachProperty in H8.
  rewrite (forEach_raises (coerce_property X ctor)
                          (Bag.keys (properties ctor)) p JsTypeError)
    in H8; [discriminate| | |].
  - intros k s0 e'. apply coerce_property_Throw.
  - apply has_In_keys. eapply get_Some_has; eauto.
  - intros s0. unfold coerce_property. now rewrite Hd, Hty.
Qed.

Lemma untyped_property_raises_witness :
  ModelBaseClass Sample.inert SampleUntyped.Draft []
                 [("title", VStr "x")] no_options
  = Throw JsTypeError.
Proof.
  apply (untyped_property_raises
           Sample.inert SampleUntyped.Draft [] [("title", VStr "x")]
           no_options "title" (mkDescriptor None VUndefined));
    try reflexivity.
  - intros i r _ _ Hr. discriminate Hr.
  - discriminate.
Defined.

(* ================================================================== *)
(** ** A primitive value under a structured property                   *)
(* ================================================================== *)

Lemma forEach_establish_once {S : Type} (body : string -> S -> result S)
      (J I : S -> Prop) (p : string) ks :
  NoDup ks ->
  (forall s s', J s -> body p s = Ok s' -> I s') ->
  (forall k s s', In k ks -> k <> p -> J s -> body k s = Ok s' -> J s') ->
  (forall k s s', In k ks -> k <> p -> I s -> body k s = Ok s' -> I s') ->
  In p ks ->
  forall s s', J s -> forEach body ks s = Ok s' -> I s'.
Proof.
  intros Hnd Hp. induction ks as [|k ks IH]; simpl;
    intros HJ HI Hin s s' Hs Hrun; [contradiction|].
  inversion Hnd as [|k0 ks0 Hk Hnd']; subst.
  destruct (body k s) as [s1|e] eqn:E; simpl in Hrun; [|discriminate].
  destruct (String.eqb_spec k p) as [->|Hne].
  - apply (forEach_inv body I ks) with (s := s1); eauto.
    intros k a b Hka Ha Hb. apply (HI k a b); auto.
    intros ->. contradiction.
  - destruct Hin as [->|Hin]; [contradiction|].
    apply IH with (s := s1); eauto.
Qed.

Lemma untouched_supplied p v s s' :
  untouched p s s' -> supplied p v s -> supplied p v s'.
Proof. intros [_ D W O _ _] (Hd & Hw & Ho). repeat split; congruence. Qed.

Lemma wrap_list_scalar ty k s :
  is_array_type ty = false -> wrap_list ty k s = s.
Proof. intros H. destruct s. unfold wrap_list. now rewrite H. Qed.

Section Structured.

Variable X : externals.
Variable ctor : model.
Variable data : Bag.t value.
Variables (p : string) (d : descriptor) (ty : type_tag) (v : value).

Hypothesis Hd : Bag.get (properties ctor) p = Some d.
Hypothesis Hty : type d = Some ty.
Hypothesis Hstructured : not_base_type ty = true.
Hypothesis Hscalar : is_array_type ty = false.
Hypothesis Hv : Bag.get data p = Some v.
Hypothesis Htruthy : truthy v = true.
Hypothesis Hprim : forall l, v <> VRef l.

Lemma structured_registered : Bag.has (properties ctor) p = true.
Proof. eapply get_Some_has; eauto. Qed.

Lemma partition_at_structured strict s s' :
  Bag.get (own (snd s)) p = None ->
  partition_key ctor data strict p s = Ok s' -> supplied p v s'.
Proof.
  destruct s as [hx self]. cbn [snd]. intros Ho.
  unfold partition_key, clone, prop.
  rewrite structured_registered, Hv, (primitive_not_function hx v Hprim).
  cbn [negb andb]. intros [= <-]. unfold supplied.
  cbn [snd set_data set_dataWas __data __dataWas own].
  now rewrite !get_set_same.
Qed.

Lemma apply_setter_at_structured s s' :
  (forall hx, fst (normalize X p v hx) = v) ->
  supplied p v s -> apply_setter X ctor data p s = Ok s' ->
  supplied p v s'.
Proof.
  destruct s as [hx self]. intros Hfix (Hs & Hw & Ho). cbn [snd] in *.
  assert (Hpv : prop data p = v) by (unfold prop; now rewrite Hv).
  assert (Hps : prop (__data self) p = v) by (unfold prop; now rewrite Hs).
  unfold apply_setter.
  rewrite Hpv, Hps, structured_registered,
    (primitive_not_function hx v Hprim).
  cbn [negb andb orb]. unfold js_or. rewrite Htruthy. intros E.
  assert (Es : s' = assign X ctor p v (hx, self)) by congruence.
  subst s'.
  rewrite (assign_at_accessor X ctor p v hx self structured_registered Ho).
  unfold supplied. cbn [snd set_data __data __dataWas own]. rewrite Hfix.
  now rewrite get_set_same.
Qed.

Lemma mirror_at_structured s s' :
  mirror_unknown X ctor data p s = Ok s' -> s' = s.
Proof.
  destruct s as [hx self]. unfold mirror_unknown.
  rewrite structured_registered. cbn [negb]. rewrite andb_false_r.
  now intros [= <-].
Qed.

Lemma fill_default_at_structured s s' :
  supplied p v s -> fill_default X ctor p s = Ok s' -> supplied p v s'.
Proof.
  destruct s as [hx self]. intros (Hs & Hw & Ho). cbn [snd] in *.
  unfold fill_default, prop. rewrite Hs.
  assert (E : strict_eq VUndefined v = false).
  { apply strict_eq_false. intros <-. discriminate. }
  rewrite E. intros [= <-]. unfold supplied.
  cbn [snd set_dataWas __data __dataWas own].
  now rewrite get_set_same.
Qed.

Lemma coerce_at_structured s s' :
  supplied p v s -> coerce_property X ctor p s = Ok s' -> parsed X p v s'.
Proof.
  destruct s as [hx self]. intros (Hs & Hw & Ho). cbn [snd] in *.
  assert (Hps : prop (__data self) p = v) by (unfold prop; now rewrite Hs).
  assert (Hpw : prop (__dataWas self) p = v)
    by (unfold prop; now rewrite Hw).
  unfold coerce_property. rewrite Hd, Hty, Hstructured.
  rewrite (wrap_list_scalar ty p _ Hscalar). intros E0.
  assert (Es : s' = parse_structured X p (hx, self)) by congruence.
  subst s'. unfold parse_structured. rewrite Hps.
  assert (E : negb (String.eqb (typeof hx v) "object") && truthy v = true).
  { rewrite Htruthy, andb_true_r.
    destruct v; try reflexivity; try discriminate. now elim (Hprim l). }
  rewrite E. unfold parsed, parse_or_text.
  destruct (JSON_parse X (to_string X hx v) hx) as [[v' cells]|] eqn:Ep;
    cbn [snd set_data __data __dataWas]; (split; [exact Hpw|]);
    exists hx; rewrite Ep; apply prop_set_same.
Qed.

Lemma untouched_parsed s s' :
  untouched p s s' -> parsed X p v s -> parsed X p v s'.
Proof.
  intros [_ D W _ _ _] (Hw & hx & Hx). unfold parsed, prop in *.
  rewrite D, W. eauto.
Qed.

Lemma init_run_parsed h opts s :
  NoDup (Bag.keys (properties ctor)) ->
  (forall i r, In i (Bag.keys data) ->
               Bag.get (relations ctor) i = Some r -> keyFrom r <> p) ->
  ((exists a, opt_applySetters opts = Some a /\ a <> VBool true)
   \/ forall hx, fst (normalize X p v hx) = v) ->
  init_run X ctor h data opts s -> parsed X p v s.
Proof.
  intros Hnd Hrel Hset [s4 s5 s6 s7 s8 H4 H5 H6 H7 H8 Hfin]. subst s.
  assert (Hin : In p (Bag.keys data)).
  { apply has_In_keys. eapply get_Some_has; eauto. }
  assert (Hreg : In p (Bag.keys (properties ctor))).
  { apply has_In_keys. apply structured_registered. }
  assert (I4 : supplied p v s4).
  { apply (forEach_establish_in
             _ (fun s => Bag.get (own (snd s)) p = None) (supplied p v)
             p (Bag.keys data)) with (s := define_stores ctor h data opts)
      in H4; auto.
    - intros a b Ha Hb. eapply partition_at_structured; eauto.
    - intros k a b Hk Hne Ha Hb.
      destruct (partition_key_untouched ctor p data _ k a b Hne
                                        (fun r => Hrel k r Hk) Hb)
        as [_ _ _ Uo _ _]. congruence.
    - intros k a b Hk Ha Hb.
      destruct (String.eqb_spec k p) as [->|Hne].
      + eapply partition_at_structured; eauto. apply Ha.
      + eapply untouched_supplied; eauto.
        exact (partition_key_untouched ctor p data _ k a b Hne
                                       (fun r => Hrel k r Hk) Hb).
    - unfold define_stores, alloc.
      now destruct (truthy (prop data "__cachedRelations")). }
  assert (I5 : supplied p v s5).
  { destruct (strict_eq _ (VBool true)) eqn:Ea in H5;
      [|injection H5 as <-; exact I4].
    assert (Hfix : forall hx, fst (normalize X p v hx) = v).
    { destruct Hset as [(a & Ho & Hne)|Hfix]; [|exact Hfix].
      rewrite Ho in Ea. apply strict_eq_spec in Ea. contradiction. }
    apply (forEach_inv _ (supplied p v) _) with (s := s4) (s' := s5)
      in H5; auto.
    intros k a b _ Ha Hb.
    destruct (String.eqb_spec k p) as [->|Hne].
    - eapply apply_setter_at_structured; eauto.
    - eapply untouched_supplied; eauto.
      eapply apply_setter_untouched; eauto. }
  assert (I6 : supplied p v s6).
  { destruct (strict_eq _ (VBool false)) in H6;
      [|injection H6 as <-; exact I5].
    apply (forEach_inv _ (supplied p v) _) with (s := s5) (s' := s6)
      in H6; auto.
    intros k a b _ Ha Hb.
    destruct (String.eqb_spec k p) as [->|Hne].
    - apply mirror_at_structured in Hb. now subst b.
    - eapply untouched_supplied; eauto.
      eapply mirror_unknown_untouched; eauto. }
  assert (I7 : supplied p v s7).
  { apply (forEach_inv _ (supplied p v) _) with (s := s6) (s' := s7)
      in H7; auto.
    intros k a b _ Ha Hb.
    destruct (String.eqb_spec k p) as [->|Hne].
    - eapply fill_default_at_structured; eauto.
    - eapply untouched_supplied; eauto.
      eapply fill_default_untouched; eauto. }
  assert (I8 : parsed X p v s8).
  { apply (forEach_establish_once
             (coerce_property X ctor) (supplied p v) (parsed X p v) p
             (Bag.keys (properties ctor)) Hnd)
      with (s := s7) (s' := s8); auto.
    - intros a b Ha Hb. eapply coerce_at_structured; eauto.
    - intros k a b _ Hne Ha Hb. eapply untouched_supplied; eauto.
      eapply coerce_property_untouched; eauto.
    - intros k a b _ Hne Ha Hb. eapply untouched_parsed; eauto.
      eapply coerce_property_untouched; eauto. }
  exact I8.
Qed.

End Structured.

(** X16. A truthy primitive value supplied for a registered property of
    a structured type (neither a base type nor an array) is replaced,
    in the data store, by the result of parsing its text as JSON, or by
    the text itself when the parse fails; the baseline keeps the value
    as supplied.  (The property is no foreign key of a relation of the
    input, and either the setters are off or the setter of the property
    leaves the value as it is.) *)
Theorem structured_value_is_parsed
        (X : externals) (ctor : model) (h : heap) (data : Bag.t value)
        (opts : options) (h' : heap) (self : instance)
        (p : string) (d : descriptor) (ty : type_tag) (v : value) :
  ModelBaseClass X ctor h data opts = Ok (h', self) ->
  no_hidden_key data = true ->
  NoDup (Bag.keys (properties ctor)) ->
  Bag.get (properties ctor) p = Some d ->
  type d = Some ty ->
  not_base_type ty = true ->
  is_array_type ty = false ->
  Bag.get data p = Some v ->
  truthy v = true ->
  (forall l, v <> VRef l) ->
  (forall i r, In i (Bag.keys data) ->
               Bag.get (relations ctor) i = Some r -> keyFrom r <> p) ->
  ((exists a, opt_applySetters opts = Some a /\ a <> VBool true)
   \/ forall hx, fst (normalize X p v hx) = v) ->
  prop (__dataWas self) p = v
  /\ exists hx, prop (__data self) p = parse_or_text X hx v.
Proof.
  intros Hnew _ Hnd Hd Hty Hs Ha Hv Ht Hp Hrel Hset.
  destruct (ModelBaseClass_options X ctor h data opts)
    as (opts' & E & _ & _ & Eo).
  rewrite E in Hnew. apply _initProperties_run in Hnew.
  apply (init_run_parsed X ctor data p d ty v Hd Hty Hs Ha Hv Ht Hp
                         h opts' (h', self) Hnd Hrel); auto.
  destruct Hset as [(a & Ho & Hne)|Hfix]; [left|now right].
  exists a. rewrite Eo, Ho. auto.
Qed.

Lemma structured_value_is_parsed_witness :
  match ModelBaseClass SampleStructured.parsing SampleStructured.Page []
                       [("meta", VStr "7")] no_options with
  | Ok (_, self) =>
      prop (__dataWas self) "meta" = VStr "7"
      /\ exists hx, prop (__data self) "meta" = VNum 7
                    /\ parse_or_text SampleStructured.parsing hx (VStr "7")
                       = VNum 7
  | Throw _ => False
  end.
Proof.
  destruct (ModelBaseClass SampleStructured.parsing SampleStructured.Page
                           [] [("meta", VStr "7")] no_options)
    as [[h' self]|e] eqn:E; [|vm_compute in E; discriminate].
  destruct (structured_value_is_parsed
              SampleStructured.parsing SampleStructured.Page []
              [("meta", VStr "7")] no_options h' self "meta"
              (mkDescriptor (Some (TNamed "Object")) VUndefined)
              (TNamed "Object") (VStr "7") E)
    as (Hw & hx & Hx); try reflexivity.
  - repeat constructor. intros [].
  - discriminate.
  - intros i r _ Hr. discriminate Hr.
  - right. reflexivity.
  - split; [exact Hw|]. exists hx. split; [exact Hx|reflexivity].
Defined.
